(** * Thinkific course scraper: selector cascade, text normalisation,
      de-duplication and the click-through interaction loop.

    A shallow embedding of the JavaScript sources of the extension
    (selectors.js, the lesson-scraper utilities and the injected
    [clickThroughAndScrapeCourse] function) together with the properties
    its specification states about them.

    Conventions of the model
    - A JavaScript string is a [string] whose characters are read as code
      units below 256 (Basic Latin and Latin-1).  On that range the
      white-space class of [trim] and of the regular expression [\s], and
      the mapping of [toLowerCase], are written out in full.
    - A DOM element is a record of the properties the code reads, with
      [querySelectorAll] as a function from selector text to either an
      exception or the list of matches in document order.
    - Time is the value of [Date.now()] in milliseconds; it advances only
      in [sleep].  The page, the cancellation flag and the timer overshoot
      are functions of that clock, because the scraper never observes them
      in any other way. *)

From Stdlib Require Import ZArith Lia Ascii String.
From stdpp Require Import base list strings gmap.

Set Warnings "-register-all".
Open Scope string_scope.
Open Scope list_scope.

(* ===================================================================== *)
(** ** JavaScript strings                                                 *)
(* ===================================================================== *)

Module JsString.

(** The double-quote character, for selector text such as
    [[data-qa="lesson-title"]]. *)
Definition dq : string := String (ascii_of_nat 34) EmptyString.

(** [quoted s] is [s] between double quotes. *)
Definition quoted (s : string) : string := dq +:+ s +:+ dq.

(** JavaScript truthiness of a string: only the empty string is falsy. *)
Definition truthy (s : string) : bool :=
  match s with EmptyString => false | String _ _ => true end.

(** [s || null] for a string [s]. *)
Definition orNull (s : string) : option string :=
  if truthy s then Some s else None.

(** [s || d] for strings. *)
Definition orElse (s d : string) : string :=
  if truthy s then s else d.

(** Code units matched by [\s] and stripped by [trim]: TAB, LF, VT, FF, CR,
    SPACE and NBSP are the ones below 256. *)
Definition isWhiteSpace (c : ascii) : bool :=
  let n := nat_of_ascii c in
  ((9 <=? n)%nat && (n <=? 13)%nat) || (n =? 32)%nat || (n =? 160)%nat.

(** [toLowerCase] on one code unit: A-Z, and the Latin-1 capitals
    U+00C0-U+00DE except the multiplication sign U+00D7, move up by 32. *)
Definition lowerChar (c : ascii) : ascii :=
  let n := nat_of_ascii c in
  if ((65 <=? n)%nat && (n <=? 90)%nat)
     || ((192 <=? n)%nat && (n <=? 222)%nat && negb (n =? 215)%nat)
  then ascii_of_nat (n + 32) else c.

Fixpoint toLowerCase (s : string) : string :=
  match s with
  | EmptyString => EmptyString
  | String c r => String (lowerChar c) (toLowerCase r)
  end.

Fixpoint trimStart (s : string) : string :=
  match s with
  | EmptyString => EmptyString
  | String c r => if isWhiteSpace c then trimStart r else s
  end.

Fixpoint trimEnd (s : string) : string :=
  match s with
  | EmptyString => EmptyString
  | String c r =>
      match trimEnd r with
      | EmptyString => if isWhiteSpace c then EmptyString else String c EmptyString
      | r' => String c r'
      end
  end.

Definition trim (s : string) : string := trimEnd (trimStart s).

(** [s.replace(/\s+/g, ' ')]: every maximal run of white space becomes one
    SPACE.  [inRun] tells that the previous code unit was white space. *)
Fixpoint replaceRuns (inRun : bool) (s : string) : string :=
  match s with
  | EmptyString => EmptyString
  | String c r =>
      if isWhiteSpace c
      then (if inRun then replaceRuns true r
            else String " " (replaceRuns true r))
      else String c (replaceRuns false r)
  end.

Definition collapseWhiteSpace (s : string) : string := replaceRuns false s.

(** [s.includes(sub)]. *)
Fixpoint includes (s sub : string) : bool :=
  String.prefix sub s ||
  match s with
  | EmptyString => false
  | String _ r => includes r sub
  end.

(** Decimal text of a natural number, as in a template literal. *)
Definition digitChar (d : nat) : ascii := ascii_of_nat (48 + d).

Fixpoint natToStringAux (fuel n : nat) (acc : string) : string :=
  match fuel with
  | O => acc
  | S fuel' =>
      let acc' := String (digitChar (n mod 10)) acc in
      if (n <? 10)%nat then acc' else natToStringAux fuel' (n / 10) acc'
  end.

Definition natToString (n : nat) : string := natToStringAux (S n) n EmptyString.

End JsString.

Import JsString.

(* ===================================================================== *)
(** ** Strings beyond Latin-1                                             *)
(* ===================================================================== *)

(** JavaScript strings as lists of UTF-16 code units, for what the 8-bit
    strings above cannot show: [toLowerCase] lower-cases a capital sigma
    by its position.  The case data written out here is that of the code
    units below 256 and of the Greek letters U+0391, U+03A3, U+03B1,
    U+03C2 and U+03C3; on a string with any other code unit
    [toLowerCase] gives [None]. *)
Module Utf16.

Definition t := list N.


(** Code units matched by [\s] and stripped by [trim]: TAB, LF, VT, FF, CR,
    SPACE, NBSP, U+1680, U+2000-U+200A, U+2028, U+2029, U+202F, U+205F,
    U+3000 and U+FEFF. *)
Definition isWhiteSpace (u : N) : bool :=
  ((9 <=? u) && (u <=? 13) || (u =? 32) || (u =? 160) || (u =? 5760)
   || (8192 <=? u) && (u <=? 8202) || (u =? 8232) || (u =? 8233)
   || (u =? 8239) || (u =? 8287) || (u =? 12288) || (u =? 65279))%N.

Fixpoint trimStart (s : t) : t :=
  match s with
  | [] => []
  | u :: r => if isWhiteSpace u then trimStart r else s
  end.

Fixpoint trimEnd (s : t) : t :=
  match s with
  | [] => []
  | u :: r =>
      match trimEnd r with
      | [] => if isWhiteSpace u then [] else [u]
      | r' => u :: r'
      end
  end.

Definition trim (s : t) : t := trimEnd (trimStart s).

(** [s.replace(/\s+/g, ' ')]. *)
Fixpoint replaceRuns (inRun : bool) (s : t) : t :=
  match s with
  | [] => []
  | u :: r =>
      if isWhiteSpace u
      then (if inRun then replaceRuns true r else 32%N :: replaceRuns true r)
      else u :: replaceRuns false r
  end.

Definition collapseWhiteSpace (s : t) : t := replaceRuns false s.

Definition covered (u : N) : bool :=
  ((u <? 256) || (u =? 913) || (u =? 931) || (u =? 945) || (u =? 962)
   || (u =? 963))%N.

(** The lower-case mapping of a code unit taken by itself: A-Z and the
    Latin-1 capitals move up by 32, U+0391 goes to U+03B1 and U+03A3 to
    U+03C3. *)
Definition simpleLower (u : N) : N :=
  if ((65 <=? u) && (u <=? 90)
      || (192 <=? u) && (u <=? 222) && negb (u =? 215))%N
  then (u + 32)%N
  else if (u =? 913)%N then 945%N
  else if (u =? 931)%N then 963%N
  else u.

(** The property [Cased] on the covered code units: the letters that are
    upper or lower case, U+00AA, U+00B5 and U+00BA among them. *)
Definition cased (u : N) : bool :=
  ((65 <=? u) && (u <=? 90) || (97 <=? u) && (u <=? 122)
   || (u =? 170) || (u =? 181) || (u =? 186)
   || (192 <=? u) && (u <=? 214) || (216 <=? u) && (u <=? 246)
   || (248 <=? u) && (u <=? 255)
   || (u =? 913) || (u =? 931) || (u =? 945) || (u =? 962) || (u =? 963))%N.

(** The property [Case_Ignorable] on the covered code units: U+0027,
    U+002E, U+003A, U+005E, U+0060, U+00A8, U+00AD, U+00AF, U+00B4, U+00B7
    and U+00B8. *)
Definition caseIgnorable (u : N) : bool :=
  ((u =? 39) || (u =? 46) || (u =? 58) || (u =? 94) || (u =? 96)
   || (u =? 168) || (u =? 173) || (u =? 175) || (u =? 180) || (u =? 183)
   || (u =? 184))%N.

(** Reading on from a position: case-ignorable code units, then a cased
    letter. *)
Fixpoint casedNext (s : t) : bool :=
  match s with
  | [] => false
  | u :: r => if caseIgnorable u then casedNext r else cased u
  end.

(** The condition [Final_Sigma] of the Unicode special casing: a cased
    letter before (case-ignorable code units apart) and none after.
    [before] is what stands before the position, nearest first. *)
Definition finalSigma (before after : t) : bool :=
  casedNext before && negb (casedNext after).

(** [toLowerCase] from a position on. *)
Fixpoint lowerFrom (before s : t) : t :=
  match s with
  | [] => []
  | u :: r =>
      (if (u =? 931)%N
       then (if finalSigma before r then 962%N else 963%N)
       else simpleLower u)
      :: lowerFrom (u :: before) r
  end.

Definition toLowerCase (s : t) : option t :=
  if forallb covered s then Some (lowerFrom [] s) else None.

(** [normalizeText] of the click-through scraper. *)
Definition normalizeText (text : t) : option t :=
  match text with
  | [] => Some []
  | _ => toLowerCase (collapseWhiteSpace (trim text))
  end.


End Utf16.

(* ===================================================================== *)
(** ** DOM elements and the selector registry (selectors.js)              *)
(* ===================================================================== *)

(** What reading [contentDocument] (or [contentWindow.document]) of a frame
    gives: a security exception, nothing, or a document whose body has the
    three properties the extractor reads. *)
Inductive FrameAccess : Type :=
| FrameDenied (message : string)
| FrameNoDocument
| FrameBody (bodyInnerHTML bodyInnerText bodyTextContent : string).

(** An element (or the document).  [querySelectorAll sel] is [None] when the
    selector text makes the call throw, and otherwise the matches in
    document order.  [className] is the class attribute as a string on an
    HTML element; on an SVG element it is an [SVGAnimatedString] object,
    which has no string methods: [None]. *)
Inductive Element : Type := mkElement {
  tagName : string;
  className : option string;
  textContent : string;
  innerText : string;
  innerHTML : string;
  outerHTML : string;
  querySelectorAll : string -> option (list Element);
  contentDocument : FrameAccess
}.

(** [querySelector] is the first match of [querySelectorAll]. *)
Definition querySelector (context : Element) (selector : string)
  : option (option Element) :=
  match querySelectorAll context selector with
  | None => None
  | Some ms => Some (head ms)
  end.

Module Selectors.

Definition chapterContainer : list string :=
  [ ".chapter-card_FVZUV";
    "[class*=" +:+ quoted "chapter-card" +:+ "]";
    ".accordion.course-tree-chapters_m1XqK";
    "[class*=" +:+ quoted "accordion" +:+ "].course-tree-chapters";
    "[class*=" +:+ quoted "accordion__header" +:+ "]";
    "[class*=" +:+ quoted "accordion" +:+ "][role=" +:+ quoted "button" +:+ "]";
    "div[role=" +:+ quoted "button" +:+ "]:has([data-qa="
      +:+ quoted "accordion-title" +:+ "])";
    "[data-qa=" +:+ quoted "chapter-container" +:+ "]";
    "[data-testid=" +:+ quoted "chapter-card" +:+ "]";
    "[class*=" +:+ quoted "chapter" +:+ "]";
    ".course-tree__chapters > div";
    "div[role=" +:+ quoted "region" +:+ "]";
    ".curriculum-section" ].

Definition chapterTitle : list string :=
  [ "[data-qa=" +:+ quoted "accordion-title" +:+ "]";
    "[data-qa=" +:+ quoted "chapter-title" +:+ "]";
    "[class*=" +:+ quoted "accordion-title" +:+ "]";
    "[class*=" +:+ quoted "chapter-title" +:+ "]";
    "span[aria-expanded]";
    ".chapter-header";
    "h2, h3, h4" ].

Definition lessonCard : list string :=
  [ ".content-card_kNCsI";
    "[data-qa=" +:+ quoted "curriculum-lesson-card" +:+ "]";
    "[data-qa=" +:+ quoted "lesson-card" +:+ "]";
    "[data-testid=" +:+ quoted "lesson-card" +:+ "]";
    "[class*=" +:+ quoted "content-card" +:+ "]";
    "[class*=" +:+ quoted "lesson-card" +:+ "]";
    "[class*=" +:+ quoted "curriculum-item" +:+ "]";
    "div[role=" +:+ quoted "button" +:+ "]";
    ".lesson-item" ].

Definition clickableLesson : list string :=
  [ "[data-qa=" +:+ quoted "curriculum-lesson-card" +:+ "]";
    "[data-testid=" +:+ quoted "lesson-card" +:+ "]";
    "button[role=" +:+ quoted "button" +:+ "]";
    "div[role=" +:+ quoted "button" +:+ "]";
    "a[href]";
    "[class*=" +:+ quoted "content-card" +:+ "]";
    "[class*=" +:+ quoted "lesson-card" +:+ "]" ].

Definition lessonTitle : list string :=
  [ ".content-card__name_GVtnt";
    "[class*=" +:+ quoted "content-card__name" +:+ "]";
    "[data-qa=" +:+ quoted "lesson-title" +:+ "]";
    "[class*=" +:+ quoted "lesson__name" +:+ "]";
    "[class*=" +:+ quoted "lesson-title" +:+ "]";
    ".lesson-name";
    "span, p" ].

Definition lessonIcon : list string :=
  [ "[data-qa=" +:+ quoted "lesson-icon" +:+ "]";
    "[class*=" +:+ quoted "icon" +:+ "]";
    "svg";
    "i[class*=" +:+ quoted "fa-" +:+ "]" ].

Definition lessonTextEditor : list string :=
  [ ".fr-element.fr-view";
    "[class*=" +:+ quoted "fr-view" +:+ "]";
    "[class*=" +:+ quoted "fr-element" +:+ "]";
    ".tox-edit-area__iframe";
    "iframe[id*=" +:+ quoted "tiny" +:+ "]";
    "[data-qa=" +:+ quoted "lesson-text-editor" +:+ "]";
    "[data-qa=" +:+ quoted "lesson-text" +:+ "]";
    "[data-qa=" +:+ quoted "text-editor" +:+ "]";
    "[contenteditable=" +:+ quoted "true" +:+ "]";
    "[class*=" +:+ quoted "editor-content" +:+ "]";
    "[class*=" +:+ quoted "lesson-text" +:+ "]";
    ".text-editor";
    ".lesson-editor" ].

End Selectors.

(** [findElement]: try the selectors in order; the first element any of them
    matches is returned.  A selector whose query throws is skipped. *)
Fixpoint findElement (selectorArray : list string) (context : Element)
  : option Element :=
  match selectorArray with
  | [] => None
  | selector :: rest =>
      match querySelector context selector with
      | Some (Some element) => Some element
      | Some None => findElement rest context
      | None => findElement rest context
      end
  end.

(** [findElements]: try the selectors in order; the matches of the first one
    with a non-empty result are returned. *)
Fixpoint findElements (selectorArray : list string) (context : Element)
  : list Element :=
  match selectorArray with
  | [] => []
  | selector :: rest =>
      match querySelectorAll context selector with
      | Some (e :: es) => e :: es
      | Some [] => findElements rest context
      | None => findElements rest context
      end
  end.

(** The message of the [TypeError] that V8 raises for
    [iconElement.className.toLowerCase()] when [className] is not a
    string. *)
Definition classNameTypeError : string :=
  "iconElement.className.toLowerCase is not a function".

(** [detectLessonType]: classify a lesson card from its icon.  [inl] is the
    message of the exception thrown, [inr] the value returned. *)
Definition detectLessonType (lessonElement : Element) : string + string :=
  match findElement Selectors.lessonIcon lessonElement with
  | None => inr "unknown"
  | Some iconElement =>
      let iconHTML := toLowerCase (outerHTML iconElement) in
      match className iconElement with
      | None => inl classNameTypeError
      | Some classes =>
          let iconClasses := toLowerCase classes in
          if includes iconHTML "video" || includes iconHTML "play"
             || includes iconClasses "video" || includes iconClasses "play"
          then inr "video"
          else if includes iconHTML "text" || includes iconHTML "document"
                  || includes iconHTML "file-text"
                  || includes iconClasses "text"
                  || includes iconClasses "document"
          then inr "text"
          else if includes iconHTML "quiz" || includes iconHTML "question"
                  || includes iconHTML "test"
                  || includes iconClasses "quiz"
                  || includes iconClasses "question"
          then inr "quiz"
          else if includes iconHTML "download"
                  || includes iconHTML "arrow-down"
                  || includes iconClasses "download"
          then inr "download"
          else
            let lessonHTML := toLowerCase (outerHTML lessonElement) in
            if includes lessonHTML ("type=" +:+ quoted "video")
               || includes lessonHTML ("data-type=" +:+ quoted "video")
            then inr "video"
            else if includes lessonHTML ("type=" +:+ quoted "text")
                    || includes lessonHTML ("data-type=" +:+ quoted "text")
            then inr "text"
            else inr "unknown"
      end
  end.

(* ===================================================================== *)
(** ** De-duplication of sources and files (lesson-scraper utilities)     *)
(* ===================================================================== *)

(** A video source object. *)
Record Source := mkSource {
  source_url : string;
  source_type : string;
  source_provider : option string;
  source_filename : option string
}.

(** A downloadable-file object. *)
Record File := mkFile {
  file_url : string;
  file_filename : string;
  file_fileType : string;
  file_linkText : string;
  file_isAwsS3 : bool
}.

Section FilterSeen.
Context {A : Type} (url : A -> string).

(** [items.filter(x => { if (seen.has(x.url)) return false;
                         seen.add(x.url); return true; })]
    with the set [seen] threaded through the traversal. *)
Fixpoint filterSeen (seen : gset string) (items : list A) : list A :=
  match items with
  | [] => []
  | x :: rest =>
      if decide (url x ∈ seen) then filterSeen seen rest
      else x :: filterSeen ({[ url x ]} ∪ seen) rest
  end.
End FilterSeen.

Definition removeDuplicateSources (sources : list Source) : list Source :=
  filterSeen source_url ∅ sources.

Definition removeDuplicateFiles (files : list File) : list File :=
  filterSeen file_url ∅ files.

(* ===================================================================== *)
(** ** The click-through scraper (injected function)                      *)
(* ===================================================================== *)

(** [normalizeText]: the comparison key of the locate step. *)
Definition normalizeText (text : string) : string :=
  if truthy text then toLowerCase (collapseWhiteSpace (trim text)) else "".

(** [normalize], local to [waitForLessonLoaded]:
    [(s || '').trim().replace(/\s+/g, ' ')]. *)
Definition normalize (s : string) : string := collapseWhiteSpace (trim s).

(** Selector cascade of [waitForLessonLoaded] for the editor title. *)
Definition editorTitleSelectors : list string :=
  [ "[data-qa=" +:+ quoted "lesson-title" +:+ "]";
    "[data-qa*=" +:+ quoted "lesson-title" +:+ "]";
    ".lesson-title";
    ".content-form-header h1";
    ".content-form h1";
    "h1" ].

Module Lesson.
Record t := mk {
  chapterIndex : nat;
  lessonIndex : nat;
  title : string;
  type : string;
  content : option string;
  textContent : option string;
  plainTextContent : option string;
  error : option string
}.

(** The three content assignments of the success path; [error] is not
    written there. *)
Definition setContent (l : t) (c tc ptc : option string) : t :=
  mk (chapterIndex l) (lessonIndex l) (title l) (type l) c tc ptc (error l).

(** The four assignments of every failure path. *)
Definition setError (l : t) (message : string) : t :=
  mk (chapterIndex l) (lessonIndex l) (title l) (type l)
     None None None (Some message).

(** A lesson the loop has not written to. *)
Definition untouched (l : t) : Prop :=
  content l = None ∧ textContent l = None ∧ plainTextContent l = None
  ∧ error l = None.
End Lesson.

Module Chapter.
Record t := mk {
  chapterTitle : string;
  chapterIndex : nat;
  lessons : list Lesson.t
}.

Definition setLessons (c : t) (ls : list Lesson.t) : t :=
  mk (chapterTitle c) (chapterIndex c) ls.
End Chapter.

Module Doc.
(** The object [finalData]; [extractedAt] is the clock reading that the
    code formats as an ISO-8601 string. *)
Record t := mk {
  cancelled : bool;
  courseTitle : string;
  curriculumUrl : string;
  extractedAt : Z;
  totalChapters : nat;
  totalLessons : nat;
  chapters : list Chapter.t
}.
End Doc.

(** Messages passed to [chrome.runtime.sendMessage]. *)
Inductive Message : Type :=
| TcsInit (totalLessons : nat)
| TcsProgress (completed totalLessons : nat) (lessonTitle : string)
| TcsCancelled (completed totalLessons : nat)
| TcsDone (completed totalLessons : nat).

(** The browser as the scraper observes it. *)
Record World := mkWorld {
  (** [document] at a clock reading *)
  page : Z -> Element;
  (** [document.title] and [window.location.href] *)
  documentTitle : string;
  locationHref : string;
  (** [window.__TCS_CANCELLED] at a clock reading *)
  cancelFlag : Z -> bool;
  (** by how many milliseconds a timer started at a clock reading fires late *)
  overshoot : Z -> nat;
  (** the message of the exception that dispatching the click sequence at a
      clock reading raises, if it raises one *)
  clickThrows : Z -> option string
}.

(** Mutable locals of the run: the clock, the two counters, the messages
    sent and the elements that received the synthetic click sequence. *)
Record RunState := mkRunState {
  clock : Z;
  completed : nat;
  processedLessons : nat;
  outbox : list Message;
  clicks : list Element
}.

Definition setClock (st : RunState) (t : Z) : RunState :=
  mkRunState t (completed st) (processedLessons st) (outbox st) (clicks st).

(** [await sleep(ms)] started at clock reading [t]. *)
Definition sleepFrom (w : World) (ms t : Z) : Z :=
  (t + ms + Z.of_nat (overshoot w t))%Z.

Definition sleep (w : World) (ms : Z) (st : RunState) : RunState :=
  setClock st (sleepFrom w ms (clock st)).

Definition sendMessage (m : Message) (st : RunState) : RunState :=
  mkRunState (clock st) (completed st) (processedLessons st)
             (outbox st ++ [m]) (clicks st).

(** One evaluation of the body of the polling loop: the editor title found
    by the cascade carries exactly the expected text, both normalised. *)
Definition editorShows (doc : Element) (normalizedExpected : string) : bool :=
  match findElement editorTitleSelectors doc with
  | Some titleEl => String.eqb (normalize (textContent titleEl)) normalizedExpected
  | None => false
  end.

(** The polling loop of [waitForLessonLoaded], from clock reading [now] with
    the loop entered at [start].  It returns the answer and the clock
    reading on return.  [fuel] bounds the number of polls; see
    [pollBudget]. *)
Fixpoint waitLoop (w : World) (normalizedExpected : string) (timeoutMs : Z)
    (fuel : nat) (start now : Z) : bool * Z :=
  match fuel with
  | O => (false, now)
  | S fuel' =>
      if (now - start <? timeoutMs)%Z then
        if editorShows (page w now) normalizedExpected
        then (true, sleepFrom w 500 now)
        else waitLoop w normalizedExpected timeoutMs fuel' start
                      (sleepFrom w 500 now)
      else (false, now)
  end.

(** Every poll is followed by a sleep of at least 500 ms, so the loop
    condition fails after at most this many polls. *)
Definition pollBudget (timeoutMs : Z) : nat := S (Z.to_nat (timeoutMs / 500)).

Definition waitForLessonLoaded (w : World) (expectedTitle : string)
    (timeoutMs : Z) (t : Z) : bool * Z :=
  waitLoop w (normalize expectedTitle) timeoutMs (pollBudget timeoutMs) t t.

(** The clock reading of the [i]-th poll of a wait entered at [t]. *)
Fixpoint pollTime (w : World) (t : Z) (i : nat) : Z :=
  match i with
  | O => t
  | S j => sleepFrom w 500 (pollTime w t j)
  end.

(** The object returned by [extractLessonText]. *)
Record TextResult := mkTextResult {
  html : string;
  plainText : string;
  source : string
}.

Definition extractLessonText (doc : Element) : option TextResult :=
  match findElement Selectors.lessonTextEditor doc with
  | Some editorEl =>
      if String.eqb (tagName editorEl) "IFRAME" then
        match contentDocument editorEl with
        | FrameBody h it tc =>
            Some (mkTextResult h (orElse it (orElse tc "")) "iframe_body")
        | FrameNoDocument => None
        | FrameDenied _ => None
        end
      else
        Some (mkTextResult (innerHTML editorEl)
                (orElse (innerText editorEl) (orElse (textContent editorEl) ""))
                "direct_div")
  | None => None
  end.

(** [el?.textContent.trim() || fallback]. *)
Definition titleOr (el : option Element) (fallback : string) : string :=
  match el with
  | Some e => orElse (trim (textContent e)) fallback
  | None => fallback
  end.

(** The inner loop of the plan builder, from [lessonIndex] on: one entry
    per lesson card.  [detectLessonType] is called outside any [try] of the
    loop, so its exception leaves the loop ([inl]). *)
Fixpoint buildLessonsFrom (chapterIndex lessonIndex : nat)
    (lessonCards : list Element) : string + list Lesson.t :=
  match lessonCards with
  | [] => inr []
  | lessonCard :: rest =>
      let lessonTitle :=
        titleOr (findElement Selectors.lessonTitle lessonCard)
                ("Lesson " +:+ natToString (lessonIndex + 1)) in
      match detectLessonType lessonCard with
      | inl message => inl message
      | inr lessonType =>
          match buildLessonsFrom chapterIndex (S lessonIndex) rest with
          | inl message => inl message
          | inr lessons =>
              inr (Lesson.mk chapterIndex lessonIndex lessonTitle lessonType
                             None None None None :: lessons)
          end
      end
  end.

Definition buildLessons (chapterIndex : nat) (lessonCards : list Element)
  : string + list Lesson.t :=
  buildLessonsFrom chapterIndex 0 lessonCards.

(** The outer loop of the plan builder, from [chapterIndex] on. *)
Fixpoint buildChaptersFrom (chapterIndex : nat)
    (chapterElements : list Element) : string + list Chapter.t :=
  match chapterElements with
  | [] => inr []
  | chapterElement :: rest =>
      let chapterTitle :=
        titleOr (findElement Selectors.chapterTitle chapterElement)
                ("Chapter " +:+ natToString (chapterIndex + 1)) in
      match buildLessons chapterIndex
              (findElements Selectors.lessonCard chapterElement) with
      | inl message => inl message
      | inr lessons =>
          match buildChaptersFrom (S chapterIndex) rest with
          | inl message => inl message
          | inr chapters =>
              inr (Chapter.mk chapterTitle chapterIndex lessons :: chapters)
          end
      end
  end.

(** The plan: one entry per lesson card of each chapter container, or the
    message of the exception that ended the building. *)
Definition buildChapters (chapterElements : list Element)
  : string + list Chapter.t :=
  buildChaptersFrom 0 chapterElements.

(** [totalLessons] after the plan is built. *)
Definition countLessons (chapters : list Chapter.t) : nat :=
  sum_list (map (fun c => length (Chapter.lessons c)) chapters).

(** Locate step: the first card whose title element exists and whose
    normalised text equals the target. *)
Fixpoint findCard (lessonCards : list Element) (normalizedTarget : string)
  : option Element :=
  match lessonCards with
  | [] => None
  | card :: rest =>
      match findElement Selectors.lessonTitle card with
      | Some titleElement =>
          if String.eqb (normalizeText (textContent titleElement)) normalizedTarget
          then Some card
          else findCard rest normalizedTarget
      | None => findCard rest normalizedTarget
      end
  end.

(** [findElement(clickableLesson, card)
     || card.querySelector('button, [role="button"]') || card]. *)
Definition clickTarget (card : Element) : Element :=
  match findElement Selectors.clickableLesson card with
  | Some e => e
  | None =>
      match querySelector card ("button, [role=" +:+ quoted "button" +:+ "]") with
      | Some (Some e) => e
      | _ => card
      end
  end.

(** Body of the per-lesson [try] after the cancellation check. *)
Definition processLesson (w : World) (totalLessons : nat)
    (st : RunState) (lesson : Lesson.t) : RunState * Lesson.t :=
  let st := mkRunState (clock st) (completed st) (S (processedLessons st))
                       (outbox st) (clicks st) in
  let lessonCards := findElements Selectors.lessonCard (page w (clock st)) in
  match findCard lessonCards (normalizeText (Lesson.title lesson)) with
  | None =>
      (st, Lesson.setError lesson "Could not find lesson card in DOM")
  | Some targetLessonCard =>
      let clickableElement := clickTarget targetLessonCard in
      let st := sleep w 200 st in
      match clickThrows w (clock st) with
      | Some message =>
          (st, Lesson.setError lesson (orElse message "Unknown error"))
      | None =>
          let st := mkRunState (clock st) (completed st) (processedLessons st)
                               (outbox st) (clicks st ++ [clickableElement]) in
          let st := sleep w 500 st in
          let '(loaded, t) :=
            waitForLessonLoaded w (Lesson.title lesson) 12000 (clock st) in
          let st := setClock st t in
          if negb loaded then
            (st, Lesson.setError lesson
                   "Lesson did not load in editor panel (timeout)")
          else
            let lesson :=
              match extractLessonText (page w (clock st)) with
              | Some textResult =>
                  Lesson.setContent lesson
                    (orNull (html textResult))
                    (orNull (plainText textResult))
                    (orNull (plainText textResult))
              | None =>
                  Lesson.setError lesson "Could not extract text from editor"
              end in
            let st := mkRunState (clock st) (S (completed st))
                                 (processedLessons st) (outbox st) (clicks st) in
            let st := sendMessage
                        (TcsProgress (completed st) totalLessons
                                     (Lesson.title lesson)) st in
            (sleep w 500 st, lesson)
      end
  end.

(** The inner [for (const lesson of chapter.lessons)].  The third component
    is the local [cancelled]. *)
Fixpoint runLessons (w : World) (totalLessons : nat) (st : RunState)
    (lessons : list Lesson.t) : RunState * list Lesson.t * bool :=
  match lessons with
  | [] => (st, [], false)
  | lesson :: rest =>
      if cancelFlag w (clock st) then
        (sendMessage (TcsCancelled (completed st) totalLessons) st,
         lesson :: rest, true)
      else
        let '(st1, lesson') := processLesson w totalLessons st lesson in
        let '(st2, rest', cancelled) := runLessons w totalLessons st1 rest in
        (st2, lesson' :: rest', cancelled)
  end.

(** The outer [for (const chapter of chapters)], which stops once the inner
    loop has set [cancelled]. *)
Fixpoint runChapters (w : World) (totalLessons : nat) (st : RunState)
    (chapters : list Chapter.t) : RunState * list Chapter.t * bool :=
  match chapters with
  | [] => (st, [], false)
  | chapter :: rest =>
      let '(st1, lessons', cancelled) :=
        runLessons w totalLessons st (Chapter.lessons chapter) in
      let chapter' := Chapter.setLessons chapter lessons' in
      if cancelled then (st1, chapter' :: rest, true)
      else
        let '(st2, rest', cancelled') := runChapters w totalLessons st1 rest in
        (st2, chapter' :: rest', cancelled')
  end.

Definition noChaptersMessage : string :=
  "No chapters found. Make sure you are on the curriculum page.".

(** State of the run right after the plan is built and [tcs-init] is sent. *)
Definition initialState (t0 : Z) (totalLessons : nat) : RunState :=
  sendMessage (TcsInit totalLessons) (mkRunState t0 0 0 [] []).

(** [clickThroughAndScrapeCourse], entered at clock reading [t0]: the
    message of the error it throws or the document it returns, together
    with the locals (counters, messages sent, clicks made) at that point.
    The outer [catch] rethrows whatever the plan building threw, with the
    prefix ['Course scraping failed: ']. *)
Definition clickThroughAndScrapeCourse (w : World) (t0 : Z)
  : (string + Doc.t) * RunState :=
  let courseTitle := orElse (documentTitle w) "Unknown Course" in
  let curriculumUrl := locationHref w in
  let chapterElements := findElements Selectors.chapterContainer (page w t0) in
  if (length chapterElements =? 0)%nat then
    (inl ("Course scraping failed: " +:+ noChaptersMessage),
     mkRunState t0 0 0 [] [])
  else
    match buildChapters chapterElements with
    | inl message =>
        (inl ("Course scraping failed: " +:+ message),
         mkRunState t0 0 0 [] [])
    | inr chapters =>
        let totalLessons := countLessons chapters in
        let '(st, chapters', cancelled) :=
          runChapters w totalLessons (initialState t0 totalLessons) chapters in
        let st := if cancelled then st
                  else sendMessage (TcsDone (completed st) totalLessons) st in
        (inr (Doc.mk cancelled courseTitle curriculumUrl (clock st)
                     (length chapters') totalLessons chapters'),
         st)
    end.

(* ===================================================================== *)
(** ** Vocabulary of the statements                                       *)
(* ===================================================================== *)

(** A selector that gives [findElement] nothing: the query throws, or it
    matches no element. *)
Definition misses (context : Element) (selector : string) : Prop :=
  querySelector context selector = None
  ∨ querySelector context selector = Some None.

(** A selector that gives [findElements] nothing: the query throws, or the
    list of matches is empty. *)
Definition yieldsNothing (context : Element) (selector : string) : Prop :=
  querySelectorAll context selector = None
  ∨ querySelectorAll context selector = Some [].

(** The icon, whose class list is the string [classes], matches one of the
    four keyword families of [detectLessonType]. *)
Definition iconKeyword (iconElement : Element) (classes : string) : bool :=
  let iconHTML := toLowerCase (outerHTML iconElement) in
  let iconClasses := toLowerCase classes in
  includes iconHTML "video" || includes iconHTML "play"
  || includes iconClasses "video" || includes iconClasses "play"
  || includes iconHTML "text" || includes iconHTML "document"
  || includes iconHTML "file-text"
  || includes iconClasses "text" || includes iconClasses "document"
  || includes iconHTML "quiz" || includes iconHTML "question"
  || includes iconHTML "test"
  || includes iconClasses "quiz" || includes iconClasses "question"
  || includes iconHTML "download" || includes iconHTML "arrow-down"
  || includes iconClasses "download".

(** The scan of the lesson node's own markup for an explicit type
    attribute. *)
Definition typeAttributeScan (lessonElement : Element) : string :=
  let lessonHTML := toLowerCase (outerHTML lessonElement) in
  if includes lessonHTML ("type=" +:+ quoted "video")
     || includes lessonHTML ("data-type=" +:+ quoted "video")
  then "video"
  else if includes lessonHTML ("type=" +:+ quoted "text")
          || includes lessonHTML ("data-type=" +:+ quoted "text")
  then "text"
  else "unknown".



(** All lessons of a plan, in plan order. *)
Definition allLessons (chapters : list Chapter.t) : list Lesson.t :=
  concat (map Chapter.lessons chapters).

Definition timeoutMessage : string :=
  "Lesson did not load in editor panel (timeout)".

Definition isProgress (m : Message) : bool :=
  match m with TcsProgress _ _ _ => true | _ => false end.

(** [out] keeps, for every url of [items], the first record of [items]
    with that url and nothing else, in the order of [items]. *)
Definition firstOccurrences {A : Type} (url : A → string)
    (items out : list A) : Prop :=
  sublist out items
  ∧ NoDup (url <$> out)
  ∧ (∀ u, u ∈ url <$> items ↔ u ∈ url <$> out)
  ∧ (∀ u, filter (λ y, url y = u) out
          = option_list (head (filter (λ y, url y = u) items))).





(* ===================================================================== *)
(** ** Page fixtures                                                      *)
(* ===================================================================== *)

Module Fixture.

(** An element without descendants. *)
Definition leaf (tag cls text markup : string) : Element :=
  mkElement tag (Some cls) text text text markup (fun _ => Some [])
            FrameNoDocument.

(** A lesson card with a title and no icon. *)
Definition card (title : string) : Element :=
  mkElement "DIV" (Some "content-card_kNCsI") title title title
    ("<div class=" +:+ quoted "content-card_kNCsI" +:+ ">" +:+ title +:+ "</div>")
    (fun sel =>
       if String.eqb sel ".content-card__name_GVtnt"
       then Some [leaf "SPAN" "content-card__name_GVtnt" title title]
       else Some [])
    FrameNoDocument.

(** A chapter container with a title and its lesson cards. *)
Definition chapter (c : string * list string) : Element :=
  mkElement "DIV" (Some "chapter-card_FVZUV") (fst c) (fst c) (fst c) "<div>"
    (fun sel =>
       if String.eqb sel ("[data-qa=" +:+ quoted "accordion-title" +:+ "]")
       then Some [leaf "SPAN" "" (fst c) (fst c)]
       else if String.eqb sel ".content-card_kNCsI"
       then Some (map card (snd c))
       else Some [])
    FrameNoDocument.

(** The curriculum page for a course outline, with the editor panel
    showing the lesson [shown] (its title and its markup), if any. *)
Definition document (course : list (string * list string))
    (shown : option (string * string)) : Element :=
  mkElement "HTML" (Some "") "" "" "" "<html>"
    (fun sel =>
       if String.eqb sel ".chapter-card_FVZUV"
       then Some (map chapter course)
       else if String.eqb sel ".content-card_kNCsI"
       then Some (map card (concat (map snd course)))
       else if String.eqb sel "h1"
       then Some (match shown with
                  | Some (t, _) => [leaf "H1" "" t t]
                  | None => []
                  end)
       else if String.eqb sel ".fr-element.fr-view"
       then Some (match shown with
                  | Some (_, body) => [leaf "DIV" "fr-element fr-view" body body]
                  | None => []
                  end)
       else Some [])
    FrameNoDocument.

Definition course5 : list (string * list string) :=
  [ ("Chapter One", ["Lesson A"; "Lesson B"; "Lesson C"]);
    ("Chapter Two", ["Lesson D"; "Lesson E"]) ].

(** With exact timers a lesson that loads at once takes 1700 ms
    (200 + 500 + 500 + 500), so the editor follows the clicks when it shows
    the lesson numbered by the clock divided by 1700. *)
Definition shownAt (titles : list string) (t : Z) : option (string * string) :=
  match titles !! Z.to_nat (t / 1700) with
  | Some title => Some (title, "<p>" +:+ title +:+ "</p>")
  | None => None
  end.

(** Five lessons that all load; cancel is clicked 3000 ms into the run,
    while the second lesson is being processed. *)
Definition cancelWorld : World :=
  mkWorld (fun t => document course5 (shownAt (concat (map snd course5)) t))
          "My Course" "https://school.example/manage/courses/1"
          (fun t => (3000 <=? t)%Z) (fun _ => O) (fun _ => None).

Definition course2 : list (string * list string) :=
  [ ("Chapter One", ["Lesson A"; "Lesson B"]) ].

(** The editor panel is stuck on the second lesson whatever is clicked. *)
Definition stuckWorld : World :=
  mkWorld (fun _ => document course2 (Some ("Lesson B", "<p>b</p>")))
          "My Course" "https://school.example/manage/courses/1"
          (fun _ => false) (fun _ => O) (fun _ => None).

(** The outline is re-rendered without the second card one second into the
    run; the editor follows the clicks. *)
Definition vanishWorld : World :=
  mkWorld (fun t => document
                      (if (t <? 1000)%Z then course2
                       else [("Chapter One", ["Lesson A"])])
                      (shownAt ["Lesson A"; "Lesson B"] t))
          "My Course" "https://school.example/manage/courses/1"
          (fun _ => false) (fun _ => O) (fun _ => None).

(** The editor shows the clicked lesson's title in capitals. *)
Definition capitalsWorld : World :=
  mkWorld (fun _ => document [("Chapter One", ["Intro"])]
                             (Some ("INTRO", "<p>hello</p>")))
          "My Course" "https://school.example/manage/courses/1"
          (fun _ => false) (fun _ => O) (fun _ => None).

(** A page without any chapter container. *)
Definition emptyWorld : World :=
  mkWorld (fun _ => document [] None)
          "Login" "https://school.example/login"
          (fun _ => false) (fun _ => O) (fun _ => None).

(** A lesson card without an icon whose own markup carries an explicit
    type attribute. *)
Definition typedCardNoIcon : Element :=
  leaf "DIV" "lesson-item" "Welcome"
       ("<div class=" +:+ quoted "lesson-item" +:+ " data-type="
          +:+ quoted "video" +:+ ">Welcome</div>").

(** A neutral HTML icon, [<i class="fa-circle"></i>]. *)
Definition plainIcon : Element :=
  leaf "I" "fa-circle" "" ("<i class=" +:+ quoted "fa-circle" +:+ "></i>").

(** An SVG icon, [<svg></svg>]: its [className] is not a string. *)
Definition svgIcon : Element :=
  mkElement "svg" None "" "" "" "<svg></svg>" (fun _ => Some [])
            FrameNoDocument.

(** A lesson card with a neutral HTML icon and an explicit type
    attribute. *)
Definition typedCardPlainIcon : Element :=
  mkElement "DIV" (Some "lesson-item") "Welcome" "Welcome" "Welcome"
       ("<div class=" +:+ quoted "lesson-item" +:+ " data-type="
          +:+ quoted "video" +:+ "><i class=" +:+ quoted "fa-circle"
          +:+ "></i>Welcome</div>")
       (fun sel => if String.eqb sel ("i[class*=" +:+ quoted "fa-" +:+ "]")
                   then Some [plainIcon]
                   else Some [])
       FrameNoDocument.

(** The same card with an SVG icon. *)
Definition typedCardSvgIcon : Element :=
  mkElement "DIV" (Some "lesson-item") "Welcome" "Welcome" "Welcome"
       ("<div class=" +:+ quoted "lesson-item" +:+ " data-type="
          +:+ quoted "video" +:+ "><svg></svg>Welcome</div>")
       (fun sel => if String.eqb sel "svg"
                   then Some [svgIcon]
                   else Some [])
       FrameNoDocument.

(** A panel on which the first selector of [panelSelectors] throws, the
    second matches nothing, the third matches two headings and the fourth
    a third one. *)
Definition headingA : Element := leaf "H1" "" "First" "<h1>First</h1>".
Definition headingB : Element := leaf "H1" "" "Second" "<h1>Second</h1>".
Definition headingC : Element := leaf "H2" "" "Third" "<h2>Third</h2>".

Definition panel : Element :=
  mkElement "DIV" (Some "panel") "" "" "" "<div>"
    (fun sel =>
       if String.eqb sel "div:has(> h1" then None
       else if String.eqb sel "h1" then Some [headingA; headingB]
       else if String.eqb sel "h2" then Some [headingC]
       else Some [])
    FrameNoDocument.

Definition panelSelectors : list string :=
  [ "div:has(> h1"; ".lesson-title"; "h1"; "h2" ].

(** A curriculum page with one chapter whose only lesson card has an SVG
    icon. *)
Definition svgChapter : Element :=
  mkElement "DIV" (Some "chapter-card_FVZUV") "Chapter One" "Chapter One"
            "Chapter One" "<div>"
    (fun sel => if String.eqb sel ".content-card_kNCsI"
                then Some [typedCardSvgIcon]
                else Some [])
    FrameNoDocument.

Definition svgWorld : World :=
  mkWorld (fun _ => mkElement "HTML" (Some "") "" "" "" "<html>"
                      (fun sel => if String.eqb sel ".chapter-card_FVZUV"
                                  then Some [svgChapter]
                                  else Some [])
                      FrameNoDocument)
          "My Course" "https://school.example/manage/courses/1"
          (fun _ => false) (fun _ => O) (fun _ => None).

End Fixture.

(* ===================================================================== *)
(** ** Shared utilities (utils.js)                                        *)
(* ===================================================================== *)

Definition LF : ascii := ascii_of_nat 10.

Definition isDigit (c : ascii) : bool :=
  let n := nat_of_ascii c in (48 <=? n)%nat && (n <=? 57)%nat.

(** The class [[a-z0-9]] under the [i] flag: ASCII letters and digits. *)
Definition isAlnum (c : ascii) : bool :=
  let n := nat_of_ascii c in
  ((48 <=? n)%nat && (n <=? 57)%nat)
  || ((65 <=? n)%nat && (n <=? 90)%nat)
  || ((97 <=? n)%nat && (n <=? 122)%nat).

(** An ASCII capital letter turned into its small letter; every other
    code unit as it is. *)
Definition asciiLowerChar (c : ascii) : ascii :=
  let n := nat_of_ascii c in
  if (65 <=? n)%nat && (n <=? 90)%nat then ascii_of_nat (n + 32) else c.

(** Digits and the lower-case ASCII letters. *)
Definition isLowerAlnum (c : ascii) : bool :=
  let n := nat_of_ascii c in
  ((48 <=? n)%nat && (n <=? 57)%nat) || ((97 <=? n)%nat && (n <=? 122)%nat).

(** Every code unit of the string satisfies [P]. *)
Fixpoint allChars (P : ascii → bool) (s : string) : bool :=
  match s with
  | EmptyString => true
  | String c r => P c && allChars P r
  end.

Fixpoint mapChars (f : ascii → ascii) (s : string) : string :=
  match s with
  | EmptyString => EmptyString
  | String c r => String (f c) (mapChars f r)
  end.

(** The longest prefix whose code units satisfy [P]: what a greedy
    character-class repetition consumes. *)
Fixpoint takeRun (P : ascii → bool) (s : string) : string :=
  match s with
  | EmptyString => EmptyString
  | String c r => if P c then String c (takeRun P r) else EmptyString
  end.

Fixpoint dropRun (P : ascii → bool) (s : string) : string :=
  match s with
  | EmptyString => EmptyString
  | String c r => if P c then dropRun P r else s
  end.

(** What is left of [s] after the literal [p], when [s] starts with it. *)
Fixpoint stripPrefix (p s : string) : option string :=
  match p with
  | EmptyString => Some s
  | String a p' =>
      match s with
      | EmptyString => None
      | String b s' => if Ascii.eqb a b then stripPrefix p' s' else None
      end
  end.

(** Leftmost match: [matchAt] is tried at every position from the left,
    the end of the string included. *)
Fixpoint searchFrom {A : Type} (matchAt : string → option A) (s : string)
  : option A :=
  match matchAt s with
  | Some x => Some x
  | None =>
      match s with
      | EmptyString => None
      | String _ r => searchFrom matchAt r
      end
  end.

(** How many code units of [r] the greedy [\s*\n] consumes at the start of
    [r]: up to the last LINE FEED of the leading white-space run. *)
Fixpoint emptyLineLength (r : string) : option nat :=
  match r with
  | EmptyString => None
  | String c r' =>
      if isWhiteSpace c then
        match emptyLineLength r' with
        | Some n => Some (S n)
        | None => if Ascii.eqb c LF then Some 1%nat else None
        end
      else None
  end.

(** [s.replace(/\n\s*\n/g, '\n')]; [skip] code units are still inside the
    match being replaced. *)
Fixpoint removeEmptyLines (skip : nat) (s : string) : string :=
  match s with
  | EmptyString => EmptyString
  | String c r =>
      match skip with
      | S k => removeEmptyLines k r
      | O =>
          if Ascii.eqb c LF then
            match emptyLineLength r with
            | Some n => String LF (removeEmptyLines n r)
            | None => String c (removeEmptyLines 0 r)
            end
          else String c (removeEmptyLines 0 r)
      end
  end.

(** [sanitizeText]. *)
Definition sanitizeText (text : string) : string :=
  if truthy text
  then trim (removeEmptyLines 0 (collapseWhiteSpace text))
  else "".

(** One attempt of [/\.([a-z0-9]+)(\?|#|$)/i] right after a dot: the
    greedy run must be non-empty and be followed by [?], [#] or the end. *)
Definition extensionAfterDot (r : string) : option string :=
  match takeRun isAlnum r with
  | EmptyString => None
  | run =>
      match dropRun isAlnum r with
      | EmptyString => Some run
      | String c _ =>
          if Ascii.eqb c "?" || Ascii.eqb c "#" then Some run else None
      end
  end.

(** [url.match(/\.([a-z0-9]+)(\?|#|$)/i)], giving the first group. *)
Fixpoint matchExtension (url : string) : option string :=
  match url with
  | EmptyString => None
  | String c r =>
      if Ascii.eqb c "." then
        match extensionAfterDot r with
        | Some run => Some run
        | None => matchExtension r
        end
      else matchExtension r
  end.

(** [extractFileExtension]. *)
Definition extractFileExtension (url : string) : string :=
  match matchExtension url with
  | Some run => toLowerCase run
  | None => "unknown"
  end.

Definition videoExtensions : list string :=
  [ "mp4"; "webm"; "ogg"; "mov"; "avi"; "m4v"; "flv"; "wmv" ].

(** [isVideoFile]. *)
Definition isVideoFile (url : string) : bool :=
  existsb (String.eqb (extractFileExtension url)) videoExtensions.

(** [isAwsS3Url]. *)
Definition isAwsS3Url (url : string) : bool :=
  includes url "amazonaws.com" || includes url "s3.amazonaws.com".

(** [detectVideoProvider] (lesson scraper). *)
Definition detectVideoProvider (url : string) : string :=
  if truthy url then
    let lowerUrl := toLowerCase url in
    if includes lowerUrl "vimeo.com" then "vimeo"
    else if includes lowerUrl "youtube.com" || includes lowerUrl "youtu.be"
    then "youtube"
    else if includes lowerUrl "wistia" then "wistia"
    else if includes lowerUrl "amazonaws.com" then "aws-s3"
    else "unknown"
  else "unknown".

(** One alternative of a pattern [literal(class+)]: the literal, then a
    non-empty greedy run of the class, which is the captured group. *)
Definition literalThenRun (literal : string) (class : ascii → bool)
    (s : string) : option string :=
  match stripPrefix literal s with
  | Some r => orNull (takeRun class r)
  | None => None
  end.

(** [/vimeo\.com\/(?:video\/)?(\d+)/] at one position: the optional group
    is tried first and given up when no digit follows it. *)
Definition vimeoAt (s : string) : option string :=
  match stripPrefix "vimeo.com/" s with
  | Some r =>
      match literalThenRun "video/" isDigit r with
      | Some digits => Some digits
      | None => orNull (takeRun isDigit r)
      end
  | None => None
  end.

Definition youtubeIdChar (c : ascii) : bool :=
  negb (Ascii.eqb c "&" || Ascii.eqb c "?" || Ascii.eqb c "/").

(** [/(?:v=|\/embed\/|youtu\.be\/)([^&?\/]+)/] at one position. *)
Definition youtubeAt (s : string) : option string :=
  match literalThenRun "v=" youtubeIdChar s with
  | Some id => Some id
  | None =>
      match literalThenRun "/embed/" youtubeIdChar s with
      | Some id => Some id
      | None => literalThenRun "youtu.be/" youtubeIdChar s
      end
  end.

Definition wistiaIdChar (c : ascii) : bool :=
  negb (Ascii.eqb c "?" || Ascii.eqb c "/").

(** [/wistia\.com\/medias\/([^?\/]+)/] at one position. *)
Definition wistiaAt (s : string) : option string :=
  literalThenRun "wistia.com/medias/" wistiaIdChar s.

(** [extractVideoId] (lesson scraper). *)
Definition extractVideoId (url provider : string) : option string :=
  if truthy url then
    if String.eqb provider "vimeo" then searchFrom vimeoAt url
    else if String.eqb provider "youtube" then searchFrom youtubeAt url
    else if String.eqb provider "wistia" then searchFrom wistiaAt url
    else None
  else None.

(** The clock reading of the [i]-th poll of a loop that sleeps [ms]
    between polls, entered at [t]. *)
Fixpoint pollTimeEvery (w : World) (ms : Z) (t : Z) (i : nat) : Z :=
  match i with
  | O => t
  | S j => sleepFrom w ms (pollTimeEvery w ms t j)
  end.

(** [selectors.join(', ')]. *)
Fixpoint joinSelectors (selectors : list string) : string :=
  match selectors with
  | [] => ""
  | [sel] => sel
  | sel :: rest => sel +:+ ", " +:+ joinSelectors rest
  end.

(** The polling loop of [waitForElement]: [context] is the searched node as
    it is at each clock reading.  The inner loop over the selectors is
    [findElement].  On return: the error message or the element, and the
    clock reading. *)
Fixpoint waitForElementLoop (w : World) (selectors : list string)
    (timeout : nat) (context : Z → Element) (fuel : nat) (startTime now : Z)
  : (string + Element) * Z :=
  match fuel with
  | O => (inl ("Element not found after " +:+ natToString timeout +:+ "ms: "
               +:+ joinSelectors selectors), now)
  | S fuel' =>
      if (now - startTime <? Z.of_nat timeout)%Z then
        match findElement selectors (context now) with
        | Some element => (inr element, now)
        | None =>
            waitForElementLoop w selectors timeout context fuel' startTime
                               (sleepFrom w 100 now)
        end
      else
        (inl ("Element not found after " +:+ natToString timeout +:+ "ms: "
              +:+ joinSelectors selectors), now)
  end.

(** [waitForElement(selectors, timeout, context)], entered at [t]; polls are
    at least 100 ms apart, so [S (timeout / 100)] of them are enough. *)
Definition waitForElement (w : World) (selectors : list string)
    (timeout : nat) (context : Z → Element) (t : Z)
  : (string + Element) * Z :=
  waitForElementLoop w selectors timeout context (S (timeout / 100)) t t.

(** The first loop of [waitForNavigation]; [loading now] tells whether
    [document.readyState] is ['loading'] at that clock reading. *)
Fixpoint waitWhileLoading (w : World) (loading : Z → bool) (timeout : nat)
    (fuel : nat) (startTime now : Z) : (string + unit) * Z :=
  match fuel with
  | O => (inl "Navigation timeout: document still loading", now)
  | S fuel' =>
      if loading now then
        if (Z.of_nat timeout <? now - startTime)%Z
        then (inl "Navigation timeout: document still loading", now)
        else waitWhileLoading w loading timeout fuel' startTime
                              (sleepFrom w 100 now)
      else (inr tt, now)
  end.

(** [waitForNavigation(timeout)], entered at [t]. *)
Definition waitForNavigation (w : World) (loading : Z → bool) (timeout : nat)
    (t : Z) : (string + unit) * Z :=
  match waitWhileLoading w loading timeout (S (S (timeout / 100))) t t with
  | (inr tt, now) => (inr tt, sleepFrom w 1000 now)
  | (inl message, now) => (inl message, now)
  end.

(** How [retryOperation] ends when it throws: with its own error, or, when
    no attempt was made, with the type error of reading [lastError.message]
    of [undefined]. *)
Inductive RetryError : Type :=
| RetryExhausted (message : string)
| RetryNoAttempt.

(** The delay that [setTimeout] takes for [ms] milliseconds: [ms] converted
    to a signed 32-bit integer, a negative result counting as 0.  A delay
    of up to 2147483647 ms is taken as it is; a longer one wraps around.
    Beyond 2^53 the product that gives the delay is rounded by the
    floating-point arithmetic: of what the timer waits then, nothing is
    counted here, and the overshoot of the world stands for it. *)
Definition timerDelay (ms : nat) : Z :=
  let r := (Z.of_nat ms mod 4294967296)%Z in
  if (9007199254740992 <? Z.of_nat ms)%Z then 0%Z
  else if (r <? 2147483648)%Z then r else 0%Z.

(** The [for] loop of [retryOperation].  [operation i t] is what the [i]-th
    invocation of the operation, started at clock reading [t], settles with
    (the message of its error, or its value) and how long it takes.  The
    options are natural numbers, the delay being computed exactly up to
    2^53, and [onRetry] is a callback that returns.  The result:
    how the call ends, the clock reading, and the arguments of the calls of
    [onRetry]. *)
Fixpoint retryLoop {A : Type} (w : World)
    (operation : nat → Z → (string + A) * nat)
    (maxRetries backoffMs backoffMultiplier : nat)
    (remaining attempt : nat) (lastError : option string) (t : Z)
    (onRetry : list (nat * string))
  : (RetryError + A) * Z * list (nat * string) :=
  match remaining with
  | O =>
      (inl (match lastError with
            | Some message =>
                RetryExhausted ("Operation failed after "
                                +:+ natToString maxRetries
                                +:+ " attempts: " +:+ message)
            | None => RetryNoAttempt
            end), t, onRetry)
  | S remaining' =>
      match operation attempt t with
      | (inr value, duration) => (inr value, (t + Z.of_nat duration)%Z, onRetry)
      | (inl message, duration) =>
          let t := (t + Z.of_nat duration)%Z in
          if (attempt <? maxRetries - 1)%nat then
            let delay := (backoffMs * backoffMultiplier ^ attempt)%nat in
            retryLoop w operation maxRetries backoffMs backoffMultiplier
                      remaining' (S attempt) (Some message)
                      (sleepFrom w (timerDelay delay) t)
                      (onRetry ++ [(attempt, message)])
          else
            retryLoop w operation maxRetries backoffMs backoffMultiplier
                      remaining' (S attempt) (Some message) t onRetry
      end
  end.

(** [retryOperation(operation, {maxRetries, backoffMs, backoffMultiplier,
    onRetry})], entered at [t]. *)
Definition retryOperation {A : Type} (w : World)
    (operation : nat → Z → (string + A) * nat)
    (maxRetries backoffMs backoffMultiplier : nat) (t : Z)
  : (RetryError + A) * Z * list (nat * string) :=
  retryLoop w operation maxRetries backoffMs backoffMultiplier
            maxRetries 0 None t [].

(** The sum of the first [k] back-off delays, as the timer takes them. *)
Fixpoint backoffTotal (backoffMs backoffMultiplier k : nat) : Z :=
  match k with
  | O => 0%Z
  | S j => (backoffTotal backoffMs backoffMultiplier j
            + timerDelay (backoffMs * backoffMultiplier ^ j))%Z
  end.

(** The sum of the first [k] back-off delays, as the code computes them. *)
Fixpoint backoffSum (backoffMs backoffMultiplier k : nat) : nat :=
  match k with
  | O => O
  | S j => (backoffSum backoffMs backoffMultiplier j
            + backoffMs * backoffMultiplier ^ j)%nat
  end.

(* ===================================================================== *)
(** ** Download links (lesson scraper)                                    *)
(* ===================================================================== *)

(** What reading [href] of an element gives: a string on an HTML element
    that has the property, [undefined] on one that has not, and an
    [SVGAnimatedString] object, which has no string methods, on an SVG [a]
    element. *)
Inductive Href : Type :=
| HrefString (url : string)
| HrefUndefined
| HrefAnimated.

(** An element returned by [findElements(SELECTORS.downloadLinks)], as
    [extractDownloadContent] reads it: [href], [download] (the empty
    string also where the property is missing) and [textContent]. *)
Record Link := mkLink {
  link_href : Href;
  link_download : string;
  link_textContent : string
}.

(** [url && url.startsWith('http')] for a string [url]. *)
Definition isHttpUrl (url : string) : bool :=
  truthy url && String.prefix "http" url.

(** The message of the [TypeError] that V8 raises for [url.startsWith]
    when [url] is not a string. *)
Definition startsWithTypeError : string :=
  "url.startsWith is not a function".

(** The object that [extractDownloadContent] returns, without its constant
    [type]; [error] is set by the [catch]. *)
Record DownloadData := mkDownloadData {
  download_files : list File;
  download_error : option string
}.

Section DownloadContent.
(** [extractFilename] (utils.js) goes through the browser's [URL] parser
    and [decodeURIComponent], and catches what they throw; it is left open
    here. *)
Variable extractFilename : string → string.

(** The object pushed for one link whose [href] is the string [url]. *)
Definition fileOfLink (url : string) (link : Link) : File :=
  mkFile url
         (orElse (link_download link) (extractFilename url))
         (extractFileExtension url)
         (orElse (trim (link_textContent link)) "")
         (isAwsS3Url url).

(** The [forEach] over the links: the files pushed, and the message of the
    exception that ended it, if any. *)
Fixpoint collectFiles (downloadLinks : list Link)
  : list File * option string :=
  match downloadLinks with
  | [] => ([], None)
  | link :: rest =>
      match link_href link with
      | HrefUndefined => collectFiles rest
      | HrefAnimated => ([], Some startsWithTypeError)
      | HrefString url =>
          if isHttpUrl url then
            let '(files, thrown) := collectFiles rest in
            (fileOfLink url link :: files, thrown)
          else collectFiles rest
      end
  end.

(** [extractDownloadContent], from the links found.  When the loop throws,
    the [catch] returns the files pushed so far, as they are. *)
Definition extractDownloadContent (downloadLinks : list Link)
  : DownloadData :=
  match collectFiles downloadLinks with
  | (files, None) => mkDownloadData (removeDuplicateFiles files) None
  | (files, Some message) => mkDownloadData files (Some message)
  end.
End DownloadContent.

(* ===================================================================== *)
(** ** Page helpers (selectors.js, content-scraper.js)                    *)
(* ===================================================================== *)

Module PageSelectors.

Definition curriculumPage : list string :=
  [ "[data-qa=" +:+ quoted "curriculum" +:+ "]";
    "[class*=" +:+ quoted "curriculum" +:+ "]";
    "[class*=" +:+ quoted "course-content" +:+ "]";
    ".course-player" ].

Definition courseTitle : list string :=
  [ "[data-qa=" +:+ quoted "course-title" +:+ "]";
    "h1";
    ".course-title";
    "[class*=" +:+ quoted "course-name" +:+ "]" ].

End PageSelectors.

(** [extractText(container, selectorArray)]. *)
Definition extractText (container : Element) (selectorArray : list string)
  : string :=
  match findElement selectorArray container with
  | Some textElement => orElse (trim (textContent textElement)) ""
  | None => orElse (trim (textContent container)) ""
  end.

(** [isOnCurriculumPage()]. *)
Definition isOnCurriculumPage (w : World) (t : Z) : bool :=
  let hasCurriculumElement :=
    match findElement PageSelectors.curriculumPage (page w t) with
    | Some _ => true
    | None => false
    end in
  let hasChapters :=
    (0 <? length (findElements Selectors.chapterContainer (page w t)))%nat in
  let urlIndicatesCurriculum :=
    includes (locationHref w) "curriculum"
    || includes (locationHref w) "courses" in
  hasCurriculumElement || hasChapters || urlIndicatesCurriculum.


(* ===================================================================== *)
(** ** The course map (content-scraper.js)                                *)
(* ===================================================================== *)

Module MapLesson.
(** A lesson of the course map.  The object pushed when the lesson's
    [try] block throws has neither [chapterIndex] nor [lessonIndex]. *)
Record t := mk {
  title : string;
  type : string;
  url : option string;
  chapterIndex : option nat;
  lessonIndex : option nat;
  error : option string
}.
End MapLesson.

Module MapChapter.
Record t := mk {
  chapterTitle : string;
  lessons : list MapLesson.t;
  chapterIndex : nat
}.
End MapChapter.

Module CourseMap.
Record t := mk {
  courseTitle : string;
  curriculumUrl : string;
  totalChapters : nat;
  totalLessons : nat;
  chapters : list MapChapter.t;
  extractedAt : Z
}.
End CourseMap.



Section CourseMapBuilder.
(** What [buildCourseMap] takes from the browser besides the page:
    [window.location.hostname]; whether [document.body] exists; the URL
    that [getLessonUrl], and after it [captureLessonUrlByClick], give for
    a lesson card ([None] for null; neither of them throws, the second
    catches what its navigation throws); and the clock reading when the
    map is complete.  Nodes are read as they are when the chapter
    containers are found. *)
Variables (hostname : string) (hasBody : bool).
Variable lessonUrl : Element → option string.
Variable finishedAt : Z.





End CourseMapBuilder.

(* ===================================================================== *)
(** ** The popup (popup.js)                                               *)
(* ===================================================================== *)

(** [(courseData.courseTitle || 'course').replace(/[^a-z0-9]/gi, '_')
      .toLowerCase()]. *)
Definition safeTitle (courseTitle : string) : string :=
  toLowerCase
    (mapChars (fun c => if isAlnum c then c else "_"%char)
              (orElse courseTitle "course")).

(** Characters of a safe title: digits, lower-case ASCII letters and the
    underscore. *)
Definition isSafeChar (c : ascii) : bool :=
  isLowerAlnum c || Ascii.eqb c "_".

(** [a || b] on numbers: zero is falsy. *)
Definition numOr (a b : nat) : nat := if (a =? 0)%nat then b else a.

(** Module-level state of the popup and what its message listener writes:
    the two buttons' [disabled] flags (both buttons present), the status
    line, and the text that [updateProgress] puts in [progressText].  The
    percentage, which [updateProgress] rounds in floating point, is not
    part of this state. *)
Record Popup := mkPopup {
  isScraping : bool;
  wasCancelled : bool;
  totalLessonsGlobal : nat;
  startDisabled : bool;
  cancelDisabled : bool;
  status : string;
  progressCompleted : nat;
  progressTotal : nat
}.

(** [safeCompleted] and [safeTotal] of [updateProgress(completed, total)]. *)
Definition updateProgress (completed total : nat) (p : Popup) : Popup :=
  let safeTotal := numOr total 0 in
  let safeCompleted := Nat.min (numOr completed 0) safeTotal in
  mkPopup (isScraping p) (wasCancelled p) (totalLessonsGlobal p)
          (startDisabled p) (cancelDisabled p) (status p)
          safeCompleted safeTotal.

Definition setStatus (msg : string) (p : Popup) : Popup :=
  mkPopup (isScraping p) (wasCancelled p) (totalLessonsGlobal p)
          (startDisabled p) (cancelDisabled p) msg
          (progressCompleted p) (progressTotal p).

(** The listener registered with [chrome.runtime.onMessage]. *)
Definition onMessage (message : Message) (p : Popup) : Popup :=
  match message with
  | TcsInit totalLessons =>
      let total := numOr totalLessons 0 in
      let p := mkPopup (isScraping p) false total
                       (startDisabled p) (cancelDisabled p) (status p)
                       (progressCompleted p) (progressTotal p) in
      setStatus "Scanning lessons..." (updateProgress 0 total p)
  | TcsProgress completed totalLessons lessonTitle =>
      let total := numOr totalLessons (totalLessonsGlobal p) in
      let p := mkPopup (isScraping p) (wasCancelled p) total
                       (startDisabled p) (cancelDisabled p) (status p)
                       (progressCompleted p) (progressTotal p) in
      let p := updateProgress (numOr completed 0) total p in
      if truthy lessonTitle
      then setStatus ("Scraping: " +:+ lessonTitle) p
      else p
  | TcsDone completed totalLessons =>
      let p := mkPopup false false (totalLessonsGlobal p) false true
                       (status p) (progressCompleted p) (progressTotal p) in
      setStatus "Scraping complete. Downloading JSON..."
        (updateProgress (numOr completed (totalLessonsGlobal p))
                        (numOr totalLessons (totalLessonsGlobal p)) p)
  | TcsCancelled completed totalLessons =>
      let p := mkPopup false true (totalLessonsGlobal p) false true
                       (status p) (progressCompleted p) (progressTotal p) in
      setStatus "Scraping cancelled. No file downloaded."
        (updateProgress (numOr completed 0)
                        (numOr totalLessons (totalLessonsGlobal p)) p)
  end.

(** The listener run on a sequence of messages, in order. *)
Definition deliver (messages : list Message) (p : Popup) : Popup :=
  foldl (fun p message => onMessage message p) p messages.

(** What one call of [runScrape] meets outside the popup: how each browser
    call settles ([inl] and [Some] carry the message of a rejection), the
    URL of the active tab ([None] when [tab], [tab.id] or [tab.url] is
    missing), the messages the listener handles while the scraper's result
    is awaited, and [Date.now()] when the file is named. *)
Record Browser := mkBrowser {
  tabsQuery : string + option string;
  injectFiles : option string;
  scrapeResult : string + option Doc.t;
  delivered : list Message;
  downloadCall : option string;
  dateNow : nat
}.

(** [isScraping = false], Start enabled, Cancel disabled. *)
Definition resetButtons (p : Popup) : Popup :=
  mkPopup false (wasCancelled p) (totalLessonsGlobal p) false true
          (status p) (progressCompleted p) (progressTotal p).

(** The name given to the download. *)
Definition downloadFilename (courseTitle : string) (now : nat) : string :=
  "thinkific_" +:+ safeTitle courseTitle +:+ "_" +:+ natToString now
  +:+ ".json".

(** [runScrape]: the popup afterwards and the name of the file handed to
    [chrome.downloads.download], if that call was made and settled.  The
    error list that [resetErrors] clears is not part of [Popup]. *)
Definition runScrape (b : Browser) (p : Popup) : Popup * option string :=
  let p := setStatus "Preparing to scrape..." p in
  let failed message p := (setStatus ("Error: " +:+ message) p, None) in
  let '(p, file) :=
    match tabsQuery b with
    | inl message => failed message p
    | inr tab =>
        match orNull (default "" tab) with
        | None => (setStatus "No active tab found." p, None)
        | Some url =>
            if negb (includes url "thinkific.com") then
              (setStatus "Please navigate to a Thinkific course curriculum page before starting." p,
               None)
            else
              let p := mkPopup true false 0 true false (status p) 0 0 in
              let p :=
                setStatus "Injecting scraper scripts into Thinkific page..." p in
              match injectFiles b with
              | Some message => failed message p
              | None =>
                  let p := setStatus "Starting click-through scraping..." p in
                  let p := deliver (delivered b) p in
                  match scrapeResult b with
                  | inl message => failed message p
                  | inr None =>
                      (resetButtons
                         (setStatus "No data returned from scraper." p), None)
                  | inr (Some courseData) =>
                      if Doc.cancelled courseData || wasCancelled p then
                        (resetButtons
                           (setStatus "Scraping cancelled. No file downloaded."
                                      p), None)
                      else
                        let p := setStatus "Creating download file..." p in
                        let filename :=
                          downloadFilename (Doc.courseTitle courseData)
                                           (dateNow b) in
                        match downloadCall b with
                        | Some message => failed message p
                        | None =>
                            (setStatus ("Complete! " +:+ filename
                                        +:+ " has been downloaded.")
                                       (resetButtons p),
                             Some filename)
                        end
                  end
              end
        end
    end in
  (resetButtons p, file).

(** A [tcs-cancelled] message. *)
Definition isCancelledMessage (m : Message) : bool :=
  match m with TcsCancelled _ _ => true | _ => false end.

(* ===================================================================== *)
(** ** Further vocabulary                                                 *)
(* ===================================================================== *)

(** What the plan fixes for a lesson and the loop never writes. *)
Definition lessonKey (l : Lesson.t) : nat * nat * string * string :=
  (Lesson.chapterIndex l, Lesson.lessonIndex l, Lesson.title l, Lesson.type l).

(** What the plan fixes for a chapter. *)
Definition chapterKey (c : Chapter.t)
  : string * nat * list (nat * nat * string * string) :=
  (Chapter.chapterTitle c, Chapter.chapterIndex c,
   map lessonKey (Chapter.lessons c)).

(** A string that is not empty and has no white space at either end. *)
Definition properTitle (s : string) : Prop := s ≠ "" ∧ trim s = s.

(** The titles in a chapter key are proper. *)
Definition properKey (k : string * nat * list (nat * nat * string * string))
  : Prop :=
  properTitle k.1.1 ∧ Forall (fun lk => properTitle lk.1.2) k.2.

(** A lesson carries an error or content, not both; its two plain-text
    fields agree. *)
Definition contentOrError (l : Lesson.t) : Prop :=
  (Lesson.error l = None
   ∨ (Lesson.content l = None ∧ Lesson.textContent l = None
      ∧ Lesson.plainTextContent l = None))
  ∧ Lesson.textContent l = Lesson.plainTextContent l.

(** The title element of the card exists and has the target as its
    normalised text. *)
Definition cardMatches (normalizedTarget : string) (card : Element) : Prop :=
  ∃ titleElement,
    findElement Selectors.lessonTitle card = Some titleElement
    ∧ normalizeText (textContent titleElement) = normalizedTarget.

(** A [tcs-progress] message of a run with the given lesson count. *)
Definition progressOf (totalLessons : nat) (m : Message) : Prop :=
  ∃ completed title, m = TcsProgress completed totalLessons title.

(** The [tcs-progress] messages for the given titles, counted from one. *)
Definition progressMessages (totalLessons : nat) (titles : list string)
  : list Message :=
  imap (fun i title => TcsProgress (S i) totalLessons title) titles.

(** The messages of a run so far: [tcs-init], one [tcs-progress] per
    completed lesson, and [tcs-cancelled] once the loop has stopped. *)
Definition sentSoFar (totalLessons : nat) (titles : list string)
    (cancelled : bool) : list Message :=
  TcsInit totalLessons :: progressMessages totalLessons titles
  ++ (if cancelled then [TcsCancelled (length titles) totalLessons] else []).

(** The locals of the loop agree with the messages sent. *)
Definition inProtocol (totalLessons : nat) (st : RunState)
    (titles : list string) (cancelled : bool) : Prop :=
  outbox st = sentSoFar totalLessons titles cancelled
  ∧ completed st = length titles
  ∧ (completed st ≤ processedLessons st)%nat.

(* ===================================================================== *)
(** ** Selector resolution                                                *)
(* ===================================================================== *)

Section Resolution.
Variable context : Element.

Lemma findElement_throw selector rest :
  querySelectorAll context selector = None →
  findElement (selector :: rest) context = findElement rest context.
Proof. intros H. cbn. unfold querySelector. by rewrite H. Qed.

Lemma findElement_miss selector rest :
  misses context selector →
  findElement (selector :: rest) context = findElement rest context.
Proof. intros [H | H]; cbn; by rewrite H. Qed.

Lemma findElement_hit selector rest element :
  querySelector context selector = Some (Some element) →
  findElement (selector :: rest) context = Some element.
Proof. intros H. cbn. by rewrite H. Qed.

Lemma findElement_skip pre rest :
  Forall (misses context) pre →
  findElement (pre ++ rest) context = findElement rest context.
Proof.
  induction 1 as [| selector pre Hs _ IH]; [done |].
  rewrite <- app_comm_cons, findElement_miss; done.
Qed.

Lemma findElement_spec selectorArray :
  match findElement selectorArray context with
  | Some element =>
      ∃ pre selector post,
        selectorArray = pre ++ selector :: post
        ∧ Forall (misses context) pre
        ∧ querySelector context selector = Some (Some element)
  | None => Forall (misses context) selectorArray
  end.
Proof.
  induction selectorArray as [| selector rest IH]; cbn; [constructor |].
  destruct (querySelector context selector) as [[element |] |] eqn:Hq.
  - exists [], selector, rest. by repeat split.
  - destruct (findElement rest context) as [element |].
    + destruct IH as (pre & s & post & -> & Hpre & Hs).
      exists (selector :: pre), s, post. repeat split; [| done].
      constructor; [by right | done].
    + constructor; [by right | done].
  - destruct (findElement rest context) as [element |].
    + destruct IH as (pre & s & post & -> & Hpre & Hs).
      exists (selector :: pre), s, post. repeat split; [| done].
      constructor; [by left | done].
    + constructor; [by left | done].
Qed.

Lemma findElements_nothing selector rest :
  yieldsNothing context selector →
  findElements (selector :: rest) context = findElements rest context.
Proof. intros [H | H]; cbn; by rewrite H. Qed.

Lemma findElements_hit selector rest matches :
  querySelectorAll context selector = Some matches → matches ≠ [] →
  findElements (selector :: rest) context = matches.
Proof. intros H Hne. cbn. rewrite H. by destruct matches. Qed.

Lemma findElements_skip pre rest :
  Forall (yieldsNothing context) pre →
  findElements (pre ++ rest) context = findElements rest context.
Proof.
  induction 1 as [| selector pre Hs _ IH]; [done |].
  rewrite <- app_comm_cons, findElements_nothing; done.
Qed.

Lemma findElements_all_nothing selectorArray :
  Forall (yieldsNothing context) selectorArray →
  findElements selectorArray context = [].
Proof.
  intros H. rewrite <- (app_nil_r selectorArray).
  by rewrite findElements_skip.
Qed.

Lemma findElements_spec selectorArray :
  (∃ pre selector post matches,
      selectorArray = pre ++ selector :: post
      ∧ Forall (yieldsNothing context) pre
      ∧ querySelectorAll context selector = Some matches
      ∧ matches ≠ []
      ∧ findElements selectorArray context = matches)
  ∨ (Forall (yieldsNothing context) selectorArray
     ∧ findElements selectorArray context = []).
Proof.
  induction selectorArray as [| selector rest IH]; [right; by split |].
  destruct (querySelectorAll context selector) as [[| e es] |] eqn:Hq.
  - assert (Hn : yieldsNothing context selector) by by right.
    rewrite (findElements_nothing _ _ Hn).
    destruct IH as [(pre & s & post & ms & -> & Hpre & Hs & Hne & Hf) | [Hall Hf]].
    + left. exists (selector :: pre), s, post, ms.
      repeat split; [by constructor | done..].
    + right. split; [by constructor | done].
  - left. exists [], selector, rest, (e :: es).
    repeat split; [constructor | done | done |].
    by apply findElements_hit.
  - assert (Hn : yieldsNothing context selector) by by left.
    rewrite (findElements_nothing _ _ Hn).
    destruct IH as [(pre & s & post & ms & -> & Hpre & Hs & Hne & Hf) | [Hall Hf]].
    + left. exists (selector :: pre), s, post, ms.
      repeat split; [by constructor | done..].
    + right. split; [by constructor | done].
Qed.
End Resolution.

(** C6. [findElement] tries the selectors in the listed order: its result
    is the element matched by the first selector that matches anything
    (every selector before it threw or matched nothing), and it is null
    exactly when every selector throws or matches nothing.  A selector
    whose query throws is skipped: resolution goes on with the rest of the
    list. *)
Theorem findElement_first_match :
  ∀ (selectorArray : list string) (context : Element),
    match findElement selectorArray context with
    | Some element =>
        ∃ pre selector post,
          selectorArray = pre ++ selector :: post
          ∧ Forall (misses context) pre
          ∧ querySelector context selector = Some (Some element)
    | None => Forall (misses context) selectorArray
    end
    ∧ (∀ pre selector post element,
          selectorArray = pre ++ selector :: post →
          Forall (misses context) pre →
          querySelector context selector = Some (Some element) →
          findElement selectorArray context = Some element)
    ∧ (∀ selector rest,
          selectorArray = selector :: rest →
          querySelectorAll context selector = None →
          findElement selectorArray context = findElement rest context).
Proof.
  intros selectorArray context. split; [apply findElement_spec |]. split.
  - intros pre selector post element -> Hpre Hq.
    rewrite findElement_skip by done. by apply findElement_hit.
  - intros selector rest -> Hq. by apply findElement_throw.
Qed.

Lemma findElement_first_match_witness :
  findElement Fixture.panelSelectors Fixture.panel = Some Fixture.headingA.
Proof.
  apply (proj1 (proj2 (findElement_first_match
                         Fixture.panelSelectors Fixture.panel))
               [ "div:has(> h1"; ".lesson-title" ] "h1" [ "h2" ]).
  - reflexivity.
  - constructor; [by left | constructor; [by right | constructor]].
  - reflexivity.
Defined.

(** C4. [findElements] returns exactly the matches of the first selector,
    in list order, whose query yields at least one element: every selector
    before it threw or matched nothing, no later selector contributes, and
    the result is empty when every selector throws or matches nothing. *)
Theorem findElements_first_selector_only :
  ∀ (selectorArray : list string) (context : Element),
    ((∃ pre selector post matches,
         selectorArray = pre ++ selector :: post
         ∧ Forall (yieldsNothing context) pre
         ∧ querySelectorAll context selector = Some matches
         ∧ matches ≠ []
         ∧ findElements selectorArray context = matches)
     ∨ (Forall (yieldsNothing context) selectorArray
        ∧ findElements selectorArray context = []))
    ∧ (∀ pre selector post matches,
          selectorArray = pre ++ selector :: post →
          Forall (yieldsNothing context) pre →
          querySelectorAll context selector = Some matches →
          matches ≠ [] →
          findElements selectorArray context = matches).
Proof.
  intros selectorArray context. split; [apply findElements_spec |].
  intros pre selector post matches -> Hpre Hq Hne.
  rewrite findElements_skip by done. by apply findElements_hit.
Qed.

Lemma findElements_first_selector_only_witness :
  findElements Fixture.panelSelectors Fixture.panel
  = [Fixture.headingA; Fixture.headingB].
Proof.
  apply (proj2 (findElements_first_selector_only
                  Fixture.panelSelectors Fixture.panel)
               [ "div:has(> h1"; ".lesson-title" ] "h1" [ "h2" ]).
  - reflexivity.
  - constructor; [by left | constructor; [by right | constructor]].
  - reflexivity.
  - discriminate.
Defined.

(* ===================================================================== *)
(** ** Content-type detection                                             *)
(* ===================================================================== *)

Ltac split_orb_false :=
  repeat match goal with
         | H : (_ || _) = false |- _ => apply orb_false_elim in H as [? ?]
         end.

Lemma detectLessonType_no_icon lessonElement :
  findElement Selectors.lessonIcon lessonElement = None →
  detectLessonType lessonElement = inr "unknown".
Proof. intros H. unfold detectLessonType. by rewrite H. Qed.

Lemma detectLessonType_plain_icon lessonElement iconElement classes :
  findElement Selectors.lessonIcon lessonElement = Some iconElement →
  className iconElement = Some classes →
  iconKeyword iconElement classes = false →
  detectLessonType lessonElement = inr (typeAttributeScan lessonElement).
Proof.
  intros Hicon Hclass Hkey. unfold detectLessonType. rewrite Hicon, Hclass.
  unfold iconKeyword in Hkey. cbv zeta in *. split_orb_false.
  repeat match goal with
         | H : includes _ _ = false |- _ => rewrite H; clear H
         end.
  cbn [orb]. unfold typeAttributeScan. cbv zeta.
  destruct (_ || _); [done |]. by destruct (_ || _).
Qed.



(** C3, as stated, fails: a lesson card without any icon element whose own
    markup carries [data-type="video"] is classified ['unknown']; the scan
    of the card's markup is not reached. *)
Lemma detectLessonType_no_icon_no_scan :
  ¬ (∀ lessonElement : Element,
        (findElement Selectors.lessonIcon lessonElement = None
         ∨ ∃ iconElement classes,
             findElement Selectors.lessonIcon lessonElement = Some iconElement
             ∧ className iconElement = Some classes
             ∧ iconKeyword iconElement classes = false) →
        detectLessonType lessonElement
        = inr (typeAttributeScan lessonElement)).
Proof.
  intros H. specialize (H Fixture.typedCardNoIcon).
  assert (Hnone : findElement Selectors.lessonIcon Fixture.typedCardNoIcon = None)
    by reflexivity.
  specialize (H (or_introl Hnone)). vm_compute in H. discriminate H.
Qed.

(** C3, amended. When an icon element is found whose class list is a
    string and whose markup and class list match no keyword family,
    [detectLessonType] returns what the scan of the lesson node's own
    markup for explicit [type] / [data-type] attributes gives (['video'],
    ['text'], else ['unknown']); when no icon element is found it returns
    ['unknown'] at once. *)
Theorem detectLessonType_fallback :
  ∀ lessonElement : Element,
    match findElement Selectors.lessonIcon lessonElement with
    | Some iconElement =>
        ∀ classes,
          className iconElement = Some classes →
          iconKeyword iconElement classes = false →
          detectLessonType lessonElement
          = inr (typeAttributeScan lessonElement)
    | None => detectLessonType lessonElement = inr "unknown"
    end.
Proof.
  intros lessonElement.
  destruct (findElement Selectors.lessonIcon lessonElement) as [icon |] eqn:Hicon.
  - intros classes Hclass Hkey. by eapply detectLessonType_plain_icon.
  - by apply detectLessonType_no_icon.
Qed.

Lemma detectLessonType_fallback_witness :
  detectLessonType Fixture.typedCardPlainIcon = inr "video"
  ∧ detectLessonType Fixture.typedCardNoIcon = inr "unknown".
Proof.
  split.
  - exact (detectLessonType_fallback Fixture.typedCardPlainIcon
             "fa-circle" eq_refl eq_refl).
  - exact (detectLessonType_fallback Fixture.typedCardNoIcon).
Defined.

(* ===================================================================== *)
(** ** De-duplication                                                     *)
(* ===================================================================== *)

Section FilterSeenFacts.
Context {A : Type} (url : A → string).

Lemma filterSeen_cons_seen seen x rest :
  url x ∈ seen → filterSeen url seen (x :: rest) = filterSeen url seen rest.
Proof. intros H. cbn. by rewrite decide_True. Qed.

Lemma filterSeen_cons_new seen x rest :
  url x ∉ seen →
  filterSeen url seen (x :: rest) = x :: filterSeen url ({[ url x ]} ∪ seen) rest.
Proof. intros H. cbn. by rewrite decide_False. Qed.

Lemma filterSeen_sublist seen items :
  sublist (filterSeen url seen items) items.
Proof.
  revert seen. induction items as [| x rest IH]; intros seen; [done |].
  destruct (decide (url x ∈ seen)) as [Hx | Hx].
  - rewrite filterSeen_cons_seen by done. by apply sublist_cons.
  - rewrite filterSeen_cons_new by done. by apply sublist_skip.
Qed.

Lemma filterSeen_elem seen items u :
  u ∈ url <$> filterSeen url seen items ↔ u ∈ url <$> items ∧ u ∉ seen.
Proof.
  revert seen. induction items as [| x rest IH]; intros seen.
  - cbn. split; [intros H | intros [H _]]; by apply elem_of_nil in H.
  - destruct (decide (url x ∈ seen)) as [Hx | Hx].
    + rewrite filterSeen_cons_seen by done.
      rewrite fmap_cons, elem_of_cons, IH. split.
      * intros [Hu Hn]. split; [by right | done].
      * intros [[-> | Hu] Hn]; [done | by split].
    + rewrite filterSeen_cons_new by done.
      rewrite !fmap_cons, !elem_of_cons, IH, elem_of_union, elem_of_singleton.
      split.
      * intros [-> | [Hu Hn]]; [split; [by left | done] |].
        split; [by right | tauto].
      * intros [[-> | Hu] Hn]; [by left |].
        destruct (decide (u = url x)) as [-> | Hne]; [by left |].
        right. split; [done | tauto].
Qed.

Lemma filterSeen_NoDup seen items :
  NoDup (url <$> filterSeen url seen items).
Proof.
  revert seen. induction items as [| x rest IH]; intros seen.
  - constructor.
  - destruct (decide (url x ∈ seen)) as [Hx | Hx].
    + rewrite filterSeen_cons_seen by done. apply IH.
    + rewrite filterSeen_cons_new by done.
      rewrite fmap_cons. constructor; [| apply IH].
      rewrite filterSeen_elem, elem_of_union, elem_of_singleton. tauto.
Qed.

Lemma filterSeen_first seen items u :
  filter (λ y, url y = u) (filterSeen url seen items)
  = if decide (u ∈ seen) then []
    else option_list (head (filter (λ y, url y = u) items)).
Proof.
  revert seen. induction items as [| x rest IH]; intros seen.
  - by destruct (decide (u ∈ seen)).
  - destruct (decide (url x ∈ seen)) as [Hx | Hx].
    + rewrite filterSeen_cons_seen, IH by done.
      destruct (decide (url x = u)) as [<- | Hne].
      * by rewrite !decide_True by done.
      * by rewrite filter_cons_False by done.
    + rewrite filterSeen_cons_new by done.
      destruct (decide (url x = u)) as [<- | Hne].
      * rewrite !filter_cons_True by done. rewrite IH.
        rewrite decide_True
          by (rewrite elem_of_union, elem_of_singleton; by left).
        by rewrite decide_False by done.
      * rewrite !filter_cons_False by done. rewrite IH.
        destruct (decide (u ∈ seen)) as [Hu | Hu].
        -- rewrite decide_True; [done |].
           rewrite elem_of_union. by right.
        -- rewrite decide_False; [done |].
           rewrite elem_of_union, elem_of_singleton. intros [-> | ?]; done.
Qed.

Lemma filterSeen_idemp seen items :
  filterSeen url seen (filterSeen url seen items) = filterSeen url seen items.
Proof.
  revert seen. induction items as [| x rest IH]; intros seen; [done |].
  destruct (decide (url x ∈ seen)) as [Hx | Hx].
  - rewrite filterSeen_cons_seen by done. apply IH.
  - rewrite filterSeen_cons_new by done.
    rewrite filterSeen_cons_new by done. by rewrite IH.
Qed.

Lemma filterSeen_firstOccurrences items :
  firstOccurrences url items (filterSeen url ∅ items).
Proof.
  split; [apply filterSeen_sublist |].
  split; [apply filterSeen_NoDup |].
  split.
  - intros u. rewrite filterSeen_elem. split; [| by intros [H _]].
    intros H. split; [done | apply not_elem_of_empty].
  - intros u. rewrite filterSeen_first.
    rewrite decide_False; [done | apply not_elem_of_empty].
Qed.
End FilterSeenFacts.

(** C10. [removeDuplicateSources] and [removeDuplicateFiles] return the
    sub-list of first occurrences by [url]: the result is a sub-list of the
    input in the input's order, no url occurs twice in it, it has exactly
    the urls of the input, the record kept for a url is the first input
    record with that url, and applying the function twice is the same as
    applying it once. *)
Theorem removeDuplicates_first_occurrences :
  ∀ (sources : list Source) (files : list File),
    firstOccurrences source_url sources (removeDuplicateSources sources)
    ∧ removeDuplicateSources (removeDuplicateSources sources)
      = removeDuplicateSources sources
    ∧ firstOccurrences file_url files (removeDuplicateFiles files)
    ∧ removeDuplicateFiles (removeDuplicateFiles files)
      = removeDuplicateFiles files.
Proof.
  intros sources files. unfold removeDuplicateSources, removeDuplicateFiles.
  repeat split;
    first [ apply filterSeen_firstOccurrences | apply filterSeen_idemp ].
Qed.

(* ===================================================================== *)
(** ** Title normalisation                                                *)
(* ===================================================================== *)

Section Characters.
Ltac all_chars c :=
  destruct c as [[] [] [] [] [] [] [] []]; vm_compute; try reflexivity;
  try discriminate.


Lemma lowerChar_idemp c : lowerChar (lowerChar c) = lowerChar c.
Proof. all_chars c. Qed.

Lemma lowerChar_space c : isWhiteSpace c = true → lowerChar c = c.
Proof. all_chars c. Qed.

End Characters.









Lemma append_cons c p s : String c p +:+ s = String c (p +:+ s).
Proof. reflexivity. Qed.





(** The 8-bit strings are the strings of code units below 256, and on
    them the functions of [Utf16] are the ones used above. *)
Section WideStrings.
Ltac all_chars c :=
  destruct c as [[] [] [] [] [] [] [] []]; vm_compute; try reflexivity;
  try discriminate.














End WideStrings.




(* ===================================================================== *)
(** ** Waiting for the editor panel                                       *)
(* ===================================================================== *)

Section Polling.
Variable w : World.

Lemma sleepFrom_ge ms t : (t + ms ≤ sleepFrom w ms t)%Z.
Proof. unfold sleepFrom. lia. Qed.

Lemma pollTime_shift t i :
  pollTime w (sleepFrom w 500 t) i = pollTime w t (S i).
Proof. induction i as [| i IH]; [done |]. cbn [pollTime]. by rewrite IH. Qed.

Lemma pollTime_step t i : (pollTime w t i + 500 ≤ pollTime w t (S i))%Z.
Proof. cbn [pollTime]. apply sleepFrom_ge. Qed.

Lemma pollTime_ge t i : (t + 500 * Z.of_nat i ≤ pollTime w t i)%Z.
Proof.
  induction i as [| i IH]; [cbn; lia |].
  pose proof (pollTime_step t i). lia.
Qed.

Lemma pollTime_mono t i j : (i ≤ j)%nat → (pollTime w t i ≤ pollTime w t j)%Z.
Proof.
  induction 1 as [| j _ IH]; [lia |].
  pose proof (pollTime_step t j). lia.
Qed.

Variables (normalizedExpected : string) (timeoutMs : Z).

(** The loop answers [true] exactly when some poll within the fuel finds
    the title, every poll up to it having passed the loop condition. *)
Lemma waitLoop_true fuel start now :
  (waitLoop w normalizedExpected timeoutMs fuel start now).1 = true
  ↔ ∃ i, (i < fuel)%nat
         ∧ (pollTime w now i - start < timeoutMs)%Z
         ∧ editorShows (page w (pollTime w now i)) normalizedExpected = true.
Proof.
  revert now. induction fuel as [| fuel IH]; intros now.
  - cbn. split; [done | intros (i & Hi & _); lia].
  - cbn [waitLoop]. destruct (Z.ltb_spec (now - start) timeoutMs) as [Hlt | Hge].
    + destruct (editorShows (page w now) normalizedExpected) eqn:Hshow.
      * cbn. split; [intros _ | done]. exists O. cbn. split; [lia | done].
      * rewrite IH. split.
        -- intros (i & Hi & Ht & Hs). exists (S i).
           rewrite <- !pollTime_shift. split; [lia | done].
        -- intros ([| i] & Hi & Ht & Hs); [cbn in Hs; congruence |].
           exists i. rewrite !pollTime_shift. split; [lia | done].
    + cbn. split; [done |]. intros (i & _ & Ht & _).
      pose proof (pollTime_ge now i). lia.
Qed.

(** No poll beyond the budget can pass the loop condition. *)
Lemma pollBudget_enough t i :
  (pollTime w t i - t < timeoutMs)%Z → (i < pollBudget timeoutMs)%nat.
Proof.
  intros Ht. pose proof (pollTime_ge t i) as Hge. unfold pollBudget.
  assert (500 * Z.of_nat i < timeoutMs)%Z as Hi by lia.
  assert (Z.of_nat i ≤ timeoutMs / 500)%Z.
  { apply Z.div_le_lower_bound; lia. }
  lia.
Qed.

Lemma waitLoop_budget fuel t :
  (pollBudget timeoutMs ≤ fuel)%nat →
  (waitLoop w normalizedExpected timeoutMs fuel t t).1
  = (waitLoop w normalizedExpected timeoutMs (pollBudget timeoutMs) t t).1.
Proof.
  intros Hfuel. apply eq_true_iff_eq. rewrite !waitLoop_true. split.
  - intros (i & _ & Ht & Hs). exists i. split; [| done].
    by apply (pollBudget_enough t).
  - intros (i & Hi & Ht & Hs). exists i. split; [lia | done].
Qed.
End Polling.

Lemma editorShows_true doc normalizedExpected :
  editorShows doc normalizedExpected = true
  ↔ ∃ titleEl, findElement editorTitleSelectors doc = Some titleEl
               ∧ normalize (textContent titleEl) = normalizedExpected.
Proof.
  unfold editorShows.
  destruct (findElement editorTitleSelectors doc) as [titleEl |].
  - rewrite String.eqb_eq. split.
    + intros H. by exists titleEl.
    + by intros (e & [= <-] & H).
  - split; [done | by intros (e & H & _)].
Qed.

(** C8, as stated, fails: the wait does not fold case.  With the editor
    showing ["INTRO"] for the lesson titled ["Intro"], the two titles are
    equal under the normalisation of the locate step at the very first
    poll, and yet the wait times out. *)
Lemma waitForLessonLoaded_not_case_folded :
  ¬ (∀ (w : World) (expectedTitle : string) (timeoutMs t : Z),
        (waitForLessonLoaded w expectedTitle timeoutMs t).1 = true
        ↔ ∃ i, (pollTime w t i - t < timeoutMs)%Z
               ∧ ∃ titleEl,
                   findElement editorTitleSelectors (page w (pollTime w t i))
                   = Some titleEl
                   ∧ normalizeText (textContent titleEl)
                     = normalizeText expectedTitle).
Proof.
  intros H. specialize (H Fixture.capitalsWorld "Intro" 12000%Z 0%Z).
  assert (Hfalse : (waitForLessonLoaded Fixture.capitalsWorld "Intro" 12000 0).1
                   = false) by (vm_compute; reflexivity).
  rewrite Hfalse in H. destruct H as [_ H].
  assert (false = true); [| discriminate].
  apply H. exists O. split; [cbn; lia |].
  eexists. split; reflexivity.
Qed.

(** C8, amended. The wait succeeds exactly when, at some poll whose clock
    reading is less than [timeoutMs] after the wait began (12000 ms as the
    loop calls it; polls are at least 500 ms apart), the editor title
    element found by the cascade has text that equals the lesson title
    after both are trimmed and white-space-collapsed; letter case is kept,
    and nothing short of equality counts.  The number of polls never
    exceeds the budget of the loop. *)
Theorem waitForLessonLoaded_exact_match :
  ∀ (w : World) (expectedTitle : string) (timeoutMs t : Z),
    ((waitForLessonLoaded w expectedTitle timeoutMs t).1 = true
     ↔ ∃ i, (pollTime w t i - t < timeoutMs)%Z
            ∧ ∃ titleEl,
                findElement editorTitleSelectors (page w (pollTime w t i))
                = Some titleEl
                ∧ normalize (textContent titleEl) = normalize expectedTitle)
    ∧ (∀ fuel, (pollBudget timeoutMs ≤ fuel)%nat →
               (waitLoop w (normalize expectedTitle) timeoutMs fuel t t).1
               = (waitForLessonLoaded w expectedTitle timeoutMs t).1).
Proof.
  intros w expectedTitle timeoutMs t. split.
  - unfold waitForLessonLoaded. rewrite waitLoop_true. split.
    + intros (i & _ & Ht & Hs). exists i. split; [done |].
      by apply editorShows_true.
    + intros (i & Ht & Hs). exists i.
      split; [by eapply pollBudget_enough |]. split; [done |].
      by apply editorShows_true.
  - intros fuel Hfuel. by apply waitLoop_budget.
Qed.

Lemma waitForLessonLoaded_exact_match_witness :
  (waitForLessonLoaded Fixture.stuckWorld "  Lesson   B " 12000 700).1 = true
  ∧ (waitForLessonLoaded Fixture.stuckWorld "lesson b" 12000 700).1 = false.
Proof.
  split.
  - apply (proj1 (waitForLessonLoaded_exact_match
                    Fixture.stuckWorld "  Lesson   B " 12000 700)).
    exists O. split; [cbn; lia |]. eexists. split; reflexivity.
  - vm_compute. reflexivity.
Defined.

(* ===================================================================== *)
(** ** The interaction loop                                               *)
(* ===================================================================== *)

Section Loop.
Variables (w : World) (totalLessons : nat).

Local Abbreviation proc := (processLesson w totalLessons).
Local Abbreviation lessonsLoop := (runLessons w totalLessons).
Local Abbreviation chaptersLoop := (runChapters w totalLessons).

Lemma runLessons_cancelled st lesson rest :
  cancelFlag w (clock st) = true →
  lessonsLoop st (lesson :: rest)
  = (sendMessage (TcsCancelled (completed st) totalLessons) st,
     lesson :: rest, true).
Proof. intros H. cbn. by rewrite H. Qed.

Lemma runLessons_step st lesson rest :
  cancelFlag w (clock st) = false →
  lessonsLoop st (lesson :: rest)
  = (let '(st2, rest', cancelled) := lessonsLoop (proc st lesson).1 rest in
     (st2, (proc st lesson).2 :: rest', cancelled)).
Proof. intros H. cbn. rewrite H. by destruct (proc st lesson). Qed.

Lemma runLessons_app st pre rest st1 pre' :
  lessonsLoop st pre = (st1, pre', false) →
  lessonsLoop st (pre ++ rest)
  = (let '(st2, rest', cancelled) := lessonsLoop st1 rest in
     (st2, pre' ++ rest', cancelled)).
Proof.
  revert st pre'. induction pre as [| lesson pre IH]; intros st pre'.
  - cbn. intros [= <- <-]. by destruct (lessonsLoop st rest) as [[? ?] ?].
  - cbn [runLessons app].
    destruct (cancelFlag w (clock st)); [done |].
    destruct (proc st lesson) as [sta lesson'].
    destruct (lessonsLoop sta pre) as [[stb pre''] c] eqn:Hpre.
    intros [= <- <- ->]. rewrite (IH _ _ Hpre).
    by destruct (lessonsLoop stb rest) as [[? ?] ?].
Qed.

Lemma runChapters_app st cpre rest st1 cpre' :
  chaptersLoop st cpre = (st1, cpre', false) →
  chaptersLoop st (cpre ++ rest)
  = (let '(st2, rest', cancelled) := chaptersLoop st1 rest in
     (st2, cpre' ++ rest', cancelled)).
Proof.
  revert st cpre'. induction cpre as [| chapter cpre IH]; intros st cpre'.
  - cbn. intros [= <- <-]. by destruct (chaptersLoop st rest) as [[? ?] ?].
  - cbn [runChapters app].
    destruct (lessonsLoop st (Chapter.lessons chapter)) as [[sta ls] c].
    destruct c; [done |].
    destruct (chaptersLoop sta cpre) as [[stb cpre''] c] eqn:Hpre.
    intros [= <- <- ->]. rewrite (IH _ _ Hpre).
    by destruct (chaptersLoop stb rest) as [[? ?] ?].
Qed.

(** Cancellation observed at the top of one lesson's iteration. *)
Lemma runChapters_cancel_at st cpre c cpost pre l post st1 cpre' st2 pre' :
  Chapter.lessons c = pre ++ l :: post →
  chaptersLoop st cpre = (st1, cpre', false) →
  lessonsLoop st1 pre = (st2, pre', false) →
  cancelFlag w (clock st2) = true →
  chaptersLoop st (cpre ++ c :: cpost)
  = (sendMessage (TcsCancelled (completed st2) totalLessons) st2,
     cpre' ++ Chapter.setLessons c (pre' ++ l :: post) :: cpost,
     true).
Proof.
  intros Hc Hcpre Hpre Hflag.
  rewrite (runChapters_app _ _ _ _ _ Hcpre). cbn [runChapters].
  rewrite Hc, (runLessons_app _ _ _ _ _ Hpre).
  by rewrite runLessons_cancelled.
Qed.


(** Every outcome of one lesson counts it as processed. *)
Lemma processLesson_processed st lesson :
  processedLessons (proc st lesson).1 = S (processedLessons st).
Proof.
  unfold processLesson. cbn [clock completed processedLessons outbox clicks].
  destruct (findCard _ _); [| done].
  destruct (clickThrows _ _); [done |].
  destruct (waitForLessonLoaded _ _ _ _) as [[] t]; done.
Qed.

(** Without a cancellation request the loops visit every lesson. *)
Lemma runLessons_all st lessons :
  (∀ t, cancelFlag w t = false) →
  ∃ st' lessons',
    lessonsLoop st lessons = (st', lessons', false)
    ∧ processedLessons st' = (processedLessons st + length lessons)%nat
    ∧ length lessons' = length lessons.
Proof.
  intros Hflag. revert st.
  induction lessons as [| lesson rest IH]; intros st.
  - exists st, []. cbn. repeat split; lia.
  - rewrite runLessons_step by apply Hflag.
    destruct (IH (proc st lesson).1) as (st' & rest' & -> & Hp & Hl).
    eexists _, _. split; [done |].
    rewrite Hp, processLesson_processed. cbn. split; lia.
Qed.

Lemma runChapters_all st chapters :
  (∀ t, cancelFlag w t = false) →
  ∃ st' chapters',
    chaptersLoop st chapters = (st', chapters', false)
    ∧ processedLessons st'
      = (processedLessons st + countLessons chapters)%nat
    ∧ countLessons chapters' = countLessons chapters
    ∧ length chapters' = length chapters.
Proof.
  intros Hflag. revert st.
  induction chapters as [| chapter rest IH]; intros st.
  - exists st, []. cbn. repeat split; lia.
  - cbn [runChapters].
    destruct (runLessons_all st (Chapter.lessons chapter) Hflag)
      as (sta & ls & -> & Hp & Hl).
    destruct (IH sta) as (st' & rest' & -> & Hp' & Hc & Hn).
    eexists _, _. split; [done |].
    unfold countLessons in *. cbn. rewrite Hp', Hp, Hl, Hc, Hn. lia.
Qed.
End Loop.





(** What each entry of the plan is built from. *)
Lemma buildLessonsFrom_lookup chapterIndex lessonIndex lessonCards lessons k l :
  buildLessonsFrom chapterIndex lessonIndex lessonCards = inr lessons →
  lessons !! k = Some l →
  ∃ card lessonType,
    lessonCards !! k = Some card
    ∧ detectLessonType card = inr lessonType
    ∧ l = Lesson.mk chapterIndex (lessonIndex + k)
            (titleOr (findElement Selectors.lessonTitle card)
                     ("Lesson " +:+ natToString (lessonIndex + k + 1)))
            lessonType None None None None.
Proof.
  revert lessonIndex lessons k.
  induction lessonCards as [| card rest IH]; intros lessonIndex lessons k.
  - cbn. by intros [= <-].
  - cbn [buildLessonsFrom].
    destruct (detectLessonType card) as [m | lessonType] eqn:Hd; [done |].
    destruct (buildLessonsFrom chapterIndex (S lessonIndex) rest)
      as [m | lessons'] eqn:Hrest; [done |].
    intros [= <-]. destruct k as [| k].
    + intros [= <-]. exists card, lessonType.
      by rewrite !Nat.add_0_r.
    + cbn [lookup list_lookup]. intros Hl.
      destruct (IH _ _ _ Hrest Hl) as (card' & ty & Hc & Hty & ->).
      exists card', ty. split; [done |]. split; [done |].
      by rewrite <- !Nat.add_succ_comm.
Qed.

Lemma buildLessonsFrom_length chapterIndex lessonIndex lessonCards lessons :
  buildLessonsFrom chapterIndex lessonIndex lessonCards = inr lessons →
  length lessons = length lessonCards.
Proof.
  revert lessonIndex lessons.
  induction lessonCards as [| card rest IH]; intros lessonIndex lessons.
  - cbn. by intros [= <-].
  - cbn [buildLessonsFrom].
    destruct (detectLessonType card) as [m | lessonType]; [done |].
    destruct (buildLessonsFrom chapterIndex (S lessonIndex) rest)
      as [m | lessons'] eqn:Hrest; [done |].
    intros [= <-]. cbn. f_equal. by eapply IH.
Qed.

Lemma buildChaptersFrom_lookup chapterIndex chapterElements plan k c :
  buildChaptersFrom chapterIndex chapterElements = inr plan →
  plan !! k = Some c →
  ∃ chapterElement lessons,
    chapterElements !! k = Some chapterElement
    ∧ buildLessons (chapterIndex + k)
        (findElements Selectors.lessonCard chapterElement) = inr lessons
    ∧ c = Chapter.mk
            (titleOr (findElement Selectors.chapterTitle chapterElement)
                     ("Chapter " +:+ natToString (chapterIndex + k + 1)))
            (chapterIndex + k) lessons.
Proof.
  revert chapterIndex plan k.
  induction chapterElements as [| e rest IH]; intros chapterIndex plan k.
  - cbn. by intros [= <-].
  - cbn [buildChaptersFrom].
    destruct (buildLessons chapterIndex (findElements Selectors.lessonCard e))
      as [m | lessons] eqn:Hl; [done |].
    destruct (buildChaptersFrom (S chapterIndex) rest)
      as [m | chapters] eqn:Hrest; [done |].
    intros [= <-]. destruct k as [| k].
    + intros [= <-]. exists e, lessons. by rewrite !Nat.add_0_r.
    + cbn [lookup list_lookup]. intros Hc.
      destruct (IH _ _ _ Hrest Hc) as (e' & ls & He & Hls & ->).
      exists e', ls. by rewrite <- !Nat.add_succ_comm.
Qed.

Lemma buildChaptersFrom_length chapterIndex chapterElements plan :
  buildChaptersFrom chapterIndex chapterElements = inr plan →
  length plan = length chapterElements.
Proof.
  revert chapterIndex plan.
  induction chapterElements as [| e rest IH]; intros chapterIndex plan.
  - cbn. by intros [= <-].
  - cbn [buildChaptersFrom].
    destruct (buildLessons chapterIndex (findElements Selectors.lessonCard e))
      as [m | lessons]; [done |].
    destruct (buildChaptersFrom (S chapterIndex) rest)
      as [m | chapters] eqn:Hrest; [done |].
    intros [= <-]. cbn. f_equal. by eapply IH.
Qed.

Lemma buildChapters_lookup chapterElements plan k c :
  buildChapters chapterElements = inr plan →
  plan !! k = Some c →
  ∃ chapterElement lessons,
    chapterElements !! k = Some chapterElement
    ∧ buildLessons k (findElements Selectors.lessonCard chapterElement)
      = inr lessons
    ∧ c = Chapter.mk
            (titleOr (findElement Selectors.chapterTitle chapterElement)
                     ("Chapter " +:+ natToString (k + 1)))
            k lessons.
Proof. apply (buildChaptersFrom_lookup 0). Qed.

Lemma buildLessons_lookup chapterIndex lessonCards lessons k l :
  buildLessons chapterIndex lessonCards = inr lessons →
  lessons !! k = Some l →
  ∃ card lessonType,
    lessonCards !! k = Some card
    ∧ detectLessonType card = inr lessonType
    ∧ l = Lesson.mk chapterIndex k
            (titleOr (findElement Selectors.lessonTitle card)
                     ("Lesson " +:+ natToString (k + 1)))
            lessonType None None None None.
Proof. apply (buildLessonsFrom_lookup chapterIndex 0). Qed.

Lemma buildChapters_length chapterElements plan :
  buildChapters chapterElements = inr plan →
  length plan = length chapterElements.
Proof. apply buildChaptersFrom_length. Qed.

(** The plan is built with empty content fields and no error. *)
Lemma buildLessons_untouched chapterIndex lessonCards lessons :
  buildLessons chapterIndex lessonCards = inr lessons →
  Forall Lesson.untouched lessons.
Proof.
  intros Hb. apply Forall_lookup. intros k l Hl.
  destruct (buildLessons_lookup _ _ _ _ _ Hb Hl) as (card & ty & _ & _ & ->).
  by repeat split.
Qed.

Lemma buildChapters_untouched chapterElements plan :
  buildChapters chapterElements = inr plan →
  Forall Lesson.untouched (allLessons plan).
Proof.
  intros Hb. unfold allLessons.
  apply Forall_concat, Forall_fmap, Forall_lookup. intros k c Hc.
  destruct (buildChapters_lookup _ _ _ _ Hb Hc) as (e & ls & _ & Hls & ->).
  by eapply buildLessons_untouched.
Qed.

Lemma allLessons_app cs1 cs2 :
  allLessons (cs1 ++ cs2) = allLessons cs1 ++ allLessons cs2.
Proof. unfold allLessons. by rewrite map_app, concat_app. Qed.

Lemma length_allLessons chapters :
  length (allLessons chapters) = countLessons chapters.
Proof.
  unfold allLessons, countLessons.
  induction chapters as [| c cs IH]; [done |].
  cbn. by rewrite length_app, IH.
Qed.

Lemma findElements_nonempty_length selectorArray context :
  (length (findElements selectorArray context) =? 0)%nat = false
  ↔ findElements selectorArray context ≠ [].
Proof.
  destruct (findElements selectorArray context); cbn; split; done.
Qed.




(** On a page whose only lesson card has an SVG icon, the run throws while
    the plan is built. *)
Lemma svg_icon_aborts_plan :
  clickThroughAndScrapeCourse Fixture.svgWorld 0
  = (inl "Course scraping failed: iconElement.className.toLowerCase is not a function",
     mkRunState 0 0 0 [] []).
Proof. vm_compute. reflexivity. Qed.

(** Lessons and chapters gone through without a cancellation have all
    been counted as processed. *)
Lemma runLessons_uncancelled w totalLessons st lessons st' lessons' :
  runLessons w totalLessons st lessons = (st', lessons', false) →
  processedLessons st' = (processedLessons st + length lessons)%nat.
Proof.
  revert st st' lessons'.
  induction lessons as [| lesson rest IH]; intros st st' lessons'.
  - cbn. intros [= <- <-]. lia.
  - cbn [runLessons]. destruct (cancelFlag w (clock st)); [done |].
    pose proof (processLesson_processed w totalLessons st lesson) as Hp.
    destruct (processLesson w totalLessons st lesson) as [sta lesson'].
    destruct (runLessons w totalLessons sta rest) as [[stb rest'] c] eqn:Hr.
    intros [= <- <- ->]. rewrite (IH _ _ _ Hr). cbn in Hp. rewrite Hp.
    cbn. lia.
Qed.

Lemma runChapters_uncancelled w totalLessons st chapters st' chapters' :
  runChapters w totalLessons st chapters = (st', chapters', false) →
  processedLessons st' = (processedLessons st + countLessons chapters)%nat.
Proof.
  revert st st' chapters'.
  induction chapters as [| chapter rest IH]; intros st st' chapters'.
  - cbn. intros [= <- <-]. lia.
  - cbn [runChapters].
    destruct (runLessons w totalLessons st (Chapter.lessons chapter))
      as [[sta ls] c] eqn:Hl.
    destruct c; [done |].
    destruct (runChapters w totalLessons sta rest) as [[stb rest'] c] eqn:Hr.
    intros [= <- <- ->].
    rewrite (IH _ _ _ Hr), (runLessons_uncancelled _ _ _ _ _ _ Hl).
    unfold countLessons. cbn. lia.
Qed.

(** C1. If the cancellation flag is set when the iteration of a lesson
    begins, the chapters and lessons before it having been processed
    without a cancellation, then the run stops there and returns a
    document with [cancelled = true]: the lessons before it are as the
    loop left them, that lesson and every later one are as the plan built
    them (content fields null, no error), and the last message sent is
    [tcs-cancelled] with the completed count reached so far.  Nothing is
    done for that lesson or after it: the locals at the end are those at
    that boundary ([st2]) with only the message added, so no further card
    is located or clicked, no time passes, and the lessons counted as
    processed are exactly those before it. *)
Theorem cancellation_stops_at_lesson_boundary :
  ∀ (w : World) (t0 : Z) (plan cpre cpost : list Chapter.t) (c : Chapter.t)
    (pre post : list Lesson.t) (l : Lesson.t)
    (st1 st2 : RunState) (cpre' : list Chapter.t) (pre' : list Lesson.t),
    buildChapters (findElements Selectors.chapterContainer (page w t0))
    = inr plan →
    plan = cpre ++ c :: cpost →
    Chapter.lessons c = pre ++ l :: post →
    runChapters w (countLessons plan) (initialState t0 (countLessons plan)) cpre
    = (st1, cpre', false) →
    runLessons w (countLessons plan) st1 pre = (st2, pre', false) →
    cancelFlag w (clock st2) = true →
    ∃ doc st,
      clickThroughAndScrapeCourse w t0 = (inr doc, st)
      ∧ Doc.cancelled doc = true
      ∧ Doc.chapters doc
        = cpre' ++ Chapter.setLessons c (pre' ++ l :: post) :: cpost
      ∧ Forall Lesson.untouched (l :: post ++ allLessons cpost)
      ∧ Doc.totalLessons doc = countLessons plan
      ∧ completed st = completed st2
      ∧ outbox st
        = outbox st2 ++ [TcsCancelled (completed st2) (countLessons plan)]
      ∧ st = sendMessage (TcsCancelled (completed st2) (countLessons plan)) st2
      ∧ clicks st = clicks st2
      ∧ clock st = clock st2
      ∧ Doc.extractedAt doc = clock st2
      ∧ processedLessons st = (countLessons cpre + length pre)%nat.
Proof.
  intros w t0 plan cpre cpost c pre post l st1 st2 cpre' pre'
         Hplan Hsplit Hc Hcpre Hpre Hflag.
  assert (Huntouched : Forall Lesson.untouched (l :: post ++ allLessons cpost)).
  { pose proof (buildChapters_untouched _ _ Hplan) as H.
    rewrite Hsplit, allLessons_app in H.
    apply Forall_app in H as [_ H]. unfold allLessons in H. cbn in H.
    rewrite Hc, <- app_assoc in H. apply Forall_app in H as [_ H].
    exact H. }
  assert (Hprocessed : processedLessons st2
                       = (countLessons cpre + length pre)%nat).
  { rewrite (runLessons_uncancelled _ _ _ _ _ _ Hpre),
            (runChapters_uncancelled _ _ _ _ _ _ Hcpre). done. }
  unfold clickThroughAndScrapeCourse.
  destruct (findElements Selectors.chapterContainer (page w t0))
    as [| e es] eqn:Hels.
  { cbn in Hplan. injection Hplan as <-. by destruct cpre. }
  cbn [length Nat.eqb]. rewrite Hplan.
  pose proof (runChapters_cancel_at _ _ _ _ _ cpost _ _ _ _ _ _ _
                Hc Hcpre Hpre Hflag) as Hrun.
  rewrite <- Hsplit in Hrun. cbv zeta. rewrite Hrun.
  eexists _, _. split; [done |]. cbn. by repeat split.
Qed.

Lemma cancellation_stops_at_lesson_boundary_witness :
  ∃ doc st,
    clickThroughAndScrapeCourse Fixture.cancelWorld 0 = (inr doc, st)
    ∧ Doc.cancelled doc = true
    ∧ map (λ l, (Lesson.title l, Lesson.content l, Lesson.error l))
          (allLessons (Doc.chapters doc))
      = [ ("Lesson A", Some "<p>Lesson A</p>", None);
          ("Lesson B", Some "<p>Lesson B</p>", None);
          ("Lesson C", None, None);
          ("Lesson D", None, None);
          ("Lesson E", None, None) ]
    ∧ completed st = 2%nat
    ∧ last (outbox st) = Some (TcsCancelled 2 5)
    ∧ processedLessons st = 2%nat
    ∧ length (clicks st) = 2%nat
    ∧ clock st = 3400%Z.
Proof.
  pose (mkL := λ ci li title, Lesson.mk ci li title "unknown" None None None None).
  pose (pre := [mkL 0 0 "Lesson A"; mkL 0 1 "Lesson B"]%nat).
  pose (l := mkL 0%nat 2%nat "Lesson C").
  pose (c := Chapter.mk "Chapter One" 0 (pre ++ [l])).
  pose (cpost := [Chapter.mk "Chapter Two" 1
                    [mkL 1 0 "Lesson D"; mkL 1 1 "Lesson E"]%nat]).
  pose (run := runLessons Fixture.cancelWorld 5 (initialState 0 5) pre).
  destruct (cancellation_stops_at_lesson_boundary
              Fixture.cancelWorld 0 (c :: cpost) [] cpost c pre [] l
              (initialState 0 5) run.1.1 [] run.1.2)
    as (doc & st & Hrun & Hcancelled & Hchapters & _ & _ & Hcompleted & Hout
        & _ & Hclicks & Hclock & _ & Hprocessed).
  - vm_compute. reflexivity.
  - reflexivity.
  - reflexivity.
  - reflexivity.
  - vm_compute. reflexivity.
  - vm_compute. reflexivity.
  - exists doc, st. split; [exact Hrun |]. split; [exact Hcancelled |].
    split; [rewrite Hchapters; vm_compute; reflexivity |].
    split; [rewrite Hcompleted; vm_compute; reflexivity |].
    split; [rewrite Hout, last_snoc; vm_compute; reflexivity |].
    split; [rewrite Hprocessed; reflexivity |].
    split; [rewrite Hclicks; vm_compute; reflexivity |].
    rewrite Hclock. vm_compute. reflexivity.
Defined.

(** C2, on the code. A lesson whose card cannot be located, and a lesson
    whose load wait times out, are processed without any [tcs-progress]
    message: in a two-lesson run where the second card has vanished, and
    in one where the editor never shows the first lesson, two lessons are
    processed and a single progress message is sent. *)
Theorem progress_skipped_after_failed_lesson :
  (∃ doc st,
      clickThroughAndScrapeCourse Fixture.vanishWorld 0 = (inr doc, st)
      ∧ map (λ l, (Lesson.title l, Lesson.error l)) (allLessons (Doc.chapters doc))
        = [ ("Lesson A", None);
            ("Lesson B", Some "Could not find lesson card in DOM") ]
      ∧ processedLessons st = 2%nat
      ∧ outbox st = [TcsInit 2; TcsProgress 1 2 "Lesson A"; TcsDone 1 2])
  ∧ (∃ doc st,
        clickThroughAndScrapeCourse Fixture.stuckWorld 0 = (inr doc, st)
        ∧ map (λ l, (Lesson.title l, Lesson.error l)) (allLessons (Doc.chapters doc))
          = [ ("Lesson A", Some timeoutMessage); ("Lesson B", None) ]
        ∧ processedLessons st = 2%nat
        ∧ outbox st = [TcsInit 2; TcsProgress 1 2 "Lesson B"; TcsDone 1 2]).
Proof.
  split; eexists _, _; (split; [vm_compute; reflexivity |]);
    repeat split; vm_compute; reflexivity.
Qed.

(** What the lesson body does when the load wait times out. *)
Lemma processLesson_timed_out w totalLessons st lesson card :
  findCard (findElements Selectors.lessonCard (page w (clock st)))
           (normalizeText (Lesson.title lesson)) = Some card →
  clickThrows w (sleepFrom w 200 (clock st)) = None →
  (waitForLessonLoaded w (Lesson.title lesson) 12000
     (sleepFrom w 500 (sleepFrom w 200 (clock st)))).1 = false →
  ∃ st1,
    processLesson w totalLessons st lesson
    = (st1, Lesson.setError lesson timeoutMessage)
    ∧ processedLessons st1 = S (processedLessons st)
    ∧ completed st1 = completed st
    ∧ outbox st1 = outbox st.
Proof.
  intros Hcard Hclick Hwait. unfold processLesson.
  cbn [clock completed processedLessons outbox clicks sleep setClock].
  rewrite Hcard, Hclick.
  destruct (waitForLessonLoaded _ _ _ _) as [loaded t].
  cbn in Hwait. subst loaded. cbn. eexists. by repeat split.
Qed.

(** C5. A lesson whose load wait never sees the expected title within the
    timeout gets its [error] set and its three content fields null, and the
    loop goes on with the lesson after it.  No failure of a lesson ends the
    run: once the plan is built, unless cancellation is requested, every
    lesson of the plan is processed and the run returns its document with
    [cancelled = false]. *)
Theorem lesson_failure_never_aborts :
  (∀ (w : World) (totalLessons : nat) (st : RunState)
     (lesson : Lesson.t) (rest : list Lesson.t) (card : Element),
      cancelFlag w (clock st) = false →
      findCard (findElements Selectors.lessonCard (page w (clock st)))
               (normalizeText (Lesson.title lesson)) = Some card →
      clickThrows w (sleepFrom w 200 (clock st)) = None →
      (waitForLessonLoaded w (Lesson.title lesson) 12000
         (sleepFrom w 500 (sleepFrom w 200 (clock st)))).1 = false →
      ∃ st1 lesson1,
        runLessons w totalLessons st (lesson :: rest)
        = (let '(st2, rest', cancelled) := runLessons w totalLessons st1 rest in
           (st2, lesson1 :: rest', cancelled))
        ∧ Lesson.error lesson1 = Some timeoutMessage
        ∧ Lesson.content lesson1 = None
        ∧ Lesson.textContent lesson1 = None
        ∧ Lesson.plainTextContent lesson1 = None
        ∧ Lesson.title lesson1 = Lesson.title lesson
        ∧ processedLessons st1 = S (processedLessons st))
  ∧ (∀ (w : World) (t0 : Z) (plan : list Chapter.t),
        (∀ t, cancelFlag w t = false) →
        findElements Selectors.chapterContainer (page w t0) ≠ [] →
        buildChapters (findElements Selectors.chapterContainer (page w t0))
        = inr plan →
        ∃ doc st,
          clickThroughAndScrapeCourse w t0 = (inr doc, st)
          ∧ Doc.cancelled doc = false
          ∧ Doc.totalLessons doc = countLessons plan
          ∧ processedLessons st = Doc.totalLessons doc
          ∧ length (allLessons (Doc.chapters doc)) = Doc.totalLessons doc
          ∧ last (outbox st)
            = Some (TcsDone (completed st) (Doc.totalLessons doc))).
Proof.
  split.
  - intros w totalLessons st lesson rest card Hflag Hcard Hclick Hwait.
    destruct (processLesson_timed_out w totalLessons st lesson card
                Hcard Hclick Hwait) as (st1 & Hproc & Hp & _ & _).
    exists st1, (Lesson.setError lesson timeoutMessage).
    rewrite runLessons_step by done. rewrite Hproc. cbn. by repeat split.
  - intros w t0 plan Hflag Hels Hplan. unfold clickThroughAndScrapeCourse.
    rewrite (proj2 (findElements_nonempty_length _ _) Hels). cbv zeta.
    rewrite Hplan.
    destruct (runChapters_all w (countLessons plan)
                (initialState t0 (countLessons plan)) plan Hflag)
      as (st & chapters' & -> & Hp & Hc & _).
    eexists _, _. split; [done |].
    cbn [Doc.cancelled Doc.chapters Doc.totalLessons
         processedLessons sendMessage outbox completed].
    split; [done |]. split; [done |]. split; [exact Hp |].
    split; [| by rewrite last_snoc].
    by rewrite length_allLessons, Hc.
Qed.

Lemma lesson_failure_never_aborts_witness :
  (∃ st1 lesson1,
      runLessons Fixture.stuckWorld 2 (initialState 0 2)
        [ Lesson.mk 0 0 "Lesson A" "unknown" None None None None;
          Lesson.mk 0 1 "Lesson B" "unknown" None None None None ]
      = (let '(st2, rest', cancelled) :=
           runLessons Fixture.stuckWorld 2 st1
             [ Lesson.mk 0 1 "Lesson B" "unknown" None None None None ] in
         (st2, lesson1 :: rest', cancelled))
      ∧ Lesson.error lesson1 = Some timeoutMessage
      ∧ Lesson.content lesson1 = None)
  ∧ (∃ doc st,
        clickThroughAndScrapeCourse Fixture.stuckWorld 0 = (inr doc, st)
        ∧ Doc.cancelled doc = false
        ∧ processedLessons st = 2%nat).
Proof.
  split.
  - destruct (proj1 lesson_failure_never_aborts Fixture.stuckWorld 2%nat
                (initialState 0 2)
                (Lesson.mk 0 0 "Lesson A" "unknown" None None None None)
                [ Lesson.mk 0 1 "Lesson B" "unknown" None None None None ]
                (Fixture.card "Lesson A")
                eq_refl eq_refl eq_refl eq_refl)
      as (st1 & lesson1 & Hrun & Herr & Hcontent & _).
    exists st1, lesson1. by repeat split.
  - destruct (proj2 lesson_failure_never_aborts Fixture.stuckWorld 0%Z
                [ Chapter.mk "Chapter One" 0
                    [ Lesson.mk 0 0 "Lesson A" "unknown" None None None None;
                      Lesson.mk 0 1 "Lesson B" "unknown" None None None None ] ])
      as (doc & st & Hrun & Hcancelled & Htotal & Hp & _).
    + reflexivity.
    + vm_compute. discriminate.
    + vm_compute. reflexivity.
    + exists doc, st. split; [exact Hrun |]. split; [exact Hcancelled |].
      rewrite Hp, Htotal. reflexivity.
Defined.

(* ===================================================================== *)
(** ** Trimming and collapsing                                            *)
(* ===================================================================== *)

(** From here on the selector cascades and the plan builder are not
    unfolded by simplification. *)
Arguments findElement : simpl never.
Arguments findElements : simpl never.
Arguments buildChapters : simpl never.
Arguments buildLessons : simpl never.

Lemma trimEnd_cons_keep c s :
  isWhiteSpace c = false → trimEnd (String c s) = String c (trimEnd s).
Proof. intros Hc. cbn. rewrite Hc. by destruct (trimEnd s). Qed.

Lemma trimEnd_cons_space c s :
  isWhiteSpace c = true →
  trimEnd (String c s)
  = match trimEnd s with
    | EmptyString => EmptyString
    | r => String c r
    end.
Proof. intros Hc. cbn. by rewrite Hc. Qed.

Lemma trimEnd_idemp s : trimEnd (trimEnd s) = trimEnd s.
Proof.
  induction s as [| c s IH]; [done |].
  destruct (isWhiteSpace c) eqn:Hc.
  - rewrite (trimEnd_cons_space c s Hc).
    destruct (trimEnd s) as [| c' r] eqn:Hs; [done |].
    rewrite (trimEnd_cons_space c _ Hc), IH. done.
  - rewrite !(trimEnd_cons_keep c _ Hc), IH. done.
Qed.

Lemma trimStart_idemp s : trimStart (trimStart s) = trimStart s.
Proof.
  induction s as [| c s IH]; [done |]. cbn.
  destruct (isWhiteSpace c) eqn:Hc; [done |]. cbn. by rewrite Hc.
Qed.

Lemma trimStart_trimEnd s : trimStart (trimEnd s) = trimEnd (trimStart s).
Proof.
  induction s as [| c s IH]; [done |].
  destruct (isWhiteSpace c) eqn:Hc.
  - rewrite (trimEnd_cons_space c s Hc). cbn [trimStart]. rewrite Hc, <- IH.
    destruct (trimEnd s) as [| c' r]; [done |]. cbn. by rewrite Hc.
  - rewrite (trimEnd_cons_keep c s Hc). cbn. by rewrite Hc, trimEnd_cons_keep.
Qed.

Lemma trim_idemp s : trim (trim s) = trim s.
Proof.
  unfold trim. by rewrite trimStart_trimEnd, trimStart_idemp, trimEnd_idemp.
Qed.

(** After leading white space is skipped nothing is left of it. *)
Lemma replaceRuns_true s : replaceRuns true s = replaceRuns false (trimStart s).
Proof.
  induction s as [| c s IH]; [done |]. cbn.
  destruct (isWhiteSpace c) eqn:Hc; [done |]. cbn. by rewrite Hc.
Qed.

Lemma trimStart_starts s :
  trimStart s = EmptyString
  ∨ ∃ c r, trimStart s = String c r ∧ isWhiteSpace c = false.
Proof.
  induction s as [| c s IH]; [by left |]. cbn.
  destruct (isWhiteSpace c) eqn:Hc; [done |]. right. by exists c, s.
Qed.

Lemma trimStart_replaceRuns s :
  trimStart (replaceRuns false s) = replaceRuns false (trimStart s).
Proof.
  destruct s as [| c s]; [done |]. cbn [replaceRuns trimStart].
  destruct (isWhiteSpace c) eqn:Hc.
  - cbn [trimStart]. change (isWhiteSpace " ") with true. cbn iota.
    rewrite replaceRuns_true.
    destruct (trimStart_starts s) as [-> | (c' & r & -> & Hc')]; [done |].
    cbn [replaceRuns trimStart]. rewrite !Hc'. cbn [trimStart].
    by rewrite Hc'.
  - cbn [trimStart replaceRuns]. by rewrite !Hc.
Qed.

Lemma replaceRuns_empty b s :
  replaceRuns b s = EmptyString → trimEnd s = EmptyString.
Proof.
  revert b. induction s as [| c s IH]; intros b; [done |]. cbn.
  destruct (isWhiteSpace c) eqn:Hc; [| done].
  destruct b; [| done]. intros H. by rewrite (IH _ H).
Qed.

Lemma replaceRuns_space b c s :
  isWhiteSpace c = true →
  replaceRuns b (String c s)
  = if b then replaceRuns true s else String " " (replaceRuns true s).
Proof. intros Hc. cbn. by rewrite Hc. Qed.

Lemma replaceRuns_keep b c s :
  isWhiteSpace c = false →
  replaceRuns b (String c s) = String c (replaceRuns false s).
Proof. intros Hc. cbn. by rewrite Hc. Qed.

Lemma trimEnd_replaceRuns b s :
  trimEnd (replaceRuns b s) = replaceRuns b (trimEnd s).
Proof.
  revert b. induction s as [| c s IH]; intros b; [done |].
  destruct (isWhiteSpace c) eqn:Hc.
  - rewrite (trimEnd_cons_space c s Hc), (replaceRuns_space b c s Hc).
    destruct b.
    + rewrite IH. destruct (trimEnd s) as [| c' r]; [done |].
      by rewrite (replaceRuns_space true c _ Hc).
    + rewrite trimEnd_cons_space by done. rewrite IH.
      destruct (trimEnd s) as [| c' r] eqn:Hs; [done |].
      rewrite (replaceRuns_space false c _ Hc).
      destruct (replaceRuns true (String c' r)) as [| c'' r'] eqn:Hr; [| done].
      apply replaceRuns_empty in Hr. rewrite <- Hs, trimEnd_idemp, Hs in Hr.
      discriminate.
  - rewrite (trimEnd_cons_keep c s Hc), !(replaceRuns_keep b c _ Hc).
    rewrite trimEnd_cons_keep by done. by rewrite IH.
Qed.

Lemma trim_collapseWhiteSpace s :
  trim (collapseWhiteSpace s) = collapseWhiteSpace (trim s).
Proof.
  unfold trim, collapseWhiteSpace.
  by rewrite trimStart_replaceRuns, trimEnd_replaceRuns.
Qed.

Lemma replaceRuns_idemp b s :
  replaceRuns b (replaceRuns b s) = replaceRuns b s.
Proof.
  revert b. induction s as [| c s IH]; intros b; [done |]. cbn.
  destruct (isWhiteSpace c) eqn:Hc.
  - destruct b; [apply IH |]. cbn. by rewrite IH.
  - cbn. by rewrite Hc, IH.
Qed.

Lemma normalize_idemp s : normalize (normalize s) = normalize s.
Proof.
  unfold normalize.
  rewrite <- (trim_collapseWhiteSpace (collapseWhiteSpace (trim s))).
  unfold collapseWhiteSpace at 1 2. rewrite replaceRuns_idemp.
  fold (collapseWhiteSpace (trim s)).
  by rewrite <- !trim_collapseWhiteSpace, trim_idemp.
Qed.

(* ===================================================================== *)
(** ** Text sanitisation                                                  *)
(* ===================================================================== *)

Lemma not_space_not_LF c : isWhiteSpace c = false → Ascii.eqb c LF = false.
Proof.
  intros Hc. destruct (Ascii.eqb_spec c LF) as [-> | Hne]; [| done].
  vm_compute in Hc. discriminate.
Qed.

Lemma replaceRuns_no_LF b s :
  allChars (fun c => negb (Ascii.eqb c LF)) (replaceRuns b s) = true.
Proof.
  revert b. induction s as [| c s IH]; intros b; [done |]. cbn.
  destruct (isWhiteSpace c) eqn:Hc.
  - destruct b; [apply IH |]. cbn. apply IH.
  - cbn. by rewrite (not_space_not_LF c Hc), IH.
Qed.

Lemma removeEmptyLines_no_LF s :
  allChars (fun c => negb (Ascii.eqb c LF)) s = true →
  removeEmptyLines 0 s = s.
Proof.
  induction s as [| c s IH]; [done |]. cbn.
  destruct (Ascii.eqb c LF); [done |]. cbn. intros H. by rewrite IH.
Qed.

(** X1. After the first replacement of [sanitizeText] no LINE FEED is left,
    so the replacement of empty lines never changes anything: the function
    is trimming plus white-space collapsing, it agrees with the [normalize]
    of the load wait on every string, [normalizeText] is its lower-cased
    form, and it is idempotent. *)
Theorem sanitizeText_is_normalize :
  ∀ text : string,
    removeEmptyLines 0 (collapseWhiteSpace text) = collapseWhiteSpace text
    ∧ sanitizeText text = normalize text
    ∧ normalizeText text = toLowerCase (sanitizeText text)
    ∧ sanitizeText (sanitizeText text) = sanitizeText text.
Proof.
  intros text.
  assert (H1 : removeEmptyLines 0 (collapseWhiteSpace text)
               = collapseWhiteSpace text).
  { apply removeEmptyLines_no_LF, replaceRuns_no_LF. }
  assert (H2 : ∀ s, sanitizeText s = normalize s).
  { intros s. unfold sanitizeText, normalize. destruct s as [| c s]; [done |].
    cbn [truthy].
    rewrite removeEmptyLines_no_LF by apply replaceRuns_no_LF.
    apply trim_collapseWhiteSpace. }
  split; [exact H1 |]. split; [apply H2 |]. split.
  - rewrite H2. unfold normalizeText, normalize. by destruct text.
  - rewrite !H2. apply normalize_idemp.
Qed.

(* ===================================================================== *)
(** ** File extensions                                                    *)
(* ===================================================================== *)

Section ExtensionCharacters.
Ltac all_chars c :=
  destruct c as [[] [] [] [] [] [] [] []]; vm_compute; try reflexivity;
  try discriminate.

Lemma isAlnum_asciiLower c : isAlnum (asciiLowerChar c) = isAlnum c.
Proof. all_chars c. Qed.

Lemma isAlnum_lower c : isAlnum c = true → isLowerAlnum (lowerChar c) = true.
Proof. all_chars c. Qed.

Lemma asciiLower_dot c : Ascii.eqb (asciiLowerChar c) "." = Ascii.eqb c ".".
Proof. all_chars c. Qed.

Lemma asciiLower_query c : Ascii.eqb (asciiLowerChar c) "?" = Ascii.eqb c "?".
Proof. all_chars c. Qed.

Lemma asciiLower_hash c : Ascii.eqb (asciiLowerChar c) "#" = Ascii.eqb c "#".
Proof. all_chars c. Qed.

Lemma lowerChar_asciiLower c : lowerChar (asciiLowerChar c) = lowerChar c.
Proof. all_chars c. Qed.
End ExtensionCharacters.

Lemma toLowerCase_idemp s : toLowerCase (toLowerCase s) = toLowerCase s.
Proof. induction s as [| c s IH]; [done |]. cbn. by rewrite lowerChar_idemp, IH. Qed.

Lemma toLowerCase_asciiLower s :
  toLowerCase (mapChars asciiLowerChar s) = toLowerCase s.
Proof.
  induction s as [| c s IH]; [done |]. cbn.
  by rewrite lowerChar_asciiLower, IH.
Qed.

Lemma allChars_takeRun P s : allChars P (takeRun P s) = true.
Proof.
  induction s as [| c s IH]; [done |]. cbn.
  destruct (P c) eqn:Hc; [| done]. cbn. by rewrite Hc.
Qed.

Lemma takeRun_asciiLower s :
  takeRun isAlnum (mapChars asciiLowerChar s)
  = mapChars asciiLowerChar (takeRun isAlnum s).
Proof.
  induction s as [| c s IH]; [done |]. cbn. rewrite isAlnum_asciiLower.
  destruct (isAlnum c); [| done]. cbn. by rewrite IH.
Qed.

Lemma dropRun_asciiLower s :
  dropRun isAlnum (mapChars asciiLowerChar s)
  = mapChars asciiLowerChar (dropRun isAlnum s).
Proof.
  induction s as [| c s IH]; [done |]. cbn. rewrite isAlnum_asciiLower.
  by destruct (isAlnum c).
Qed.

Lemma extensionAfterDot_asciiLower r :
  extensionAfterDot (mapChars asciiLowerChar r)
  = mapChars asciiLowerChar <$> extensionAfterDot r.
Proof.
  unfold extensionAfterDot.
  rewrite takeRun_asciiLower, dropRun_asciiLower.
  destruct (takeRun isAlnum r) as [| c run]; [done |]. cbn [mapChars].
  destruct (dropRun isAlnum r) as [| d rest]; [done |]. cbn [mapChars].
  rewrite asciiLower_query, asciiLower_hash.
  by destruct (Ascii.eqb d "?" || Ascii.eqb d "#").
Qed.

Lemma matchExtension_asciiLower url :
  matchExtension (mapChars asciiLowerChar url)
  = mapChars asciiLowerChar <$> matchExtension url.
Proof.
  induction url as [| c r IH]; [done |]. cbn [mapChars matchExtension].
  rewrite asciiLower_dot, extensionAfterDot_asciiLower, IH.
  destruct (Ascii.eqb c "."); [| done].
  by destruct (extensionAfterDot r).
Qed.

Lemma extensionAfterDot_run r run :
  extensionAfterDot r = Some run → run ≠ "" ∧ allChars isAlnum run = true.
Proof.
  unfold extensionAfterDot. pose proof (allChars_takeRun isAlnum r) as Hall.
  destruct (takeRun isAlnum r) as [| c t]; [done |].
  destruct (dropRun isAlnum r) as [| d rest].
  - by intros [= <-].
  - destruct (Ascii.eqb d "?" || Ascii.eqb d "#"); [| done]. by intros [= <-].
Qed.

Lemma matchExtension_run url run :
  matchExtension url = Some run → run ≠ "" ∧ allChars isAlnum run = true.
Proof.
  induction url as [| c r IH]; [done |]. cbn.
  destruct (Ascii.eqb c "."); [| done].
  destruct (extensionAfterDot r) as [run' |] eqn:Hr; [| done].
  intros [= <-]. by eapply extensionAfterDot_run.
Qed.

Lemma toLowerCase_alnum run :
  allChars isAlnum run = true → allChars isLowerAlnum (toLowerCase run) = true.
Proof.
  induction run as [| c run IH]; [done |]. cbn.
  intros [Hc Hrun]%andb_prop. by rewrite (isAlnum_lower c Hc), IH.
Qed.

(** X2. [extractFileExtension] always returns a non-empty string of digits
    and lower-case ASCII letters (the label ['unknown'] included), and it
    does not depend on the case of the ASCII letters of the URL; so
    neither does [isVideoFile]. *)
Theorem extractFileExtension_lowercase :
  ∀ url : string,
    extractFileExtension url ≠ ""
    ∧ allChars isLowerAlnum (extractFileExtension url) = true
    ∧ extractFileExtension (mapChars asciiLowerChar url)
      = extractFileExtension url
    ∧ isVideoFile (mapChars asciiLowerChar url) = isVideoFile url.
Proof.
  intros url.
  assert (Hcase : extractFileExtension (mapChars asciiLowerChar url)
                  = extractFileExtension url).
  { unfold extractFileExtension. rewrite matchExtension_asciiLower.
    destruct (matchExtension url); [| done]. cbn.
    apply toLowerCase_asciiLower. }
  unfold isVideoFile. rewrite Hcase.
  split; [| split; [| split; done]].
  - unfold extractFileExtension.
    destruct (matchExtension url) as [run |] eqn:Hm; [| done].
    destruct (matchExtension_run _ _ Hm) as [Hne _]. by destruct run.
  - unfold extractFileExtension.
    destruct (matchExtension url) as [run |] eqn:Hm; [| done].
    destruct (matchExtension_run _ _ Hm) as [_ Hall].
    by apply toLowerCase_alnum.
Qed.

Lemma append_nil s : EmptyString +:+ s = s.
Proof. reflexivity. Qed.

Lemma takeRun_before P r c q :
  P c = false → takeRun P (r +:+ String c q) = takeRun P r.
Proof.
  intros Hc. induction r as [| d r IH].
  - rewrite append_nil. cbn. by rewrite Hc.
  - rewrite append_cons. cbn. by rewrite IH.
Qed.

Lemma dropRun_before P r c q :
  P c = false →
  dropRun P (r +:+ String c q)
  = match dropRun P r with
    | EmptyString => String c q
    | rest => rest +:+ String c q
    end.
Proof.
  intros Hc. induction r as [| d r IH].
  - rewrite append_nil. cbn. by rewrite Hc.
  - rewrite append_cons. cbn. destruct (P d); [apply IH | done].
Qed.

Lemma extensionAfterDot_before r c q :
  Ascii.eqb c "?" || Ascii.eqb c "#" = true →
  extensionAfterDot (r +:+ String c q) = extensionAfterDot r.
Proof.
  intros Hc. assert (Hal : isAlnum c = false).
  { destruct (Ascii.eqb_spec c "?") as [-> | _]; [done |].
    destruct (Ascii.eqb_spec c "#") as [-> | _]; done. }
  unfold extensionAfterDot.
  rewrite (takeRun_before _ _ _ _ Hal), (dropRun_before _ _ _ _ Hal).
  destruct (takeRun isAlnum r) as [| a run]; [done |].
  destruct (dropRun isAlnum r) as [| d rest]; [by rewrite Hc |].
  by rewrite append_cons.
Qed.

Lemma matchExtension_before url c q run :
  Ascii.eqb c "?" || Ascii.eqb c "#" = true →
  matchExtension url = Some run →
  matchExtension (url +:+ String c q) = Some run.
Proof.
  intros Hc. induction url as [| d r IH]; [done |].
  rewrite append_cons. cbn [matchExtension].
  rewrite (extensionAfterDot_before _ _ _ Hc).
  destruct (Ascii.eqb d "."); [| done].
  by destruct (extensionAfterDot r).
Qed.

(** X3. Once a URL has an extension, anything appended to it behind a [?]
    or a [#] (a query string, a fragment) leaves the extension, and with it
    the video test, unchanged. *)
Theorem extractFileExtension_ignores_query :
  ∀ (url q : string) (c : ascii),
    extractFileExtension url ≠ "unknown" →
    c = "?"%char ∨ c = "#"%char →
    extractFileExtension (url +:+ String c q) = extractFileExtension url
    ∧ isVideoFile (url +:+ String c q) = isVideoFile url.
Proof.
  intros url q c Hext Hc.
  assert (Hcb : Ascii.eqb c "?" || Ascii.eqb c "#" = true).
  { by destruct Hc as [-> | ->]. }
  assert (H : extractFileExtension (url +:+ String c q)
              = extractFileExtension url).
  { unfold extractFileExtension in *.
    destruct (matchExtension url) as [run |] eqn:Hm; [| done].
    by rewrite (matchExtension_before _ _ _ _ Hcb Hm). }
  split; [exact H |]. unfold isVideoFile. by rewrite H.
Qed.

Lemma extractFileExtension_ignores_query_witness :
  extractFileExtension "https://cdn.example/clips/Intro.MP4?token=a.b" = "mp4"
  ∧ isVideoFile "https://cdn.example/clips/Intro.MP4?token=a.b" = true.
Proof.
  destruct (extractFileExtension_ignores_query
              "https://cdn.example/clips/Intro.MP4" "token=a.b" "?"%char)
    as [H1 H2].
  - vm_compute. discriminate.
  - by left.
  - split.
    + transitivity (extractFileExtension "https://cdn.example/clips/Intro.MP4");
        [exact H1 | reflexivity].
    + transitivity (isVideoFile "https://cdn.example/clips/Intro.MP4");
        [exact H2 | reflexivity].
Defined.

(* ===================================================================== *)
(** ** Substring tests, providers and video ids                           *)
(* ===================================================================== *)

Lemma includes_unfold s sub :
  includes s sub
  = String.prefix sub s
    || match s with
       | EmptyString => false
       | String _ r => includes r sub
       end.
Proof. by destruct s. Qed.

Lemma includes_prefix s sub : String.prefix sub s = true → includes s sub = true.
Proof. intros H. rewrite includes_unfold. by rewrite H. Qed.

Lemma includes_cons c s sub : includes s sub = true → includes (String c s) sub = true.
Proof. intros H. rewrite includes_unfold, H. apply orb_true_r. Qed.

Lemma prefix_cons a p b s :
  String.prefix (String a p) (String b s) = true ↔ a = b ∧ String.prefix p s = true.
Proof.
  cbn. destruct (ascii_dec a b) as [-> | Hne]; [tauto |].
  split; [done | by intros [? _]].
Qed.

Lemma prefix_append_includes a b s :
  String.prefix (a +:+ b) s = true → includes s b = true.
Proof.
  revert s. induction a as [| c a IH]; intros s.
  - rewrite append_nil. apply includes_prefix.
  - rewrite append_cons. destruct s as [| d s]; [done |].
    rewrite prefix_cons. intros [_ H]. by apply includes_cons, IH.
Qed.

(** A string that contains [a ++ b] contains [b]. *)
Lemma includes_append_r s a b :
  includes s (a +:+ b) = true → includes s b = true.
Proof.
  induction s as [| c s IH]; rewrite includes_unfold.
  - rewrite orb_false_r. apply prefix_append_includes.
  - intros [H | H]%orb_prop; [by eapply prefix_append_includes |].
    by apply includes_cons, IH.
Qed.

Lemma prefix_toLowerCase sub s :
  String.prefix sub s = true →
  String.prefix (toLowerCase sub) (toLowerCase s) = true.
Proof.
  revert s. induction sub as [| a sub IH]; intros s; [by destruct s |].
  destruct s as [| b s]; [done |]. cbn [toLowerCase].
  rewrite !prefix_cons. intros [-> H]. split; [done | by apply IH].
Qed.

Lemma includes_toLowerCase s sub :
  includes s sub = true → includes (toLowerCase s) (toLowerCase sub) = true.
Proof.
  induction s as [| c s IH]; rewrite includes_unfold.
  - rewrite orb_false_r. intros H. apply includes_prefix.
    by apply (prefix_toLowerCase sub "").
  - intros [H | H]%orb_prop.
    + apply includes_prefix. by apply (prefix_toLowerCase sub (String c s)).
    + cbn [toLowerCase]. by apply includes_cons, IH.
Qed.

Lemma truthy_toLowerCase s : truthy (toLowerCase s) = truthy s.
Proof. by destruct s. Qed.

(** X4. The second test of [isAwsS3Url] never decides: the function is
    ["amazonaws.com" occurs in the URL], for any Amazon host.  Whatever it
    accepts, [detectVideoProvider] gives a provider other than
    ['unknown']. *)
Theorem isAwsS3Url_any_amazon_host :
  ∀ url : string,
    isAwsS3Url url = includes url "amazonaws.com"
    ∧ (isAwsS3Url url = true → detectVideoProvider url ≠ "unknown").
Proof.
  intros url.
  assert (H : isAwsS3Url url = includes url "amazonaws.com").
  { unfold isAwsS3Url.
    destruct (includes url "amazonaws.com") eqn:Ha; [done |]. cbn.
    destruct (includes url "s3.amazonaws.com") eqn:Hs; [| done].
    apply (includes_append_r url "s3." "amazonaws.com") in Hs. congruence. }
  split; [exact H |]. rewrite H. intros Ha.
  unfold detectVideoProvider.
  destruct url as [| c url]; [done |]. cbn [truthy]. cbv zeta.
  apply includes_toLowerCase in Ha.
  change (toLowerCase "amazonaws.com") with "amazonaws.com" in Ha.
  rewrite Ha.
  repeat match goal with |- context [if ?b then _ else _] => destruct b end;
    done.
Qed.

Lemma isAwsS3Url_any_amazon_host_witness :
  isAwsS3Url "https://abc.execute-api.us-east-1.amazonaws.com/v1" = true
  ∧ detectVideoProvider "https://abc.execute-api.us-east-1.amazonaws.com/v1"
    ≠ "unknown".
Proof.
  split; [reflexivity |].
  exact (proj2 (isAwsS3Url_any_amazon_host
                  "https://abc.execute-api.us-east-1.amazonaws.com/v1")
               eq_refl).
Defined.

(** X5. [detectVideoProvider] does not depend on the letter case of the
    URL, and its answer is one of the five labels. *)
Theorem detectVideoProvider_case_insensitive :
  ∀ url : string,
    detectVideoProvider (toLowerCase url) = detectVideoProvider url
    ∧ detectVideoProvider url
      ∈ [ "vimeo"; "youtube"; "wistia"; "aws-s3"; "unknown" ].
Proof.
  intros url. split.
  - unfold detectVideoProvider.
    by rewrite truthy_toLowerCase, toLowerCase_idemp.
  - unfold detectVideoProvider. cbv zeta.
    repeat match goal with |- context [if ?b then _ else _] => destruct b end;
      rewrite !elem_of_cons; tauto.
Qed.

Lemma orNull_some s id : orNull s = Some id → id = s ∧ id ≠ "".
Proof. destruct s; [done |]. by intros [= <-]. Qed.

Lemma prefix_takeRun P r : String.prefix (takeRun P r) r = true.
Proof.
  induction r as [| c r IH]; [done |]. cbn [takeRun].
  destruct (P c); [by apply prefix_cons | done].
Qed.

Lemma stripPrefix_includes p s r x :
  stripPrefix p s = Some r → includes r x = true → includes s x = true.
Proof.
  revert s. induction p as [| a p IH]; intros s; cbn.
  - by intros [= ->].
  - destruct s as [| b s]; [done |]. destruct (Ascii.eqb a b); [| done].
    intros Hp Hx. by apply includes_cons, IH.
Qed.

Lemma literalThenRun_spec literal class s id :
  literalThenRun literal class s = Some id →
  id ≠ "" ∧ allChars class id = true ∧ includes s id = true.
Proof.
  unfold literalThenRun.
  destruct (stripPrefix literal s) as [r |] eqn:Hp; [| done].
  intros [-> Hne]%orNull_some. split; [done |].
  split; [apply allChars_takeRun |].
  eapply stripPrefix_includes; [done |]. apply includes_prefix, prefix_takeRun.
Qed.

Lemma searchFrom_spec {A} (matchAt : string → option A) s x :
  searchFrom matchAt s = Some x →
  ∃ t, matchAt t = Some x ∧ ∀ y, includes t y = true → includes s y = true.
Proof.
  induction s as [| c s IH]; cbn.
  - destruct (matchAt "") eqn:Hm; [| done]. intros [= ->]. by exists "".
  - destruct (matchAt (String c s)) eqn:Hm.
    + intros [= ->]. by exists (String c s).
    + intros (t & Ht & Hinc)%IH. exists t. split; [done |].
      intros y Hy. by apply includes_cons, Hinc.
Qed.

Lemma vimeoAt_spec s id :
  vimeoAt s = Some id →
  id ≠ "" ∧ allChars isDigit id = true ∧ includes s id = true.
Proof.
  unfold vimeoAt.
  destruct (stripPrefix "vimeo.com/" s) as [r |] eqn:Hp; [| done].
  destruct (literalThenRun "video/" isDigit r) as [digits |] eqn:Hv.
  - intros [= <-]. destruct (literalThenRun_spec _ _ _ _ Hv) as (? & ? & ?).
    repeat split; [done.. |]. by eapply stripPrefix_includes.
  - intros [-> Hne]%orNull_some. split; [done |].
    split; [apply allChars_takeRun |].
    eapply stripPrefix_includes; [done |].
    apply includes_prefix, prefix_takeRun.
Qed.

Lemma youtubeAt_spec s id :
  youtubeAt s = Some id →
  id ≠ "" ∧ allChars youtubeIdChar id = true ∧ includes s id = true.
Proof.
  unfold youtubeAt.
  destruct (literalThenRun "v=" youtubeIdChar s) eqn:H1.
  { intros [= <-]. by eapply literalThenRun_spec. }
  destruct (literalThenRun "/embed/" youtubeIdChar s) eqn:H2.
  { intros [= <-]. by eapply literalThenRun_spec. }
  apply literalThenRun_spec.
Qed.

(** X6. An id returned by [extractVideoId] is never empty and occurs in
    the URL as it stands; for Vimeo it consists of digits, for YouTube it
    has no [&], [?] or [/], for Wistia no [?] or [/].  No other provider
    gets an id. *)
Theorem extractVideoId_wellformed :
  ∀ url provider id : string,
    extractVideoId url provider = Some id →
    id ≠ "" ∧ includes url id = true
    ∧ ((provider = "vimeo" ∧ allChars isDigit id = true)
       ∨ (provider = "youtube" ∧ allChars youtubeIdChar id = true)
       ∨ (provider = "wistia" ∧ allChars wistiaIdChar id = true)).
Proof.
  intros url provider id. unfold extractVideoId.
  destruct (truthy url); [| done].
  destruct (String.eqb_spec provider "vimeo") as [-> | _].
  { intros (t & Ht & Hinc)%searchFrom_spec.
    destruct (vimeoAt_spec _ _ Ht) as (? & ? & ?).
    split; [done |]. split; [by apply Hinc |]. by left. }
  destruct (String.eqb_spec provider "youtube") as [-> | _].
  { intros (t & Ht & Hinc)%searchFrom_spec.
    destruct (youtubeAt_spec _ _ Ht) as (? & ? & ?).
    split; [done |]. split; [by apply Hinc |]. right. by left. }
  destruct (String.eqb_spec provider "wistia") as [-> | _]; [| done].
  intros (t & Ht & Hinc)%searchFrom_spec.
  destruct (literalThenRun_spec _ _ _ _ Ht) as (? & ? & ?).
  split; [done |]. split; [by apply Hinc |]. right. by right.
Qed.

Lemma extractVideoId_wellformed_witness :
  extractVideoId "https://player.vimeo.com/video/76979871?h=8272103f6e" "vimeo"
  = Some "76979871"
  ∧ includes "https://player.vimeo.com/video/76979871?h=8272103f6e" "76979871"
    = true.
Proof.
  split; [reflexivity |].
  exact (proj1 (proj2 (extractVideoId_wellformed
                         "https://player.vimeo.com/video/76979871?h=8272103f6e"
                         "vimeo" "76979871" eq_refl))).
Defined.

(* ===================================================================== *)
(** ** The plan and the document                                          *)
(* ===================================================================== *)

Lemma processLesson_key w totalLessons st lesson :
  lessonKey (processLesson w totalLessons st lesson).2 = lessonKey lesson.
Proof.
  unfold processLesson. cbn [clock completed processedLessons outbox clicks].
  destruct (findCard _ _); [| done].
  destruct (clickThrows _ _); [done |].
  destruct (waitForLessonLoaded _ _ _ _) as [[] t]; [| done].
  cbn. by destruct (extractLessonText _).
Qed.

Lemma runLessons_key w totalLessons st lessons :
  map lessonKey (runLessons w totalLessons st lessons).1.2
  = map lessonKey lessons.
Proof.
  revert st. induction lessons as [| lesson rest IH]; intros st; [done |].
  cbn [runLessons]. destruct (cancelFlag w (clock st)); [done |].
  pose proof (processLesson_key w totalLessons st lesson) as Hk.
  destruct (processLesson w totalLessons st lesson) as [st1 lesson'].
  specialize (IH st1).
  destruct (runLessons w totalLessons st1 rest) as [[st2 rest'] c].
  cbn in *. by rewrite Hk, IH.
Qed.

Lemma runChapters_key w totalLessons st chapters :
  map chapterKey (runChapters w totalLessons st chapters).1.2
  = map chapterKey chapters.
Proof.
  revert st. induction chapters as [| chapter rest IH]; intros st; [done |].
  cbn [runChapters].
  pose proof (runLessons_key w totalLessons st (Chapter.lessons chapter)) as Hk.
  destruct (runLessons w totalLessons st (Chapter.lessons chapter))
    as [[st1 lessons'] c].
  assert (Hc : chapterKey (Chapter.setLessons chapter lessons')
               = chapterKey chapter).
  { unfold chapterKey. cbn in *. by rewrite Hk. }
  destruct c; [cbn; by rewrite Hc |].
  specialize (IH st1).
  destruct (runChapters w totalLessons st1 rest) as [[st2 rest'] c'].
  cbn in *. by rewrite Hc, IH.
Qed.

(** A run that returns a document returns the plan's chapters, as the
    loops left them. *)
Lemma run_returns w t0 doc st :
  clickThroughAndScrapeCourse w t0 = (inr doc, st) →
  ∃ plan st1 cancelled,
    buildChapters (findElements Selectors.chapterContainer (page w t0))
    = inr plan
    ∧ runChapters w (countLessons plan)
        (initialState t0 (countLessons plan)) plan
      = (st1, Doc.chapters doc, cancelled)
    ∧ Doc.cancelled doc = cancelled
    ∧ Doc.totalLessons doc = countLessons plan
    ∧ Doc.totalChapters doc = length (Doc.chapters doc)
    ∧ Doc.extractedAt doc = clock st
    ∧ st = (if cancelled then st1
            else sendMessage (TcsDone (completed st1) (countLessons plan))
                             st1).
Proof.
  unfold clickThroughAndScrapeCourse.
  destruct (length _ =? 0)%nat; [done |]. cbv zeta.
  destruct (buildChapters _) as [message | plan]; [done |].
  destruct (runChapters _ _ _ _) as [[st1 chapters'] cancelled] eqn:Hloop.
  intros H. exists plan, st1, cancelled.
  pose proof (f_equal fst H) as Hdoc. pose proof (f_equal snd H) as Hst.
  clear H. cbn [fst snd] in Hdoc, Hst.
  assert (Hd : ∀ (x y : Doc.t), @inr string Doc.t x = inr y → x = y)
    by (intros x y Hxy; by injection Hxy).
  apply Hd in Hdoc. clear Hd.
  rewrite <- Hdoc, <- Hst. cbn [Doc.chapters Doc.cancelled Doc.totalLessons
                                Doc.totalChapters Doc.extractedAt].
  repeat split. exact Hloop.
Qed.

Lemma countLessons_key chapters chapters' :
  map chapterKey chapters' = map chapterKey chapters →
  countLessons chapters' = countLessons chapters.
Proof.
  revert chapters'. induction chapters as [| c cs IH]; intros [| c' cs'];
    try done.
  cbn. intros [= _ _ Hl Hcs]. unfold countLessons in *. cbn.
  rewrite (IH _ Hcs). f_equal.
  by rewrite <- (length_map lessonKey), Hl, length_map.
Qed.

Lemma run_plan_keys (w : World) (t0 : Z) (doc : Doc.t) (st : RunState) :
  clickThroughAndScrapeCourse w t0 = (inr doc, st) →
  ∃ plan,
    buildChapters (findElements Selectors.chapterContainer (page w t0))
    = inr plan
    ∧ map chapterKey (Doc.chapters doc) = map chapterKey plan.
Proof.
  intros Hrun.
  destruct (run_returns _ _ _ _ Hrun)
    as (plan & st1 & cancelled & Hplan & Hloop & _).
  exists plan. split; [exact Hplan |].
  pose proof (runChapters_key w (countLessons plan)
                (initialState t0 (countLessons plan)) plan) as Hkey.
  rewrite Hloop in Hkey. exact Hkey.
Qed.

(** X7. Whatever happens in the loop (failures, cancellation), the
    document has the plan's chapters and lessons with their titles, types
    and indices unchanged, and its [totalChapters] and [totalLessons] are
    those of the plan: the number of chapter containers found and the
    number of lesson entries, which is also the number of lessons in the
    document. *)
Theorem document_keeps_plan :
  ∀ (w : World) (t0 : Z) (doc : Doc.t) (st : RunState),
    clickThroughAndScrapeCourse w t0 = (inr doc, st) →
    ∃ plan,
      buildChapters (findElements Selectors.chapterContainer (page w t0))
      = inr plan
      ∧ map chapterKey (Doc.chapters doc) = map chapterKey plan
      ∧ Doc.totalChapters doc
        = length (findElements Selectors.chapterContainer (page w t0))
      ∧ Doc.totalLessons doc = length (allLessons (Doc.chapters doc))
      ∧ Doc.totalLessons doc = countLessons plan.
Proof.
  intros w t0 doc st Hrun.
  destruct (run_returns _ _ _ _ Hrun)
    as (plan & st1 & cancelled & Hplan & Hloop & _ & Htotal & Hchapters & _).
  pose proof (runChapters_key w (countLessons plan)
                (initialState t0 (countLessons plan)) plan) as Hkey.
  rewrite Hloop in Hkey. cbn [fst snd] in Hkey.
  exists plan. split; [exact Hplan |]. split; [exact Hkey |].
  split; [| split; [| exact Htotal]].
  - rewrite Hchapters, <- (length_map chapterKey), Hkey, length_map.
    by apply buildChapters_length.
  - rewrite Htotal, length_allLessons. symmetry.
    by apply countLessons_key.
Qed.

Lemma document_keeps_plan_witness :
  ∃ doc st,
    clickThroughAndScrapeCourse Fixture.cancelWorld 0 = (inr doc, st)
    ∧ Doc.totalChapters doc = 2%nat
    ∧ length (allLessons (Doc.chapters doc)) = 5%nat.
Proof.
  destruct (clickThroughAndScrapeCourse Fixture.cancelWorld 0)
    as [[message | doc] st] eqn:Hrun.
  { vm_compute in Hrun. discriminate Hrun. }
  exists doc, st. split; [reflexivity |].
  destruct (document_keeps_plan _ _ _ _ Hrun) as (plan & _ & _ & Hc & Hl & _).
  split; [exact Hc |]. rewrite <- Hl.
  vm_compute in Hrun. injection Hrun as <- _. reflexivity.
Defined.

Lemma lookup_map_key {A K} (key : A → K) (l l' : list A) i x :
  map key l' = map key l → l' !! i = Some x →
  ∃ y, l !! i = Some y ∧ key x = key y.
Proof.
  intros Hk Hx.
  assert (H : map key l' !! i = Some (key x)).
  { change (map key l') with (key <$> l'). by rewrite list_lookup_fmap, Hx. }
  rewrite Hk in H. change (map key l) with (key <$> l) in H.
  rewrite list_lookup_fmap in H.
  destruct (l !! i) as [y |]; [| done]. exists y. split; [done |].
  by injection H.
Qed.

(** X8. In the document, [chapterIndex] of a chapter is its position among
    the chapters, and [chapterIndex] and [lessonIndex] of a lesson are the
    position of its chapter and its own position within that chapter. *)
Theorem document_indices_are_positions :
  ∀ (w : World) (t0 : Z) (doc : Doc.t) (st : RunState),
    clickThroughAndScrapeCourse w t0 = (inr doc, st) →
    ∀ (i : nat) (c : Chapter.t),
      Doc.chapters doc !! i = Some c →
      Chapter.chapterIndex c = i
      ∧ ∀ (j : nat) (l : Lesson.t),
          Chapter.lessons c !! j = Some l →
          Lesson.chapterIndex l = i ∧ Lesson.lessonIndex l = j.
Proof.
  intros w t0 doc st Hrun i c Hc.
  destruct (run_plan_keys _ _ _ _ Hrun) as (plan & Hplan & Hkey).
  destruct (lookup_map_key _ _ _ _ _ Hkey Hc) as (c0 & Hc0 & Hk).
  destruct (buildChapters_lookup _ _ _ _ Hplan Hc0)
    as (chapterElement & lessons & _ & Hlessons & ->).
  injection Hk as _ Hci Hls. cbn in Hci, Hls.
  split; [done |]. intros j l Hl.
  destruct (lookup_map_key _ _ _ _ _ Hls Hl) as (l0 & Hl0 & Hlk).
  destruct (buildLessons_lookup _ _ _ _ _ Hlessons Hl0)
    as (card & lessonType & _ & _ & ->).
  injection Hlk as Hli Hlj _ _. cbn in Hli, Hlj. done.
Qed.

Lemma document_indices_are_positions_witness :
  ∃ doc st,
    clickThroughAndScrapeCourse Fixture.cancelWorld 0 = (inr doc, st)
    ∧ ∀ i c, Doc.chapters doc !! i = Some c → Chapter.chapterIndex c = i.
Proof.
  destruct (clickThroughAndScrapeCourse Fixture.cancelWorld 0)
    as [[message | doc] st] eqn:Hrun.
  { vm_compute in Hrun. discriminate Hrun. }
  exists doc, st. split; [reflexivity |]. intros i c Hc.
  exact (proj1 (document_indices_are_positions _ _ _ _ Hrun i c Hc)).
Defined.

Lemma isDigit_not_space c : isDigit c = true → isWhiteSpace c = false.
Proof.
  destruct c as [[] [] [] [] [] [] [] []]; vm_compute; try reflexivity;
    discriminate.
Qed.

Lemma isDigit_digitChar d : d < 10 → isDigit (digitChar d) = true.
Proof.
  intros H. do 10 (destruct d as [| d]; [reflexivity |]). lia.
Qed.

Lemma natToStringAux_digits fuel n acc :
  allChars isDigit acc = true →
  allChars isDigit (natToStringAux fuel n acc) = true.
Proof.
  revert n acc. induction fuel as [| fuel IH]; intros n acc Hacc; [done |].
  cbn [natToStringAux].
  assert (Hd : allChars isDigit (String (digitChar (n mod 10)) acc) = true).
  { cbn [allChars]. rewrite isDigit_digitChar; [done |].
    apply Nat.mod_upper_bound. lia. }
  destruct (n <? 10)%nat; [done | by apply IH].
Qed.

Lemma natToStringAux_nonempty fuel n acc :
  acc ≠ "" ∨ 0 < fuel → natToStringAux fuel n acc ≠ "".
Proof.
  revert n acc. induction fuel as [| fuel IH]; intros n acc H.
  - cbn. destruct H as [H | H]; [done | lia].
  - cbn [natToStringAux]. destruct (n <? 10)%nat; [done |].
    apply IH. by left.
Qed.

Lemma trimEnd_no_space s :
  allChars (fun c => negb (isWhiteSpace c)) s = true → trimEnd s = s.
Proof.
  induction s as [| c s IH]; [done |]. cbn [allChars].
  intros [Hc Hs]%andb_prop. apply negb_true_iff in Hc.
  by rewrite trimEnd_cons_keep, IH.
Qed.

Lemma allChars_impl (P Q : ascii → bool) s :
  (∀ c, P c = true → Q c = true) → allChars P s = true → allChars Q s = true.
Proof.
  intros HPQ. induction s as [| c s IH]; [done |]. cbn.
  intros [Hc Hs]%andb_prop. by rewrite (HPQ c Hc), IH.
Qed.

Lemma trimEnd_natToString n : trimEnd (natToString n) = natToString n.
Proof.
  apply trimEnd_no_space. apply (allChars_impl isDigit).
  - intros c Hc. by rewrite (isDigit_not_space c Hc).
  - by apply natToStringAux_digits.
Qed.

Lemma natToString_nonempty n : natToString n ≠ "".
Proof. apply natToStringAux_nonempty. right. lia. Qed.

Lemma properTitle_lesson_fallback n : properTitle ("Lesson " +:+ natToString n).
Proof.
  split; [done |]. unfold trim.
  change ("Lesson " +:+ natToString n)
    with (String "L" (String "e" (String "s" (String "s" (String "o"
            (String "n" (String " " (natToString n)))))))).
  cbn [trimStart]. change (isWhiteSpace "L") with false. cbn iota.
  rewrite !trimEnd_cons_keep by reflexivity.
  rewrite trimEnd_cons_space by reflexivity. rewrite trimEnd_natToString.
  pose proof (natToString_nonempty n). by destruct (natToString n).
Qed.

Lemma properTitle_chapter_fallback n : properTitle ("Chapter " +:+ natToString n).
Proof.
  split; [done |]. unfold trim.
  change ("Chapter " +:+ natToString n)
    with (String "C" (String "h" (String "a" (String "p" (String "t"
            (String "e" (String "r" (String " " (natToString n))))))))).
  cbn [trimStart]. change (isWhiteSpace "C") with false. cbn iota.
  rewrite !trimEnd_cons_keep by reflexivity.
  rewrite trimEnd_cons_space by reflexivity. rewrite trimEnd_natToString.
  pose proof (natToString_nonempty n). by destruct (natToString n).
Qed.

Lemma properTitle_titleOr el fallback :
  properTitle fallback → properTitle (titleOr el fallback).
Proof.
  intros Hf. destruct el as [e |]; [| done]. cbn. unfold orElse.
  destruct (trim (textContent e)) as [| c r] eqn:Ht; [done |]. cbn.
  split; [done |]. rewrite <- Ht. apply trim_idemp.
Qed.

Lemma buildChapters_proper chapterElements plan :
  buildChapters chapterElements = inr plan →
  Forall properKey (map chapterKey plan).
Proof.
  intros Hplan. apply Forall_lookup. intros i k.
  change (map chapterKey ?l) with (chapterKey <$> l).
  rewrite list_lookup_fmap.
  destruct (plan !! i) as [c |] eqn:Hc; [| done]. intros [= <-].
  destruct (buildChapters_lookup _ _ _ _ Hplan Hc)
    as (chapterElement & lessons & _ & Hlessons & ->).
  split; cbn.
  - apply properTitle_titleOr, properTitle_chapter_fallback.
  - apply Forall_lookup. intros j lk.
    change (map lessonKey ?l) with (lessonKey <$> l).
    rewrite list_lookup_fmap.
    destruct (lessons !! j) as [l |] eqn:Hl; [| done]. intros [= <-].
    destruct (buildLessons_lookup _ _ _ _ _ Hlessons Hl)
      as (card & lessonType & _ & _ & ->). cbn.
    apply properTitle_titleOr, properTitle_lesson_fallback.
Qed.

(** X9. Every chapter title and every lesson title of the document is
    non-empty and has no white space at either end, also when it is one of
    the fall-backs ['Chapter N'] and ['Lesson N']. *)
Theorem document_titles_proper :
  ∀ (w : World) (t0 : Z) (doc : Doc.t) (st : RunState),
    clickThroughAndScrapeCourse w t0 = (inr doc, st) →
    Forall (fun c =>
              properTitle (Chapter.chapterTitle c)
              ∧ Forall (fun l => properTitle (Lesson.title l))
                       (Chapter.lessons c))
           (Doc.chapters doc).
Proof.
  intros w t0 doc st Hrun.
  destruct (run_plan_keys _ _ _ _ Hrun) as (plan & Hplan & Hkey).
  pose proof (buildChapters_proper _ _ Hplan) as Hp.
  rewrite <- Hkey in Hp.
  change (map chapterKey ?l) with (chapterKey <$> l) in Hp.
  rewrite Forall_fmap in Hp. eapply Forall_impl; [exact Hp |].
  intros c [Hc Hl]. split; [exact Hc |]. cbn in Hl.
  change (map lessonKey ?l) with (lessonKey <$> l) in Hl.
  rewrite Forall_fmap in Hl. exact Hl.
Qed.

Lemma document_titles_proper_witness :
  ∃ doc st,
    clickThroughAndScrapeCourse Fixture.stuckWorld 0 = (inr doc, st)
    ∧ Forall (fun c => properTitle (Chapter.chapterTitle c)) (Doc.chapters doc).
Proof.
  destruct (clickThroughAndScrapeCourse Fixture.stuckWorld 0)
    as [[message | doc] st] eqn:Hrun.
  { vm_compute in Hrun. discriminate Hrun. }
  exists doc, st. split; [reflexivity |].
  eapply Forall_impl; [exact (document_titles_proper _ _ _ _ Hrun) |].
  by intros c [Hc _].
Defined.

Lemma untouched_contentOrError l : Lesson.untouched l → contentOrError l.
Proof. intros (Hc & Ht & Hp & He). split; [by left | congruence]. Qed.

Lemma processLesson_contentOrError w totalLessons st lesson :
  Lesson.error lesson = None →
  contentOrError (processLesson w totalLessons st lesson).2.
Proof.
  intros He. unfold processLesson.
  cbn [clock completed processedLessons outbox clicks].
  destruct (findCard _ _); [| by split; [right |]].
  destruct (clickThrows _ _); [by split; [right |] |].
  destruct (waitForLessonLoaded _ _ _ _) as [[] t]; [| by split; [right |]].
  cbn. destruct (extractLessonText _); [| by split; [right |]].
  split; [by left | done].
Qed.

Lemma runLessons_contentOrError w totalLessons st lessons :
  Forall Lesson.untouched lessons →
  Forall contentOrError (runLessons w totalLessons st lessons).1.2.
Proof.
  revert st. induction lessons as [| lesson rest IH]; intros st Hall.
  - constructor.
  - apply Forall_cons in Hall as [Hl Hrest]. cbn [runLessons].
    destruct (cancelFlag w (clock st)).
    + cbn. constructor; [by apply untouched_contentOrError |].
      eapply Forall_impl; [exact Hrest | apply untouched_contentOrError].
    + pose proof (processLesson_contentOrError w totalLessons st lesson
                    (proj2 (proj2 (proj2 Hl)))) as Hp.
      destruct (processLesson w totalLessons st lesson) as [st1 lesson'].
      specialize (IH st1 Hrest).
      destruct (runLessons w totalLessons st1 rest) as [[st2 rest'] c].
      cbn in *. by constructor.
Qed.

Lemma runChapters_contentOrError w totalLessons st chapters :
  Forall Lesson.untouched (allLessons chapters) →
  Forall contentOrError
         (allLessons (runChapters w totalLessons st chapters).1.2).
Proof.
  revert st. induction chapters as [| chapter rest IH]; intros st Hall.
  - constructor.
  - change (allLessons (chapter :: rest))
      with (Chapter.lessons chapter ++ allLessons rest) in Hall.
    apply Forall_app in Hall as [Hc Hrest]. cbn [runChapters].
    pose proof (runLessons_contentOrError w totalLessons st _ Hc) as Hl.
    destruct (runLessons w totalLessons st (Chapter.lessons chapter))
      as [[st1 lessons'] c].
    destruct c.
    + cbn in *.
      change (allLessons (Chapter.setLessons chapter lessons' :: rest))
        with (lessons' ++ allLessons rest).
      apply Forall_app. split; [done |].
      eapply Forall_impl; [exact Hrest | apply untouched_contentOrError].
    + specialize (IH st1 Hrest).
      destruct (runChapters w totalLessons st1 rest) as [[st2 rest'] c'].
      cbn in *.
      change (allLessons (Chapter.setLessons chapter lessons' :: rest'))
        with (lessons' ++ allLessons rest').
      apply Forall_app. by split.
Qed.

(** X10. No lesson of a returned document carries both an error and
    content: where [error] is set, the three content fields are null; and
    [textContent] always equals [plainTextContent]. *)
Theorem document_content_or_error :
  ∀ (w : World) (t0 : Z) (doc : Doc.t) (st : RunState),
    clickThroughAndScrapeCourse w t0 = (inr doc, st) →
    Forall contentOrError (allLessons (Doc.chapters doc)).
Proof.
  intros w t0 doc st Hrun.
  destruct (run_returns _ _ _ _ Hrun)
    as (plan & st1 & cancelled & Hplan & Hloop & _).
  pose proof (runChapters_contentOrError w (countLessons plan)
                (initialState t0 (countLessons plan)) plan
                (buildChapters_untouched _ _ Hplan))
    as H.
  by rewrite Hloop in H.
Qed.

Lemma document_content_or_error_witness :
  ∃ doc st,
    clickThroughAndScrapeCourse Fixture.stuckWorld 0 = (inr doc, st)
    ∧ Forall contentOrError (allLessons (Doc.chapters doc)).
Proof.
  destruct (clickThroughAndScrapeCourse Fixture.stuckWorld 0)
    as [[message | doc] st] eqn:Hrun.
  { vm_compute in Hrun. discriminate Hrun. }
  exists doc, st. split; [reflexivity |].
  exact (document_content_or_error _ _ _ _ Hrun).
Defined.

(* ===================================================================== *)
(** ** The message protocol                                               *)
(* ===================================================================== *)

Lemma progressMessages_snoc totalLessons titles title :
  progressMessages totalLessons (titles ++ [title])
  = progressMessages totalLessons titles
    ++ [TcsProgress (S (length titles)) totalLessons title].
Proof.
  unfold progressMessages. rewrite imap_app. cbn. by rewrite Nat.add_0_r.
Qed.

Lemma processLesson_protocol w totalLessons st lesson titles :
  inProtocol totalLessons st titles false →
  ∃ extra,
    sublist extra [Lesson.title lesson]
    ∧ inProtocol totalLessons (processLesson w totalLessons st lesson).1
                 (titles ++ extra) false
    ∧ processedLessons (processLesson w totalLessons st lesson).1
      = S (processedLessons st).
Proof.
  intros (Hout & Hcompleted & Hle).
  assert (Hskip : ∀ t, inProtocol totalLessons
                         (mkRunState t (completed st) (S (processedLessons st))
                                     (outbox st) (clicks st))
                         (titles ++ []) false).
  { intros t. rewrite app_nil_r. split; [done |]. split; [done |]. cbn. lia. }
  unfold processLesson. cbn [clock completed processedLessons outbox clicks].
  destruct (findCard _ _).
  2: { exists []. split; [apply sublist_nil_l |]. split; [apply Hskip | done]. }
  destruct (clickThrows _ _).
  { exists []. split; [apply sublist_nil_l |]. split; [apply Hskip | done]. }
  destruct (waitForLessonLoaded _ _ _ _) as [[] t].
  2: { exists []. split; [apply sublist_nil_l |].
       split; [| done]. rewrite app_nil_r. cbn. split; [done |].
       split; [done |]. cbn. lia. }
  exists [Lesson.title lesson]. split; [done |]. cbn. split; [| done].
  split; [| split].
  - cbn. rewrite Hout. unfold sentSoFar. rewrite !app_nil_r.
    rewrite progressMessages_snoc, Hcompleted. cbn.
    by destruct (extractLessonText _).
  - cbn. rewrite length_app, Hcompleted. cbn. lia.
  - cbn. lia.
Qed.

Lemma runLessons_protocol w totalLessons st lessons titles :
  inProtocol totalLessons st titles false →
  ∃ extra,
    sublist extra (map Lesson.title lessons)
    ∧ inProtocol totalLessons (runLessons w totalLessons st lessons).1.1
                 (titles ++ extra) (runLessons w totalLessons st lessons).2
    ∧ (processedLessons (runLessons w totalLessons st lessons).1.1
       ≤ processedLessons st + length lessons)%nat.
Proof.
  revert st titles. induction lessons as [| lesson rest IH]; intros st titles Hin.
  - exists []. rewrite app_nil_r. cbn. split; [done |]. split; [done | lia].
  - cbn [runLessons]. destruct (cancelFlag w (clock st)).
    + exists []. rewrite app_nil_r. split; [apply sublist_nil_l |]. cbn.
      destruct Hin as (Hout & Hcompleted & Hle). split; [| lia].
      split; [| done]. cbn. rewrite Hout, Hcompleted. unfold sentSoFar.
      by rewrite app_nil_r.
    + destruct (processLesson_protocol w totalLessons st lesson titles Hin)
        as (e1 & Hs1 & Hin1 & Hp1).
      destruct (processLesson w totalLessons st lesson) as [st1 lesson'].
      cbn in Hin1, Hp1.
      destruct (IH st1 (titles ++ e1) Hin1) as (e2 & Hs2 & Hin2 & Hp2).
      destruct (runLessons w totalLessons st1 rest) as [[st2 rest'] c].
      cbn in *. exists (e1 ++ e2). rewrite app_assoc.
      split; [| split; [done | lia]].
      change (Lesson.title lesson :: map Lesson.title rest)
        with ([Lesson.title lesson] ++ map Lesson.title rest).
      by apply sublist_app.
Qed.

Lemma runChapters_protocol w totalLessons st chapters titles :
  inProtocol totalLessons st titles false →
  ∃ extra,
    sublist extra (map Lesson.title (allLessons chapters))
    ∧ inProtocol totalLessons (runChapters w totalLessons st chapters).1.1
                 (titles ++ extra) (runChapters w totalLessons st chapters).2
    ∧ (processedLessons (runChapters w totalLessons st chapters).1.1
       ≤ processedLessons st + countLessons chapters)%nat.
Proof.
  revert st titles.
  induction chapters as [| chapter rest IH]; intros st titles Hin.
  - exists []. rewrite app_nil_r. cbn. split; [done |]. split; [done | lia].
  - cbn [runChapters].
    destruct (runLessons_protocol w totalLessons st
                (Chapter.lessons chapter) titles Hin)
      as (e1 & Hs1 & Hin1 & Hp1).
    destruct (runLessons w totalLessons st (Chapter.lessons chapter))
      as [[st1 lessons'] c].
    change (allLessons (chapter :: rest))
      with (Chapter.lessons chapter ++ allLessons rest).
    rewrite map_app.
    assert (Hcount : countLessons (chapter :: rest)
                     = length (Chapter.lessons chapter) + countLessons rest)
      by done.
    cbn in Hin1, Hp1. destruct c.
    + exists e1. cbn. split; [by apply sublist_inserts_r |].
      split; [done | lia].
    + destruct (IH st1 (titles ++ e1) Hin1) as (e2 & Hs2 & Hin2 & Hp2).
      destruct (runChapters w totalLessons st1 rest) as [[st2 rest'] c'].
      cbn in *. exists (e1 ++ e2). rewrite app_assoc.
      split; [by apply sublist_app |]. split; [done | lia].
Qed.

Lemma allLessons_titles chapters chapters' :
  map chapterKey chapters' = map chapterKey chapters →
  map Lesson.title (allLessons chapters')
  = map Lesson.title (allLessons chapters).
Proof.
  revert chapters'. induction chapters as [| c cs IH]; intros [| c' cs'];
    try done.
  cbn [map]. intros [= _ _ Hl Hcs].
  change (allLessons (c' :: cs')) with (Chapter.lessons c' ++ allLessons cs').
  change (allLessons (c :: cs)) with (Chapter.lessons c ++ allLessons cs).
  rewrite !map_app, (IH _ Hcs). f_equal.
  assert (H : ∀ ls, map Lesson.title ls
                    = map (fun k : nat * nat * string * string => k.1.2)
                          (map lessonKey ls)).
  { intros ls. rewrite map_map. by apply map_ext. }
  by rewrite !H, Hl.
Qed.

Lemma run_outbox_shape :
  ∀ (w : World) (t0 : Z) (doc : Doc.t) (st : RunState),
    clickThroughAndScrapeCourse w t0 = (inr doc, st) →
    ∃ titles : list string,
      outbox st
      = TcsInit (Doc.totalLessons doc)
        :: progressMessages (Doc.totalLessons doc) titles
        ++ [if Doc.cancelled doc
            then TcsCancelled (length titles) (Doc.totalLessons doc)
            else TcsDone (length titles) (Doc.totalLessons doc)]
      ∧ completed st = length titles
      ∧ sublist titles (map Lesson.title (allLessons (Doc.chapters doc)))
      ∧ (completed st ≤ processedLessons st)%nat
      ∧ (processedLessons st ≤ Doc.totalLessons doc)%nat.
Proof.
  intros w t0 doc st Hrun.
  destruct (run_returns _ _ _ _ Hrun)
    as (plan & st1 & cancelled & Hplan & Hloop & Hcancelled & Htotal
        & _ & _ & Hst).
  assert (Hkey : map chapterKey (Doc.chapters doc) = map chapterKey plan).
  { pose proof (runChapters_key w (countLessons plan)
                  (initialState t0 (countLessons plan)) plan) as Hkey.
    by rewrite Hloop in Hkey. }
  set (total := countLessons plan) in *.
  assert (Hinit : inProtocol total (initialState t0 total) [] false).
  { split; [done |]. split; [done |]. cbn. lia. }
  destruct (runChapters_protocol w total _ plan [] Hinit)
    as (titles & Hsub & (Hout & Hcompleted & Hle) & Hp).
  rewrite Hloop in Hout, Hcompleted, Hle, Hp. cbn in Hout, Hcompleted, Hle, Hp.
  exists titles. rewrite Htotal, Hcancelled, (allLessons_titles _ _ Hkey).
  split; [| split; [| split; [done |]]].
  - rewrite Hst. destruct cancelled; [done |].
    cbn. rewrite Hout, Hcompleted. unfold sentSoFar. by rewrite app_nil_r.
  - rewrite Hst. by destruct cancelled.
  - rewrite Hst. destruct cancelled; cbn; lia.
Qed.

(** X11. The messages of a run that returns a document are, in order:
    [tcs-init] with the plan's lesson count; one [tcs-progress] per
    completed lesson, numbered 1, 2, 3, ... without gaps and carrying
    lesson titles in plan order; then exactly one closing message,
    [tcs-cancelled] if the document says [cancelled] and [tcs-done]
    otherwise, carrying the final completed count.  The completed count
    never exceeds the number of lessons processed, which never exceeds the
    plan's lesson count. *)
Theorem run_message_protocol :
  ∀ (w : World) (t0 : Z) (doc : Doc.t) (st : RunState),
    clickThroughAndScrapeCourse w t0 = (inr doc, st) →
    ∃ titles : list string,
      outbox st
      = TcsInit (Doc.totalLessons doc)
        :: progressMessages (Doc.totalLessons doc) titles
        ++ [if Doc.cancelled doc
            then TcsCancelled (length titles) (Doc.totalLessons doc)
            else TcsDone (length titles) (Doc.totalLessons doc)]
      ∧ completed st = length titles
      ∧ sublist titles (map Lesson.title (allLessons (Doc.chapters doc)))
      ∧ (completed st ≤ processedLessons st)%nat
      ∧ (processedLessons st ≤ Doc.totalLessons doc)%nat.
Proof. exact run_outbox_shape. Qed.

Lemma run_message_protocol_witness :
  ∃ doc st,
    clickThroughAndScrapeCourse Fixture.cancelWorld 0 = (inr doc, st)
    ∧ (completed st ≤ processedLessons st)%nat
    ∧ (processedLessons st ≤ Doc.totalLessons doc)%nat.
Proof.
  destruct (clickThroughAndScrapeCourse Fixture.cancelWorld 0)
    as [[message | doc] st] eqn:Hrun.
  { vm_compute in Hrun. discriminate Hrun. }
  exists doc, st. split; [reflexivity |].
  destruct (run_message_protocol _ _ _ _ Hrun) as (titles & _ & _ & _ & H).
  exact H.
Defined.

(* ===================================================================== *)
(** ** Duration of a run                                                  *)
(* ===================================================================== *)

Section ExactTimers.
Variable w : World.
Hypothesis exact : ∀ t, overshoot w t = O.

Lemma sleepFrom_exact ms t : sleepFrom w ms t = (t + ms)%Z.
Proof. unfold sleepFrom. rewrite exact. lia. Qed.

Lemma waitLoop_duration expected m fuel start now k :
  (now - start = 500 * k)%Z → (now - start ≤ 500 * m)%Z →
  (now ≤ (waitLoop w expected (500 * m) fuel start now).2
   ≤ start + 500 * m)%Z.
Proof.
  revert now k. induction fuel as [| fuel IH]; intros now k Hk Hle.
  - cbn. lia.
  - cbn [waitLoop].
    destruct (Z.ltb_spec (now - start) (500 * m)) as [Hlt | Hge]; [| cbn; lia].
    rewrite sleepFrom_exact.
    destruct (editorShows _ _); [cbn; lia |].
    assert (now + 500 - start = 500 * (k + 1))%Z as Hk' by lia.
    specialize (IH (now + 500)%Z (k + 1)%Z Hk'). lia.
Qed.

Lemma processLesson_duration totalLessons st lesson :
  (clock st ≤ clock (processLesson w totalLessons st lesson).1
   ≤ clock st + 13200)%Z.
Proof.
  unfold processLesson.
  cbn [clock completed processedLessons outbox clicks sleep setClock].
  destruct (findCard _ _); [| cbn; lia].
  rewrite !sleepFrom_exact.
  destruct (clickThrows _ _);
    [cbn; unfold sleepFrom; rewrite ?exact; lia |].
  unfold waitForLessonLoaded.
  pose proof (waitLoop_duration (normalize (Lesson.title lesson)) 24
                (pollBudget 12000) (clock st + 200 + 500)
                (clock st + 200 + 500) 0) as Hw.
  change (500 * 24)%Z with 12000%Z in Hw.
  destruct (waitLoop _ _ _ _ _ _) as [[] t]; cbn in Hw |- *;
    unfold sleepFrom; rewrite ?exact; lia.
Qed.

Lemma runLessons_duration totalLessons st lessons :
  (processedLessons st
   ≤ processedLessons (runLessons w totalLessons st lessons).1.1)%nat
  ∧ (clock st ≤ clock (runLessons w totalLessons st lessons).1.1
     ≤ clock st
       + 13200 * (Z.of_nat
                    (processedLessons (runLessons w totalLessons st lessons).1.1)
                  - Z.of_nat (processedLessons st)))%Z.
Proof.
  revert st. induction lessons as [| lesson rest IH]; intros st.
  - cbn. lia.
  - cbn [runLessons]. destruct (cancelFlag w (clock st)); [cbn; lia |].
    pose proof (processLesson_duration totalLessons st lesson) as Hd.
    pose proof (processLesson_processed w totalLessons st lesson) as Hp.
    destruct (processLesson w totalLessons st lesson) as [st1 lesson'].
    specialize (IH st1).
    destruct (runLessons w totalLessons st1 rest) as [[st2 rest'] c].
    cbn in *. lia.
Qed.

Lemma runChapters_duration totalLessons st chapters :
  (processedLessons st
   ≤ processedLessons (runChapters w totalLessons st chapters).1.1)%nat
  ∧ (clock st ≤ clock (runChapters w totalLessons st chapters).1.1
     ≤ clock st
       + 13200 * (Z.of_nat
                    (processedLessons
                       (runChapters w totalLessons st chapters).1.1)
                  - Z.of_nat (processedLessons st)))%Z.
Proof.
  revert st. induction chapters as [| chapter rest IH]; intros st.
  - cbn. lia.
  - cbn [runChapters].
    pose proof (runLessons_duration totalLessons st (Chapter.lessons chapter))
      as Hd.
    destruct (runLessons w totalLessons st (Chapter.lessons chapter))
      as [[st1 lessons'] c].
    destruct c; [cbn in *; lia |].
    specialize (IH st1).
    destruct (runChapters w totalLessons st1 rest) as [[st2 rest'] c'].
    cbn in *. lia.
Qed.
End ExactTimers.

(** X12. With timers that fire exactly on time, a run takes at most
    13.2 seconds per lesson processed (0.2 s to settle, 0.5 s after the
    click, at most 12 s of waiting, 0.5 s after extraction), hence at most
    13.2 s times the plan's lesson count; [extractedAt] is the clock
    reading at the end of the loop. *)
Theorem run_duration_bounded :
  ∀ (w : World) (t0 : Z) (doc : Doc.t) (st : RunState),
    (∀ t, overshoot w t = O) →
    clickThroughAndScrapeCourse w t0 = (inr doc, st) →
    (t0 ≤ clock st ≤ t0 + 13200 * Z.of_nat (processedLessons st))%Z
    ∧ (clock st ≤ t0 + 13200 * Z.of_nat (Doc.totalLessons doc))%Z
    ∧ Doc.extractedAt doc = clock st.
Proof.
  intros w t0 doc st Hexact Hrun.
  destruct (run_outbox_shape _ _ _ _ Hrun) as (_ & _ & _ & _ & _ & Hle).
  destruct (run_returns _ _ _ _ Hrun)
    as (plan & st1 & cancelled & _ & Hloop & _ & _ & _ & Hat & Hst).
  pose proof (runChapters_duration w Hexact (countLessons plan)
                (initialState t0 (countLessons plan)) plan)
    as Hd.
  rewrite Hloop in Hd. unfold initialState, sendMessage in Hd.
  cbn [fst snd clock processedLessons] in Hd.
  assert (Hclock : clock st = clock st1 ∧ processedLessons st = processedLessons st1).
  { rewrite Hst. by destruct cancelled. }
  destruct Hclock as [Hc Hp]. rewrite Hc, Hp in *.
  split; [lia |]. split; [lia | exact Hat].
Qed.

Lemma run_duration_bounded_witness :
  ∃ doc st,
    clickThroughAndScrapeCourse Fixture.stuckWorld 0 = (inr doc, st)
    ∧ (clock st ≤ 0 + 13200 * Z.of_nat (Doc.totalLessons doc))%Z.
Proof.
  destruct (clickThroughAndScrapeCourse Fixture.stuckWorld 0)
    as [[message | doc] st] eqn:Hrun.
  { vm_compute in Hrun. discriminate Hrun. }
  exists doc, st. split; [reflexivity |].
  exact (proj1 (proj2 (run_duration_bounded
                         Fixture.stuckWorld 0 doc st
                         (fun _ => eq_refl) Hrun))).
Defined.

(* ===================================================================== *)
(** ** Locating a lesson card                                             *)
(* ===================================================================== *)

Lemma cardMatches_dec target card :
  match findElement Selectors.lessonTitle card with
  | Some titleElement =>
      if String.eqb (normalizeText (textContent titleElement)) target
      then cardMatches target card
      else ¬ cardMatches target card
  | None => ¬ cardMatches target card
  end.
Proof.
  unfold cardMatches.
  destruct (findElement Selectors.lessonTitle card) as [e |].
  - destruct (String.eqb_spec (normalizeText (textContent e)) target) as [H | H].
    + by exists e.
    + by intros (e' & [= <-] & H').
  - by intros (e' & H & _).
Qed.

(** X13. The locate step returns the first card, in document order, whose
    title element exists and has the target as its normalised text: every
    card before it fails that test, and the result is null exactly when
    every card fails it. *)
Theorem findCard_first_match :
  ∀ (lessonCards : list Element) (normalizedTarget : string),
    match findCard lessonCards normalizedTarget with
    | Some card =>
        ∃ pre post,
          lessonCards = pre ++ card :: post
          ∧ cardMatches normalizedTarget card
          ∧ Forall (fun c => ¬ cardMatches normalizedTarget c) pre
    | None => Forall (fun c => ¬ cardMatches normalizedTarget c) lessonCards
    end.
Proof.
  intros lessonCards target.
  induction lessonCards as [| card rest IH]; [constructor |].
  cbn [findCard]. pose proof (cardMatches_dec target card) as Hd.
  destruct (findElement Selectors.lessonTitle card) as [e |].
  - destruct (String.eqb (normalizeText (textContent e)) target).
    + exists [], rest. by repeat split.
    + destruct (findCard rest target) as [found |].
      * destruct IH as (pre & post & -> & Hm & Hpre).
        exists (card :: pre), post. repeat split; [done |].
        by constructor.
      * by constructor.
  - destruct (findCard rest target) as [found |].
    + destruct IH as (pre & post & -> & Hm & Hpre).
      exists (card :: pre), post. repeat split; [done |].
      by constructor.
    + by constructor.
Qed.

(* ===================================================================== *)
(** ** Retry with back-off                                                *)
(* ===================================================================== *)

Lemma timerDelay_nonneg ms : (0 ≤ timerDelay ms)%Z.
Proof.
  unfold timerDelay. cbv zeta.
  pose proof (Z.mod_pos_bound (Z.of_nat ms) 4294967296 ltac:(lia)).
  destruct (_ <? Z.of_nat ms)%Z; [lia |].
  destruct (_ <? _)%Z; lia.
Qed.

(** A delay within the timer's range is taken as it is. *)
Lemma timerDelay_in_range ms :
  (Z.of_nat ms ≤ 2147483647)%Z → timerDelay ms = Z.of_nat ms.
Proof.
  intros H. unfold timerDelay. cbv zeta.
  rewrite Z.mod_small by lia.
  destruct (Z.ltb_spec 9007199254740992 (Z.of_nat ms)); [lia |].
  destruct (Z.ltb_spec (Z.of_nat ms) 2147483648); [done | lia].
Qed.

(** The first delay beyond the range is no delay at all. *)
Lemma timerDelay_wraps ms :
  (2147483648 ≤ Z.of_nat ms < 4294967296)%Z → timerDelay ms = 0%Z.
Proof.
  intros H. unfold timerDelay. cbv zeta.
  rewrite Z.mod_small by lia.
  destruct (Z.ltb_spec 9007199254740992 (Z.of_nat ms)); [done |].
  destruct (Z.ltb_spec (Z.of_nat ms) 2147483648); [lia | done].
Qed.

Lemma backoffTotal_in_range backoffMs backoffMultiplier k :
  (∀ j, j < k →
        (Z.of_nat (backoffMs * backoffMultiplier ^ j) ≤ 2147483647)%Z) →
  backoffTotal backoffMs backoffMultiplier k
  = Z.of_nat (backoffSum backoffMs backoffMultiplier k).
Proof.
  induction k as [| k IH]; intros Hrange; [done |].
  cbn [backoffTotal backoffSum].
  rewrite IH by (intros j Hj; apply Hrange; lia).
  rewrite timerDelay_in_range by (apply Hrange; lia). lia.
Qed.

Section Retry.
Context {A : Type}.
Variables (w : World) (operation : nat → Z → (string + A) * nat).
Variables (maxRetries backoffMs backoffMultiplier : nat).
Variable errors : nat → string.

Local Abbreviation loop :=
  (retryLoop w operation maxRetries backoffMs backoffMultiplier).

(** The calls of [onRetry] for the failed attempts [a, a + k). *)
Local Abbreviation retried a k := (map (fun j => (j, errors j)) (seq a k)).

(** [k] failing attempts, none of them the last one allowed, lead to the
    attempt after them, with a back-off sleep and a call of [onRetry] for
    each. *)
Lemma retryLoop_failures k :
  ∀ remaining attempt lastError t onRetry,
    attempt + remaining = maxRetries →
    k < remaining →
    (∀ j s, (attempt ≤ j < attempt + k)%nat → (operation j s).1 = inl (errors j)) →
    ∃ t',
      loop remaining attempt lastError t onRetry
      = loop (remaining - k) (attempt + k)
             (if k is O then lastError
              else Some (errors (attempt + k - 1)))
             t' (onRetry ++ retried attempt k)
      ∧ (t + backoffTotal backoffMs backoffMultiplier (attempt + k)
         - backoffTotal backoffMs backoffMultiplier attempt
         ≤ t')%Z.
Proof.
  induction k as [| k IH]; intros remaining attempt lastError t onRetry Hsum Hk Hfail.
  - exists t. rewrite Nat.sub_0_r, Nat.add_0_r, app_nil_r.
    split; [done | lia].
  - destruct remaining as [| remaining]; [lia |]. cbn [retryLoop].
    pose proof (Hfail attempt t ltac:(lia)) as Hop.
    destruct (operation attempt t) as [[message | value] duration];
      cbn in Hop; [| done]. injection Hop as ->.
    assert (Hlt : (attempt <? maxRetries - 1)%nat = true)
      by (apply Nat.ltb_lt; lia).
    rewrite Hlt. cbv zeta.
    destruct (IH remaining (S attempt) (Some (errors attempt))
                (sleepFrom w
                   (timerDelay (backoffMs * backoffMultiplier ^ attempt))
                   (t + Z.of_nat duration))
                (onRetry ++ [(attempt, errors attempt)]))
      as (t' & Heq & Ht); [lia | lia | |].
    { intros j s Hj. apply Hfail. lia. }
    exists t'.
    replace (S remaining - S k) with (remaining - k) by lia.
    replace (attempt + S k) with (S attempt + k) by lia.
    split.
    + rewrite Heq, <- app_assoc. cbn [seq map app]. f_equal. f_equal.
      destruct k; do 2 f_equal; lia.
    + pose proof (sleepFrom_ge w
                    (timerDelay (backoffMs * backoffMultiplier ^ attempt))
                    (t + Z.of_nat duration)) as Hs.
      change (backoffTotal backoffMs backoffMultiplier (S attempt))
        with (backoffTotal backoffMs backoffMultiplier attempt
              + timerDelay (backoffMs * backoffMultiplier ^ attempt))%Z in Ht.
      lia.
Qed.

Lemma retryLoop_success remaining attempt lastError t onRetry value :
  (∀ s, (operation attempt s).1 = inr value) →
  (loop (S remaining) attempt lastError t onRetry).1.1 = inr value
  ∧ (loop (S remaining) attempt lastError t onRetry).2 = onRetry
  ∧ (t ≤ (loop (S remaining) attempt lastError t onRetry).1.2)%Z.
Proof.
  intros Hop. cbn [retryLoop]. specialize (Hop t).
  destruct (operation attempt t) as [[message | v] duration];
    cbn in Hop; [done |]. injection Hop as ->. cbn. repeat split. lia.
Qed.

Lemma retryLoop_last_failure lastError t onRetry :
  0 < maxRetries →
  (∀ s, (operation (maxRetries - 1) s).1 = inl (errors (maxRetries - 1))) →
  (loop 1 (maxRetries - 1) lastError t onRetry).1.1
  = inl (RetryExhausted ("Operation failed after " +:+ natToString maxRetries
                         +:+ " attempts: " +:+ errors (maxRetries - 1)))
  ∧ (loop 1 (maxRetries - 1) lastError t onRetry).2 = onRetry
  ∧ (t ≤ (loop 1 (maxRetries - 1) lastError t onRetry).1.2)%Z.
Proof.
  intros Hpos Hop. cbn [retryLoop]. specialize (Hop t).
  destruct (operation (maxRetries - 1) t) as [[message | v] duration];
    cbn in Hop; [| done]. injection Hop as ->.
  rewrite Nat.ltb_irrefl. cbn. repeat split. lia.
Qed.
End Retry.

(** X14. [retryOperation] returns the value of the first attempt that
    succeeds: when the first [i] attempts fail and attempt [i] (counted
    from 0, below [maxRetries]) succeeds, the call returns that value,
    [onRetry] has been called once for each failed attempt, in order, with
    its index and error, and at least the sum of the first [i] back-off
    delays, as the timer takes them, has been spent sleeping.  When none
    of these delays, [backoffMs * backoffMultiplier^j], exceeds the timer's
    range of 2147483647 ms, that is their sum; a longer delay wraps
    around. *)
Theorem retryOperation_first_success :
  ∀ (A : Type) (w : World) (operation : nat → Z → (string + A) * nat)
    (maxRetries backoffMs backoffMultiplier : nat) (errors : nat → string)
    (i : nat) (value : A) (t : Z),
    i < maxRetries →
    (∀ j s, j < i → (operation j s).1 = inl (errors j)) →
    (∀ s, (operation i s).1 = inr value) →
    let result :=
      retryOperation w operation maxRetries backoffMs backoffMultiplier t in
    result.1.1 = inr value
    ∧ result.2 = map (fun j => (j, errors j)) (seq 0 i)
    ∧ (t + backoffTotal backoffMs backoffMultiplier i ≤ result.1.2)%Z
    ∧ ((∀ j, j < i →
             (Z.of_nat (backoffMs * backoffMultiplier ^ j) ≤ 2147483647)%Z) →
       (t + Z.of_nat (backoffSum backoffMs backoffMultiplier i)
        ≤ result.1.2)%Z).
Proof.
  intros A w operation maxRetries backoffMs backoffMultiplier errors
         i value t Hi Hfail Hok. cbv zeta. unfold retryOperation.
  destruct (retryLoop_failures w operation maxRetries backoffMs
              backoffMultiplier errors i maxRetries 0 None t [])
    as (t' & -> & Ht); [lia | lia | |].
  { intros j s Hj. apply Hfail. lia. }
  destruct (maxRetries - i) as [| remaining] eqn:Hr; [lia |].
  destruct (retryLoop_success w operation maxRetries backoffMs
              backoffMultiplier remaining (0 + i)
              (if i is O then None else Some (errors (0 + i - 1)))
              t' ([] ++ map (fun j => (j, errors j)) (seq 0 i)) value Hok)
    as (H1 & H2 & H3).
  cbn [Nat.add] in Ht.
  change (backoffTotal backoffMs backoffMultiplier 0) with 0%Z in Ht.
  split; [exact H1 |]. split; [exact H2 |]. split; [lia |].
  intros Hrange. rewrite <- (backoffTotal_in_range _ _ _ Hrange). lia.
Qed.

Lemma retryOperation_first_success_witness :
  (retryOperation Fixture.stuckWorld
     (fun attempt _ => (if (attempt <? 2)%nat then inl "busy" else inr 7%nat, O))
     3 1000 2 0).1.1
  = inr 7%nat.
Proof.
  refine (proj1 (retryOperation_first_success nat Fixture.stuckWorld
                   (fun attempt _ =>
                      (if (attempt <? 2)%nat then inl "busy" else inr 7%nat, O))
                   3 1000 2 (fun _ => "busy") 2 7%nat 0%Z _ _ _)).
  - lia.
  - intros j s Hj. by destruct j as [| [| j]]; [| | lia].
  - reflexivity.
Defined.

(** X15. When every one of the [maxRetries] attempts fails, the call
    throws ['Operation failed after N attempts: '] followed by the message
    of the last error; [onRetry] has been called for every failed attempt
    but the last, in order, and at least the sum of the first [N - 1]
    back-off delays, as the timer takes them, has been spent sleeping:
    their own sum when none exceeds 2147483647 ms.  With [maxRetries = 0]
    the operation is never invoked and the call fails reading [message] of
    an undefined [lastError]. *)
Theorem retryOperation_exhausted :
  ∀ (A : Type) (w : World) (operation : nat → Z → (string + A) * nat)
    (maxRetries backoffMs backoffMultiplier : nat) (errors : nat → string)
    (t : Z),
    (∀ j s, j < maxRetries → (operation j s).1 = inl (errors j)) →
    let result :=
      retryOperation w operation maxRetries backoffMs backoffMultiplier t in
    match maxRetries with
    | O => result = (inl RetryNoAttempt, t, [])
    | S n =>
        result.1.1
        = inl (RetryExhausted ("Operation failed after "
                               +:+ natToString maxRetries +:+ " attempts: "
                               +:+ errors n))
        ∧ result.2 = map (fun j => (j, errors j)) (seq 0 n)
        ∧ (t + backoffTotal backoffMs backoffMultiplier n ≤ result.1.2)%Z
        ∧ ((∀ j, j < n →
                 (Z.of_nat (backoffMs * backoffMultiplier ^ j)
                  ≤ 2147483647)%Z) →
           (t + Z.of_nat (backoffSum backoffMs backoffMultiplier n)
            ≤ result.1.2)%Z)
    end.
Proof.
  intros A w operation maxRetries backoffMs backoffMultiplier errors t Hfail.
  cbv zeta. unfold retryOperation.
  destruct maxRetries as [| n] eqn:HN; [done |].
  destruct (retryLoop_failures w operation (S n) backoffMs
              backoffMultiplier errors n (S n) 0 None t [])
    as (t' & -> & Ht); [lia | lia | |].
  { intros j s Hj. apply Hfail. lia. }
  replace (S n - n) with 1 by lia.
  destruct (retryLoop_last_failure w operation (S n) backoffMs
              backoffMultiplier errors
              (if n is O then None else Some (errors (0 + n - 1)))
              t' ([] ++ map (fun j => (j, errors j)) (seq 0 n)))
    as (H1 & H2 & H3); [lia | |].
  { intros s. replace (S n - 1) with n by lia. apply Hfail. lia. }
  replace (S n - 1) with n in * by lia. cbn [Nat.add] in *.
  change (backoffTotal backoffMs backoffMultiplier 0) with 0%Z in Ht.
  split; [exact H1 |]. split; [exact H2 |]. split; [lia |].
  intros Hrange. rewrite <- (backoffTotal_in_range _ _ _ Hrange). lia.
Qed.

Lemma retryOperation_exhausted_witness :
  (retryOperation Fixture.stuckWorld
     (fun _ _ => (@inl string nat "offline", O)) 3 1000 2 0).1.1
  = inl (RetryExhausted "Operation failed after 3 attempts: offline").
Proof.
  exact (proj1 (retryOperation_exhausted nat Fixture.stuckWorld
                  (fun _ _ => (inl "offline", O)) 3 1000 2
                  (fun _ => "offline") 0%Z (fun _ _ _ => eq_refl))).
Defined.

(* ===================================================================== *)
(** ** Waiting for an element and for navigation                          *)
(* ===================================================================== *)

Section PollingEvery.
Variables (w : World) (ms : Z).

Lemma pollTimeEvery_shift t i :
  pollTimeEvery w ms (sleepFrom w ms t) i = pollTimeEvery w ms t (S i).
Proof. induction i as [| i IH]; [done |]. cbn [pollTimeEvery]. by rewrite IH. Qed.

Lemma pollTimeEvery_ge t i : (t + ms * Z.of_nat i ≤ pollTimeEvery w ms t i)%Z.
Proof.
  induction i as [| i IH]; [cbn; lia |]. cbn [pollTimeEvery].
  pose proof (sleepFrom_ge w ms (pollTimeEvery w ms t i)). lia.
Qed.
End PollingEvery.

Section WaitForElement.
Variables (w : World) (selectors : list string) (timeout : nat).
Variable context : Z → Element.

Local Abbreviation poll := (pollTimeEvery w 100).
Local Abbreviation notFound :=
  ("Element not found after " +:+ natToString timeout +:+ "ms: "
   +:+ joinSelectors selectors).

Lemma waitForElementLoop_found fuel start now element t' :
  waitForElementLoop w selectors timeout context fuel start now
  = (inr element, t')
  ↔ ∃ i, i < fuel
         ∧ t' = poll now i
         ∧ (t' - start < Z.of_nat timeout)%Z
         ∧ findElement selectors (context t') = Some element
         ∧ ∀ j, j < i → findElement selectors (context (poll now j)) = None.
Proof.
  revert now. induction fuel as [| fuel IH]; intros now.
  - cbn. split; [done | intros (i & Hi & _); lia].
  - cbn [waitForElementLoop].
    destruct (Z.ltb_spec (now - start) (Z.of_nat timeout)) as [Hlt | Hge].
    + destruct (findElement selectors (context now)) as [found |] eqn:Hf.
      * split.
        -- intros [= <- <-]. exists 0. cbn. repeat split; [lia | done.. | lia].
        -- intros ([| i] & Hi & -> & Ht & He & Hprev).
           ++ cbn in He. by rewrite Hf in He; injection He as ->.
           ++ specialize (Hprev 0 ltac:(lia)). cbn in Hprev. congruence.
      * rewrite IH. split.
        -- intros (i & Hi & -> & Ht & He & Hprev). exists (S i).
           rewrite <- !pollTimeEvery_shift.
           repeat split; [lia | done.. |].
           intros [| j] Hj; [done |].
           rewrite <- pollTimeEvery_shift. apply Hprev. lia.
        -- intros ([| i] & Hi & -> & Ht & He & Hprev).
           { cbn in He. congruence. }
           exists i. rewrite !pollTimeEvery_shift.
           repeat split; [lia | done.. |].
           intros j Hj. rewrite pollTimeEvery_shift. apply Hprev. lia.
    + split; [done |]. intros (i & _ & -> & Ht & _).
      pose proof (pollTimeEvery_ge w 100 now i). exfalso. lia.
Qed.

Lemma waitForElementLoop_failed fuel start now message t' :
  waitForElementLoop w selectors timeout context fuel start now
  = (inl message, t') →
  message = notFound
  ∧ ((Z.of_nat timeout ≤ t' - start)%Z
     ∨ (now + 100 * Z.of_nat fuel ≤ t')%Z).
Proof.
  revert now. induction fuel as [| fuel IH]; intros now.
  - cbn. intros [= <- <-]. split; [done |]. right. lia.
  - cbn [waitForElementLoop].
    destruct (Z.ltb_spec (now - start) (Z.of_nat timeout)) as [Hlt | Hge].
    + destruct (findElement selectors (context now)); [done |].
      intros [Hm Ht]%IH. split; [done |].
      destruct Ht as [Ht | Ht]; [by left |]. right.
      pose proof (sleepFrom_ge w 100 now). lia.
    + intros [= <- <-]. split; [done |]. by left.
Qed.
End WaitForElement.

(** X16. [waitForElement] returns an element exactly when some poll taken
    less than [timeout] ms after the call finds one with [findElement]; it
    returns at the first such poll, with that poll's element and without
    further delay.  Otherwise it throws ['Element not found after
    <timeout>ms: <selectors>'], and never before [timeout] ms have
    passed. *)
Theorem waitForElement_first_found :
  ∀ (w : World) (selectors : list string) (timeout : nat)
    (context : Z → Element) (t : Z),
    (∀ element t',
        waitForElement w selectors timeout context t = (inr element, t')
        ↔ ∃ i, t' = pollTimeEvery w 100 t i
               ∧ (t' - t < Z.of_nat timeout)%Z
               ∧ findElement selectors (context t') = Some element
               ∧ ∀ j, j < i →
                      findElement selectors
                        (context (pollTimeEvery w 100 t j)) = None)
    ∧ (∀ message t',
          waitForElement w selectors timeout context t = (inl message, t') →
          message = "Element not found after " +:+ natToString timeout
                    +:+ "ms: " +:+ joinSelectors selectors
          ∧ (Z.of_nat timeout ≤ t' - t)%Z).
Proof.
  intros w selectors timeout context t. unfold waitForElement. split.
  - intros element t'. rewrite waitForElementLoop_found. split.
    + intros (i & _ & H). by exists i.
    + intros (i & -> & Ht & H). exists i. split; [| done].
      pose proof (pollTimeEvery_ge w 100 t i) as Hge.
      assert (Z.of_nat i ≤ Z.of_nat timeout / 100)%Z
        by (apply Z.div_le_lower_bound; lia).
      rewrite <- (Nat2Z.id (timeout / 100)), Nat2Z.inj_div. cbn. lia.
  - intros message t' [Hm Ht]%waitForElementLoop_failed. split; [done |].
    destruct Ht as [Ht | Ht]; [done |].
    rewrite Nat2Z.inj_succ, Nat2Z.inj_div in Ht. cbn in Ht.
    pose proof (Z.mul_succ_div_gt (Z.of_nat timeout) 100 ltac:(lia)). lia.
Qed.

Section WaitForNavigation.
Variables (w : World) (loading : Z → bool) (timeout : nat).

Local Abbreviation poll := (pollTimeEvery w 100).

Lemma waitWhileLoading_done fuel start now t' :
  waitWhileLoading w loading timeout fuel start now = (inr tt, t')
  ↔ ∃ i, i < fuel
         ∧ t' = poll now i
         ∧ loading t' = false
         ∧ ∀ j, j < i →
                loading (poll now j) = true
                ∧ (poll now j - start ≤ Z.of_nat timeout)%Z.
Proof.
  revert now. induction fuel as [| fuel IH]; intros now.
  - cbn. split; [done | intros (i & Hi & _); lia].
  - cbn [waitWhileLoading]. destruct (loading now) eqn:Hl.
    + destruct (Z.ltb_spec (Z.of_nat timeout) (now - start)) as [Hlt | Hge].
      * split; [done |]. intros ([| i] & _ & -> & Hd & Hprev).
        -- cbn in Hd. congruence.
        -- destruct (Hprev 0 ltac:(lia)) as [_ H]. cbn in H. lia.
      * rewrite IH. split.
        -- intros (i & Hi & -> & Hd & Hprev). exists (S i).
           rewrite <- !pollTimeEvery_shift.
           split; [lia |]. split; [done |]. split; [done |].
           intros [| j] Hj; [cbn; split; [done | lia] |].
           rewrite <- pollTimeEvery_shift. apply Hprev. lia.
        -- intros ([| i] & Hi & -> & Hd & Hprev).
           { cbn in Hd. congruence. }
           exists i. rewrite !pollTimeEvery_shift.
           split; [lia |]. split; [done |]. split; [done |].
           intros j Hj. rewrite pollTimeEvery_shift. apply Hprev. lia.
    + split.
      * intros [= <-]. exists 0. cbn.
        split; [lia |]. split; [done |]. split; [done |]. intros j Hj. lia.
      * intros ([| i] & _ & -> & Hd & Hprev); [done |].
        destruct (Hprev 0 ltac:(lia)) as [H _]. cbn in H. congruence.
Qed.

Lemma waitWhileLoading_timeout fuel start now message t' :
  0 < fuel →
  (Z.of_nat timeout < now - start + 100 * Z.of_nat fuel - 100)%Z →
  (start ≤ now)%Z →
  waitWhileLoading w loading timeout fuel start now = (inl message, t') →
  message = "Navigation timeout: document still loading"
  ∧ loading t' = true
  ∧ (Z.of_nat timeout < t' - start)%Z.
Proof.
  revert now. induction fuel as [| fuel IH]; intros now Hpos Hfuel Hnow.
  - lia.
  - cbn [waitWhileLoading]. destruct (loading now) eqn:Hl; [| done].
    destruct (Z.ltb_spec (Z.of_nat timeout) (now - start)) as [Hlt | Hge].
    + by intros [= <- <-].
    + pose proof (sleepFrom_ge w 100 now). apply IH; lia.
Qed.
End WaitForNavigation.

(** X17. [waitForNavigation] returns exactly when some poll finds the
    document no longer ['loading'], every poll before it having been taken
    no later than [timeout] ms after the call; it then returns one more
    second (at least) after the first such poll.  When it throws
    ['Navigation timeout: document still loading'], the document is still
    loading and more than [timeout] ms have passed. *)
Theorem waitForNavigation_outcomes :
  ∀ (w : World) (loading : Z → bool) (timeout : nat) (t : Z),
    (∀ t',
        waitForNavigation w loading timeout t = (inr tt, t')
        ↔ ∃ i, loading (pollTimeEvery w 100 t i) = false
               ∧ (∀ j, j < i →
                       loading (pollTimeEvery w 100 t j) = true
                       ∧ (pollTimeEvery w 100 t j - t ≤ Z.of_nat timeout)%Z)
               ∧ t' = sleepFrom w 1000 (pollTimeEvery w 100 t i))
    ∧ (∀ t', waitForNavigation w loading timeout t = (inr tt, t') →
             (t + 1000 ≤ t')%Z)
    ∧ (∀ message t',
          waitForNavigation w loading timeout t = (inl message, t') →
          message = "Navigation timeout: document still loading"
          ∧ loading t' = true
          ∧ (Z.of_nat timeout < t' - t)%Z).
Proof.
  intros w loading timeout t.
  assert (Hdone : ∀ t',
             waitForNavigation w loading timeout t = (inr tt, t')
             ↔ ∃ i, loading (pollTimeEvery w 100 t i) = false
                    ∧ (∀ j, j < i →
                            loading (pollTimeEvery w 100 t j) = true
                            ∧ (pollTimeEvery w 100 t j - t
                               ≤ Z.of_nat timeout)%Z)
                    ∧ t' = sleepFrom w 1000 (pollTimeEvery w 100 t i)).
  { intros t'. unfold waitForNavigation.
    destruct (waitWhileLoading w loading timeout (S (S (timeout / 100))) t t)
      as [[message | []] now] eqn:Hloop.
    - split; [done |]. intros (i & Hd & Hprev & _).
      assert (Hex : waitWhileLoading w loading timeout
                      (S (S (timeout / 100))) t t
                    = (inr tt, pollTimeEvery w 100 t i)).
      { apply waitWhileLoading_done. exists i. split; [| done].
        destruct i as [| i]; [lia |].
        destruct (Hprev i ltac:(lia)) as [_ Hi].
        pose proof (pollTimeEvery_ge w 100 t i) as Hge.
        assert (Z.of_nat i ≤ Z.of_nat timeout / 100)%Z
          by (apply Z.div_le_lower_bound; lia).
        rewrite <- (Nat2Z.id (timeout / 100)), Nat2Z.inj_div. cbn. lia. }
      congruence.
    - apply waitWhileLoading_done in Hloop as (i & _ & -> & Hd & Hprev).
      split.
      + intros [= <-]. by exists i.
      + intros (i' & Hd' & Hprev' & ->).
        assert (i' = i) as ->; [| done].
        destruct (Nat.lt_trichotomy i' i) as [Hlt | [-> | Hgt]]; [| done |].
        * destruct (Hprev i' Hlt) as [H _]. congruence.
        * destruct (Hprev' i Hgt) as [H _]. congruence. }
  split; [exact Hdone |]. split.
  - intros t' (i & _ & _ & ->)%Hdone.
    pose proof (pollTimeEvery_ge w 100 t i).
    pose proof (sleepFrom_ge w 1000 (pollTimeEvery w 100 t i)). lia.
  - intros message t'. unfold waitForNavigation.
    destruct (waitWhileLoading w loading timeout (S (S (timeout / 100))) t t)
      as [[m | []] now] eqn:Hloop; [| done].
    intros [= <- <-].
    eapply waitWhileLoading_timeout; [| | | exact Hloop]; [lia | | lia].
    rewrite !Nat2Z.inj_succ, Nat2Z.inj_div. cbn.
    pose proof (Z.mul_succ_div_gt (Z.of_nat timeout) 100 ltac:(lia)). lia.
Qed.

(* ===================================================================== *)
(** ** Page test, file name and popup                                     *)
(* ===================================================================== *)

(** X18. A page that [isOnCurriculumPage] rejects has no chapter
    container, so a run started on it throws the 'No chapters found'
    error; a run that returns a document was started on a page the test
    accepts. *)
Theorem isOnCurriculumPage_guards_run :
  ∀ (w : World) (t0 : Z),
    (isOnCurriculumPage w t0 = false →
     (clickThroughAndScrapeCourse w t0).1
     = inl ("Course scraping failed: " +:+ noChaptersMessage))
    ∧ (∀ doc st,
          clickThroughAndScrapeCourse w t0 = (inr doc, st) →
          isOnCurriculumPage w t0 = true).
Proof.
  intros w t0.
  assert (H : isOnCurriculumPage w t0 = false →
              findElements Selectors.chapterContainer (page w t0) = []).
  { unfold isOnCurriculumPage. cbv zeta.
    intros [[_ Hc]%orb_false_elim _]%orb_false_elim.
    by destruct (findElements Selectors.chapterContainer (page w t0)). }
  split.
  - intros Hno. unfold clickThroughAndScrapeCourse. by rewrite (H Hno).
  - intros doc st Hrun.
    destruct (isOnCurriculumPage w t0) eqn:Hon; [done |].
    unfold clickThroughAndScrapeCourse in Hrun. by rewrite (H eq_refl) in Hrun.
Qed.

Lemma isOnCurriculumPage_guards_run_witness :
  (clickThroughAndScrapeCourse Fixture.emptyWorld 0).1
  = inl "Course scraping failed: No chapters found. Make sure you are on the curriculum page.".
Proof.
  exact (proj1 (isOnCurriculumPage_guards_run Fixture.emptyWorld 0) eq_refl).
Defined.

Section SafeCharacters.
Ltac all_chars c :=
  destruct c as [[] [] [] [] [] [] [] []]; vm_compute; try reflexivity;
  try discriminate.

Lemma isSafeChar_replace c :
  isSafeChar (lowerChar (if isAlnum c then c else "_"%char)) = true.
Proof. all_chars c. Qed.

Lemma isSafeChar_fixed c :
  isSafeChar c = true → lowerChar (if isAlnum c then c else "_"%char) = c.
Proof. all_chars c. Qed.
End SafeCharacters.

Lemma toLowerCase_mapChars f s :
  toLowerCase (mapChars f s) = mapChars (fun c => lowerChar (f c)) s.
Proof. induction s as [| c s IH]; [done |]. cbn. by rewrite IH. Qed.

Lemma length_mapChars f s : String.length (mapChars f s) = String.length s.
Proof. induction s as [| c s IH]; [done |]. cbn. by rewrite IH. Qed.

(** X19. The title part of the download file name has exactly as many
    characters as the course title (or as ['course'] when the title is
    empty), is never empty, and consists of digits, lower-case ASCII
    letters and underscores only; making it safe again changes nothing. *)
Theorem safeTitle_is_safe :
  ∀ courseTitle : string,
    allChars isSafeChar (safeTitle courseTitle) = true
    ∧ String.length (safeTitle courseTitle)
      = String.length (orElse courseTitle "course")
    ∧ safeTitle courseTitle ≠ ""
    ∧ safeTitle (safeTitle courseTitle) = safeTitle courseTitle.
Proof.
  intros courseTitle. unfold safeTitle. rewrite !toLowerCase_mapChars.
  set (g := fun c => lowerChar (if isAlnum c then c else "_"%char)).
  assert (Hall : ∀ s, allChars isSafeChar (mapChars g s) = true).
  { induction s as [| c s IH]; [done |]. cbn. rewrite IH.
    unfold g. by rewrite (isSafeChar_replace c). }
  assert (Hfix : ∀ s, allChars isSafeChar s = true → mapChars g s = s).
  { induction s as [| c s IH]; [done |]. cbn.
    intros [Hc Hs]%andb_prop. unfold g at 1.
    by rewrite (isSafeChar_fixed c Hc), IH. }
  assert (Hne : mapChars g (orElse courseTitle "course") ≠ "").
  { by destruct courseTitle. }
  split; [apply Hall |]. split; [apply length_mapChars |]. split; [exact Hne |].
  assert (Hor : orElse (mapChars g (orElse courseTitle "course")) "course"
                = mapChars g (orElse courseTitle "course")).
  { unfold orElse at 1.
    by destruct (mapChars g (orElse courseTitle "course")). }
  rewrite Hor. apply Hfix, Hall.
Qed.

(** X20. [extractText] returns text without white space at either end,
    and whenever the cascade finds a title element it agrees with the
    title the click-through plan takes from the same element: the two plan
    builders differ only when no title element is found. *)
Theorem extractText_trimmed :
  ∀ (container : Element) (selectorArray : list string),
    trim (extractText container selectorArray)
    = extractText container selectorArray
    ∧ (∀ fallback,
          findElement selectorArray container ≠ None →
          orElse (extractText container selectorArray) fallback
          = titleOr (findElement selectorArray container) fallback).
Proof.
  intros container selectorArray. unfold extractText, titleOr.
  assert (Hor : ∀ s, orElse s "" = s) by (by intros []).
  split.
  - destruct (findElement selectorArray container);
      rewrite Hor; apply trim_idemp.
  - intros fallback Hfound.
    destruct (findElement selectorArray container); [| done].
    by rewrite Hor.
Qed.

Lemma extractText_trimmed_witness :
  orElse (extractText (Fixture.card "  Welcome ") Selectors.lessonTitle)
         "Lesson 1"
  = "Welcome".
Proof.
  rewrite (proj2 (extractText_trimmed (Fixture.card "  Welcome ")
                    Selectors.lessonTitle) "Lesson 1").
  - reflexivity.
  - discriminate.
Defined.

Lemma numOr_zero a : numOr a 0 = a.
Proof. unfold numOr. by destruct a. Qed.

Lemma numOr_same a : numOr a a = a.
Proof. unfold numOr. by destruct a. Qed.

Lemma progressMessages_progressOf totalLessons titles :
  Forall (progressOf totalLessons) (progressMessages totalLessons titles).
Proof.
  apply Forall_lookup. intros i m. unfold progressMessages.
  rewrite list_lookup_imap. destruct (titles !! i) as [title |]; [| done].
  intros [= <-]. by exists (S i), title.
Qed.

(** Progress messages leave the popup's flags and lesson total alone. *)
Lemma deliver_progress totalLessons messages p :
  Forall (progressOf totalLessons) messages →
  totalLessonsGlobal p = totalLessons →
  totalLessonsGlobal (deliver messages p) = totalLessons
  ∧ wasCancelled (deliver messages p) = wasCancelled p
  ∧ isScraping (deliver messages p) = isScraping p
  ∧ startDisabled (deliver messages p) = startDisabled p
  ∧ cancelDisabled (deliver messages p) = cancelDisabled p.
Proof.
  intros Hall. revert p. induction Hall as [| m rest (k & title & ->) _ IH];
    intros p Hp; [done |].
  unfold deliver in *. cbn [foldl].
  set (p1 := onMessage (TcsProgress k totalLessons title) p).
  assert (H1 : totalLessonsGlobal p1 = totalLessons
               ∧ wasCancelled p1 = wasCancelled p
               ∧ isScraping p1 = isScraping p
               ∧ startDisabled p1 = startDisabled p
               ∧ cancelDisabled p1 = cancelDisabled p).
  { unfold p1. cbn. rewrite Hp, numOr_same. by destruct (truthy title). }
  destruct H1 as (Ht & Hw & Hi & Hs & Hc).
  destruct (IH p1 Ht) as (? & ? & ? & ? & ?).
  repeat split; congruence.
Qed.

(** X21. Whatever state the popup is in, after its listener has handled
    the messages of a run that returned a document, in order, the popup is
    no longer scraping, Start is enabled and Cancel disabled,
    [wasCancelled] equals the document's [cancelled], and the lesson total
    it shows is the document's [totalLessons].  The completed count it
    shows is the run's, except after a run that was not cancelled and
    completed no lesson: then it shows the lesson total. *)
Theorem popup_reflects_run :
  ∀ (w : World) (t0 : Z) (doc : Doc.t) (st : RunState) (p : Popup),
    clickThroughAndScrapeCourse w t0 = (inr doc, st) →
    let p' := deliver (outbox st) p in
    isScraping p' = false
    ∧ startDisabled p' = false
    ∧ cancelDisabled p' = true
    ∧ wasCancelled p' = Doc.cancelled doc
    ∧ totalLessonsGlobal p' = Doc.totalLessons doc
    ∧ progressTotal p' = Doc.totalLessons doc
    ∧ progressCompleted p'
      = (if Doc.cancelled doc then completed st
         else if (completed st =? 0)%nat then Doc.totalLessons doc
         else completed st).
Proof.
  intros w t0 doc st p Hrun. cbv zeta.
  destruct (run_outbox_shape _ _ _ _ Hrun)
    as (titles & -> & -> & _ & Hle1 & Hle2).
  set (total := Doc.totalLessons doc) in *.
  assert (Hle : (length titles ≤ total)%nat) by lia.
  unfold deliver. cbn [foldl]. rewrite foldl_app. cbn [foldl].
  set (p0 := onMessage (TcsInit total) p).
  assert (H0 : totalLessonsGlobal p0 = total).
  { unfold p0. cbn. apply numOr_zero. }
  destruct (deliver_progress total (progressMessages total titles) p0
              (progressMessages_progressOf total titles) H0)
    as (Ht & _).
  unfold deliver in Ht.
  set (p1 := foldl (fun q m => onMessage m q) p0 (progressMessages total titles))
    in *.
  destruct (Doc.cancelled doc); cbn; rewrite Ht, ?numOr_zero.
  - repeat split; unfold numOr; destruct total; cbn; try done;
      destruct (length titles); cbn; lia.
  - repeat split; unfold numOr; destruct total; cbn; try done;
      destruct (length titles) eqn:Hn; cbn; lia.
Qed.

Lemma popup_reflects_run_witness :
  ∃ doc st,
    clickThroughAndScrapeCourse Fixture.capitalsWorld 0 = (inr doc, st)
    ∧ completed st = 0%nat
    ∧ progressCompleted
        (deliver (outbox st) (mkPopup true false 0 true false "" 0 0))
      = 1%nat.
Proof.
  destruct (clickThroughAndScrapeCourse Fixture.capitalsWorld 0)
    as [[message | doc] st] eqn:Hrun.
  { vm_compute in Hrun. discriminate Hrun. }
  exists doc, st. split; [reflexivity |].
  pose proof (popup_reflects_run _ _ _ _
                (mkPopup true false 0 true false "" 0 0) Hrun) as H.
  cbv zeta in H. destruct H as (_ & _ & _ & _ & _ & _ & H).
  vm_compute in Hrun. injection Hrun as <- <-.
  split; [reflexivity | exact H].
Defined.

(** X22. The loop records content for a lesson only after the editor panel
    has shown that lesson's title: if processing a lesson without content
    leaves any of its content fields set, then at some poll less than 12 s
    after the wait began the editor title element carried exactly the
    lesson's title (both trimmed and white-space-collapsed), the lesson's
    card had been located and clicked, and no error is recorded. *)
Theorem content_only_after_title_shown :
  ∀ (w : World) (totalLessons : nat) (st : RunState) (lesson : Lesson.t),
    Lesson.untouched lesson →
    let lesson' := (processLesson w totalLessons st lesson).2 in
    let waitStart := sleepFrom w 500 (sleepFrom w 200 (clock st)) in
    Lesson.content lesson' ≠ None ∨ Lesson.textContent lesson' ≠ None
    ∨ Lesson.plainTextContent lesson' ≠ None →
    Lesson.error lesson' = None
    ∧ (∃ card,
          findCard (findElements Selectors.lessonCard (page w (clock st)))
                   (normalizeText (Lesson.title lesson)) = Some card
          ∧ clicks (processLesson w totalLessons st lesson).1
            = clicks st ++ [clickTarget card])
    ∧ ∃ i titleEl,
        (pollTime w waitStart i - waitStart < 12000)%Z
        ∧ findElement editorTitleSelectors (page w (pollTime w waitStart i))
          = Some titleEl
        ∧ normalize (textContent titleEl) = normalize (Lesson.title lesson).
Proof.
  intros w totalLessons st lesson (Hc & Ht & Hp & He). cbv zeta.
  unfold processLesson.
  cbn [clock completed processedLessons outbox clicks sleep setClock].
  destruct (findCard _ _) as [card |]; [| cbn; intros [H | [H | H]]; done].
  destruct (clickThrows _ _); [cbn; intros [H | [H | H]]; done |].
  destruct (waitForLessonLoaded _ _ _ _) as [loaded t] eqn:Hwait.
  destruct loaded; [| cbn; intros [H | [H | H]]; done].
  cbn [negb]. cbv iota.
  destruct (extractLessonText _); [| cbn; intros [H | [H | H]]; done].
  intros _. cbn. split; [exact He |]. split; [by exists card |].
  assert (Htrue : (waitForLessonLoaded w (Lesson.title lesson) 12000
                     (sleepFrom w 500 (sleepFrom w 200 (clock st)))).1 = true)
    by (by rewrite Hwait).
  unfold waitForLessonLoaded in Htrue.
  apply waitLoop_true in Htrue as (i & _ & Hlt & Hshow).
  apply editorShows_true in Hshow as (titleEl & Hf & Hn).
  by exists i, titleEl.
Qed.

Lemma content_only_after_title_shown_witness :
  Lesson.error
    (processLesson Fixture.cancelWorld 5 (initialState 0 5)
       (Lesson.mk 0 0 "Lesson A" "unknown" None None None None)).2
  = None.
Proof.
  refine (proj1 (content_only_after_title_shown Fixture.cancelWorld 5
                   (initialState 0 5)
                   (Lesson.mk 0 0 "Lesson A" "unknown" None None None None)
                   _ _)).
  - by repeat split.
  - left. vm_compute. discriminate.
Defined.

(* ===================================================================== *)
(** ** The download decision of the popup                                 *)
(* ===================================================================== *)

Lemma run_courseTitle w t0 doc st :
  clickThroughAndScrapeCourse w t0 = (inr doc, st) →
  Doc.courseTitle doc = orElse (documentTitle w) "Unknown Course".
Proof.
  unfold clickThroughAndScrapeCourse.
  destruct (length _ =? 0)%nat; [done |]. cbv zeta.
  destruct (buildChapters _) as [message | plan]; [done |].
  destruct (runChapters _ _ _ _) as [[st1 chapters'] cancelled].
  intros H. pose proof (f_equal fst H) as Hdoc. clear H. cbn [fst] in Hdoc.
  assert (Hd : ∀ (x y : Doc.t), @inr string Doc.t x = inr y → x = y)
    by (intros x y Hxy; by injection Hxy).
  apply Hd in Hdoc. by rewrite <- Hdoc.
Qed.

(** Only a [tcs-cancelled] message sets [wasCancelled]. *)
Lemma wasCancelled_deliver messages p :
  wasCancelled p = false →
  Forall (fun m => isCancelledMessage m = false) messages →
  wasCancelled (deliver messages p) = false.
Proof.
  intros Hp Hall. revert p Hp.
  induction Hall as [| m rest Hm _ IH]; intros p Hp; [done |].
  unfold deliver in *. cbn [foldl]. apply IH.
  destruct m as [n | k n title | k n | k n]; cbn in Hm |- *; try done.
  by destruct (truthy title).
Qed.

(** A run that is not cancelled sends no [tcs-cancelled] message. *)
Lemma run_sends_no_cancelled w t0 doc st :
  clickThroughAndScrapeCourse w t0 = (inr doc, st) →
  Doc.cancelled doc = false →
  Forall (fun m => isCancelledMessage m = false) (outbox st).
Proof.
  intros Hrun Hc.
  destruct (run_outbox_shape _ _ _ _ Hrun) as (titles & -> & _).
  rewrite Hc. constructor; [done |]. apply Forall_app. split.
  - eapply Forall_impl; [apply progressMessages_progressOf |].
    by intros m (k & title & ->).
  - by constructor.
Qed.

(** X23. [runScrape] on a Thinkific tab, with the browser calls settling
    and the scraper returning a document: a file is downloaded exactly
    when the document is not [cancelled], whichever part of the run's
    messages the listener has handled by the time the result arrives.  The
    file is named after the page title (['Unknown Course'] when it is
    empty, never ['course']), the status line tells which of the two
    happened, and the popup is left not scraping, with Start enabled and
    Cancel disabled. *)
Theorem runScrape_downloads_unless_cancelled :
  ∀ (w : World) (t0 : Z) (doc : Doc.t) (st : RunState)
    (b : Browser) (p : Popup) (url : string),
    clickThroughAndScrapeCourse w t0 = (inr doc, st) →
    tabsQuery b = inr (Some url) →
    includes url "thinkific.com" = true →
    injectFiles b = None →
    scrapeResult b = inr (Some doc) →
    delivered b `prefix_of` outbox st →
    downloadCall b = None →
    let filename :=
      downloadFilename (orElse (documentTitle w) "Unknown Course")
                       (dateNow b) in
    (runScrape b p).2 = (if Doc.cancelled doc then None else Some filename)
    ∧ status (runScrape b p).1
      = (if Doc.cancelled doc
         then "Scraping cancelled. No file downloaded."
         else "Complete! " +:+ filename +:+ " has been downloaded.")
    ∧ isScraping (runScrape b p).1 = false
    ∧ startDisabled (runScrape b p).1 = false
    ∧ cancelDisabled (runScrape b p).1 = true.
Proof.
  intros w t0 doc st b p url Hrun Htab Hurl Hinject Hscrape Hprefix Hdl.
  cbv zeta. rewrite <- (run_courseTitle _ _ _ _ Hrun).
  destruct (runScrape b p) as [p' file] eqn:Hres. cbn [fst snd].
  unfold runScrape in Hres. rewrite Htab in Hres.
  destruct url as [| c r]; [discriminate Hurl |].
  change (orNull (default "" (Some (String c r))))
    with (Some (String c r)) in Hres.
  cbv beta iota zeta in Hres. rewrite Hurl in Hres. cbn [negb] in Hres.
  cbv beta iota zeta in Hres. rewrite Hinject, Hscrape in Hres.
  cbv beta iota zeta in Hres.
  destruct (Doc.cancelled doc) eqn:Hc.
  - cbn [orb] in Hres. cbv beta iota zeta in Hres.
    injection Hres as <- <-. by cbn.
  - rewrite wasCancelled_deliver in Hres; [| done |].
    + cbn [orb] in Hres. cbv beta iota zeta in Hres. rewrite Hdl in Hres.
      cbv beta iota zeta in Hres. injection Hres as <- <-. by cbn.
    + destruct Hprefix as [rest Hrest].
      pose proof (run_sends_no_cancelled _ _ _ _ Hrun Hc) as Hall.
      rewrite Hrest in Hall. by apply Forall_app in Hall as [Hall _].
Qed.

Lemma runScrape_downloads_unless_cancelled_witness :
  ∃ doc st,
    clickThroughAndScrapeCourse Fixture.cancelWorld 0 = (inr doc, st)
    ∧ isScraping
        (runScrape (mkBrowser (inr (Some "https://school.thinkific.com/manage"))
                              None (inr (Some doc)) (outbox st) None 0)
                   (mkPopup false false 0 false true "" 0 0)).1
      = false.
Proof.
  destruct (clickThroughAndScrapeCourse Fixture.cancelWorld 0)
    as [[message | doc] st] eqn:Hrun.
  { vm_compute in Hrun. discriminate Hrun. }
  exists doc, st. split; [reflexivity |].
  refine (proj1 (proj2 (proj2
            (runScrape_downloads_unless_cancelled
               Fixture.cancelWorld 0 doc st
               (mkBrowser (inr (Some "https://school.thinkific.com/manage"))
                          None (inr (Some doc)) (outbox st) None 0)
               (mkPopup false false 0 false true "" 0 0)
               "https://school.thinkific.com/manage"
               Hrun eq_refl _ eq_refl eq_refl _ eq_refl)))).
  - vm_compute. reflexivity.
  - cbn [delivered]. reflexivity.
Defined.

(* ===================================================================== *)
(** ** Download links                                                     *)
(* ===================================================================== *)

Section DownloadFiles.
Variable extractFilename : string → string.

Local Abbreviation fileOf := (fileOfLink extractFilename).
Local Abbreviation collect := (collectFiles extractFilename).

(** No element read is an SVG anchor. *)
Local Abbreviation plain :=
  (Forall (fun link => link_href link ≠ HrefAnimated)).

Lemma collectFiles_plain links :
  plain links → (collect links).2 = None.
Proof.
  induction 1 as [| link rest Hlink _ IH]; [done |]. cbn [collectFiles].
  destruct (link_href link) as [url | |]; [| done | done].
  destruct (isHttpUrl url); [| done].
  by destruct (collect rest) as [files thrown].
Qed.

Lemma collectFiles_throws pre link post :
  plain pre → link_href link = HrefAnimated →
  collect (pre ++ link :: post)
  = ((collect pre).1, Some startsWithTypeError).
Proof.
  intros Hpre Hlink. induction Hpre as [| l pre Hl _ IH].
  - cbn. by rewrite Hlink.
  - cbn [collectFiles app].
    destruct (link_href l) as [url | |]; [| done | done].
    destruct (isHttpUrl url); [| done]. rewrite IH.
    by destruct (collect pre) as [files thrown].
Qed.

Lemma collectFiles_urls links u :
  u ∈ file_url <$> (collect links).1
  → HrefString u ∈ link_href <$> links ∧ isHttpUrl u = true.
Proof.
  induction links as [| link rest IH].
  - cbn. intros H. by apply elem_of_nil in H.
  - cbn [collectFiles]. rewrite fmap_cons, elem_of_cons.
    destruct (link_href link) as [url | |] eqn:Hhref.
    + destruct (isHttpUrl url) eqn:Hh.
      * destruct (collect rest) as [files thrown]. cbn [fst] in *.
        rewrite fmap_cons, elem_of_cons. cbn [fileOfLink file_url].
        intros [-> | [H1 H2]%IH]; [by split; [left |] | by split; [right |]].
      * intros [H1 H2]%IH. by split; [right |].
    + intros [H1 H2]%IH. by split; [right |].
    + cbn. intros H. by apply elem_of_nil in H.
Qed.

Lemma collectFiles_plain_urls links u :
  plain links →
  HrefString u ∈ link_href <$> links → isHttpUrl u = true →
  u ∈ file_url <$> (collect links).1.
Proof.
  induction 1 as [| link rest Hlink _ IH].
  - cbn. intros H. by apply elem_of_nil in H.
  - cbn [collectFiles]. rewrite fmap_cons, elem_of_cons.
    destruct (link_href link) as [url | |] eqn:Hhref; [| | done].
    + destruct (isHttpUrl url) eqn:Hh.
      * destruct (collect rest) as [files thrown]. cbn [fst] in *.
        rewrite fmap_cons, elem_of_cons. cbn [fileOfLink file_url].
        intros [[= ->] | H1] H2; [by left | right; by apply IH].
      * intros [[= ->] | H1] H2; [congruence | by apply IH].
    + intros [[=] | H1] H2. by apply IH.
Qed.

(** Every file kept comes from the first link with its [href]. *)
Lemma filterSeen_collectFiles seen links f :
  f ∈ filterSeen file_url seen (collect links).1 →
  ∃ pre link post url,
    links = pre ++ link :: post
    ∧ link_href link = HrefString url
    ∧ f = fileOf url link
    ∧ (url ∉ seen)
    ∧ isHttpUrl url = true
    ∧ Forall (fun l => link_href l ≠ link_href link) pre.
Proof.
  revert seen. induction links as [| link rest IH]; intros seen.
  - cbn. intros H. by apply elem_of_nil in H.
  - cbn [collectFiles].
    destruct (link_href link) as [url | |] eqn:Hhref.
    + destruct (isHttpUrl url) eqn:Hh.
      * destruct (collect rest) as [files thrown]. cbn [fst] in *.
        destruct (decide (file_url (fileOf url link) ∈ seen)) as [Hs | Hs].
        -- rewrite filterSeen_cons_seen by done.
           intros (pre & l & post & u & -> & Hl & -> & Hn & Hu & Hpre)%IH.
           exists (link :: pre), l, post, u. repeat split; try done.
           constructor; [| done]. rewrite Hhref, Hl. intros [= ->].
           by apply Hn.
        -- rewrite filterSeen_cons_new by done.
           intros [-> | Hin]%elem_of_cons.
           ++ exists [], link, rest, url. repeat split; done.
           ++ apply IH in Hin
                as (pre & l & post & u & -> & Hl & -> & Hn & Hu & Hpre).
              apply not_elem_of_union in Hn as [Hn1 Hn2].
              exists (link :: pre), l, post, u. repeat split; try done.
              constructor; [| done]. rewrite Hhref, Hl. intros [= ->].
              apply Hn1. by apply elem_of_singleton.
      * intros (pre & l & post & u & -> & Hl & -> & Hn & Hu & Hpre)%IH.
        exists (link :: pre), l, post, u. repeat split; try done.
        constructor; [| done]. rewrite Hhref, Hl. intros [= ->]. congruence.
    + intros (pre & l & post & u & -> & Hl & -> & Hn & Hu & Hpre)%IH.
      exists (link :: pre), l, post, u. repeat split; try done.
      constructor; [| done]. by rewrite Hhref, Hl.
    + cbn. intros H. by apply elem_of_nil in H.
Qed.
End DownloadFiles.

(** X24. When no element found is an SVG anchor, the [files] of
    [extractDownloadContent] hold one entry per distinct string [href]
    that starts with ['http'], in the order of first appearance; elements
    with another [href], or none, are dropped.  Each entry is built from
    the first element with that [href]: a later link to the same URL never
    contributes its [download] name or its text.  The file type of an
    entry is the extension of its URL (lower case, or ['unknown']), and its
    link text has no white space at either end.  At the first SVG anchor,
    whose [href] is not a string, the loop throws: the result carries that
    error and the files of the elements before it, not de-duplicated. *)
Theorem extractDownloadContent_files :
  ∀ (extractFilename : string → string) (downloadLinks : list Link),
    let result := extractDownloadContent extractFilename downloadLinks in
    (Forall (fun link => link_href link ≠ HrefAnimated) downloadLinks →
     download_error result = None
     ∧ NoDup (file_url <$> download_files result)
     ∧ (∀ u, u ∈ file_url <$> download_files result
             ↔ HrefString u ∈ link_href <$> downloadLinks
               ∧ isHttpUrl u = true)
     ∧ sublist (download_files result)
               (collectFiles extractFilename downloadLinks).1
     ∧ Forall (fun f =>
                 (∃ pre link post,
                     downloadLinks = pre ++ link :: post
                     ∧ link_href link = HrefString (file_url f)
                     ∧ f = fileOfLink extractFilename (file_url f) link
                     ∧ Forall (fun l => link_href l ≠ link_href link) pre)
                 ∧ file_fileType f = extractFileExtension (file_url f)
                 ∧ allChars isLowerAlnum (file_fileType f) = true
                 ∧ trim (file_linkText f) = file_linkText f)
              (download_files result))
    ∧ (∀ pre link post,
          downloadLinks = pre ++ link :: post →
          Forall (fun l => link_href l ≠ HrefAnimated) pre →
          link_href link = HrefAnimated →
          download_error result = Some startsWithTypeError
          ∧ download_files result
            = (collectFiles extractFilename pre).1).
Proof.
  intros extractFilename downloadLinks. cbv zeta.
  unfold extractDownloadContent. split.
  - intros Hplain.
    pose proof (collectFiles_plain extractFilename _ Hplain) as Hnone.
    pose proof (collectFiles_urls extractFilename downloadLinks) as Hin.
    pose proof (collectFiles_plain_urls extractFilename downloadLinks) as Hout.
    pose proof (filterSeen_collectFiles extractFilename ∅ downloadLinks) as Hf.
    destruct (collectFiles extractFilename downloadLinks) as [files thrown].
    cbn [fst snd] in *. subst thrown.
    cbn [download_files download_error]. unfold removeDuplicateFiles.
    split; [done |]. split; [apply filterSeen_NoDup |]. split; [| split].
    + intros u. rewrite filterSeen_elem. split.
      * intros [H _]. by apply Hin.
      * intros [H1 H2]. split; [by apply Hout | apply not_elem_of_empty].
    + apply filterSeen_sublist.
    + apply Forall_forall. intros f Hfile.
      apply Hf in Hfile
        as (pre & link & post & url & Hlinks & Hhref & -> & _ & _ & Hpre).
      cbn [fileOfLink file_fileType file_url file_linkText].
      split; [by exists pre, link, post |].
      split; [done |]. split.
      { unfold extractFileExtension.
        destruct (matchExtension url) as [run |] eqn:Hm; [| done].
        destruct (matchExtension_run _ _ Hm) as [_ Hall].
        by apply toLowerCase_alnum. }
      unfold orElse. destruct (trim (link_textContent link)) eqn:Ht; [done |].
      cbn [truthy]. rewrite <- Ht. apply trim_idemp.
  - intros pre link post -> Hpre Hlink.
    by rewrite (collectFiles_throws extractFilename _ _ _ Hpre Hlink).
Qed.
